(** * DungeonTracker: annotation store, room formation and viewport clamp

    A shallow embedding of [dungeontracker.js] and of the geometry helpers
    of [dungeonGridSvg.js], followed by the properties of the store, of
    the contiguity check and of the viewport clamp.

    Conventions of the embedding.
    - [data.cells] and [data.rooms] are JS objects used as dictionaries
      with string keys: they are [gmap string _].
    - A cell or room object is reached only through its key in the
      dictionary (records come from literals or from [JSON.parse], which
      never shares objects), so a field write [cell.f = v] is an update of
      the dictionary at that key.
    - Only the effect of a function on the tracker's own variables is kept:
      writes to DOM nodes (attributes, text, button states), [alert] and
      [localStorage] are dropped, except that the answer of [confirm] is an
      argument and an [alert] is reported in the returned outcome.
      What [setVisual] paints, the flag [renderStageStatus] gives to the
      create button and the text [escapeHtml] returns are given by
      functions of their own.
    - Grid coordinates and the room counter are JS numbers holding
      integers far below 2^53; they are [Z]. Viewport quantities are JS
      doubles; they are modelled by real numbers, rounding is not
      modelled. *)

From Stdlib Require Import ZArith Reals Lra Lia List Ascii String.
From Stdlib Require Import DecimalString DecimalZ DecimalPos Sorted.
From stdpp Require Import base option list gmap strings sets fin_sets.

Open Scope Z_scope.
Open Scope string_scope.
Set Warnings "-clear-no-such-hyp".

(** ** JavaScript values that flow through cell keys *)

(** What [Number(s)] and array destructuring can yield for one component
    of a key: an integer, [NaN], or [undefined] (a missing component). *)
Inductive jsnum : Type :=
  | Num (z : Z)
  | NaN
  | Undef.

(** [`${z}`] for an integer number. *)
Definition string_of_Z (z : Z) : string :=
  NilZero.string_of_int (Z.to_int z).

(** Template-literal conversion [`${v}`]. *)
Definition toString (v : jsnum) : string :=
  match v with
  | Num z => string_of_Z z
  | NaN => "NaN"
  | Undef => "undefined"
  end.

(** [Number(s)] on the strings that occur as key components: the empty
    string is 0, an optionally negated run of decimal digits is that
    integer, anything else is [NaN]. (Other numeric literals of JS, such
    as fractions, exponents, hexadecimal or padded strings, are never
    written by [key] and are read as [NaN] here.) *)
Definition Number (s : string) : jsnum :=
  match s with
  | "" => Num 0
  | _ => match NilZero.int_of_string s with
         | Some d => Num (Z.of_int d)
         | None => NaN
         end
  end.

(** [v + d] for an integer literal [d]: [NaN] and [undefined] give [NaN]. *)
Definition jsadd (v : jsnum) (d : Z) : jsnum :=
  match v with
  | Num z => Num (z + d)
  | _ => NaN
  end.

(** [s.split(",")]. *)
Fixpoint split_comma (s : string) : list string :=
  match s with
  | "" => [""]
  | String a s' =>
      if Ascii.eqb a "," then "" :: split_comma s'
      else match split_comma s' with
           | h :: t => String a h :: t
           | [] => [String a ""]
           end
  end.

(** [function key(c, r){ return `${c},${r}`; }] *)
Definition key (c r : jsnum) : string :=
  toString c ++ "," ++ toString r.

(** [const [c, r] = k.split(",").map(Number);] *)
Definition parseKey (k : string) : jsnum * jsnum :=
  match map Number (split_comma k) with
  | c :: r :: _ => (c, r)
  | c :: [] => (c, Undef)
  | [] => (Undef, Undef)
  end.

(** The key of the cell at integer coordinates [(c, r)]. *)
Definition cellKey (p : Z * Z) : string := key (Num (fst p)) (Num (snd p)).

(** ** Data model *)

(** [cell.roomId] is a room id, [null], or absent ([undefined]) in records
    read from older saves. *)
Inductive roomref : Type :=
  | RoomUndefined
  | RoomNull
  | RoomId (id : string).

(** [data.cells["c,r"] = { c: "#hex", n: "notes", icon:"", roomId: "abc" | null }];
    [cell_icon = None] is an absent ([undefined]) icon. *)
Record cell : Type := mkCell {
  cell_c : option string;
  cell_n : string;
  cell_icon : option string;
  cell_roomId : roomref
}.

(** [data.rooms[roomId] = { id, name, kind, c, n, icon, cells: ["c,r", ...] }] *)
Record room : Type := mkRoom {
  room_id : string;
  room_name : string;
  room_kind : string;
  room_c : string;
  room_n : string;
  room_icon : string;
  room_cells : list string
}.

(** [const data = { cells:{}, rooms:{}, meta:{ nextRoomId: 1 } }] *)
Record store : Type := mkStore {
  cells : gmap string cell;
  rooms : gmap string room;
  nextRoomId : Z
}.

Inductive target : Type := TargetCell | TargetRoom.

(** The tracker's variables: [data], [editTarget], [selectedCellKey],
    [selectedRect] (a rect is named by the key it is registered under in
    [grid.rectByKey]) and the [staged] set in insertion order. *)
Record tracker : Type := mkTracker {
  data : store;
  editTarget : target;
  selectedCellKey : option string;
  selectedRect : option string;
  staged : list string
}.

(** Grid dimensions and cell geometry passed in [opts]. *)
Record config : Type := mkConfig {
  COLS : Z;
  ROWS : Z;
  SIZE : R;
  GAP : R;
  PAD : R
}.

Definition defaultConfig : config :=
  {| COLS := 50; ROWS := 50; SIZE := 18; GAP := 2; PAD := 18 |}.

(** What a handler reports to the user. *)
Inductive signal : Type :=
  | Silent
  | AlertNotContiguous
  | AlertAlreadyGrouped
  | AlertCellGrouped
  | AlertInvalidFile
  | Thrown.

Definition emptyStore : store :=
  {| cells := ∅; rooms := ∅; nextRoomId := 1 |}.

Definition set_cells (d : store) (cs : gmap string cell) : store :=
  {| cells := cs; rooms := rooms d; nextRoomId := nextRoomId d |}.

Definition set_rooms (d : store) (rs : gmap string room) : store :=
  {| cells := cells d; rooms := rs; nextRoomId := nextRoomId d |}.

Definition set_data (st : tracker) (d : store) : tracker :=
  {| data := d; editTarget := editTarget st;
     selectedCellKey := selectedCellKey st;
     selectedRect := selectedRect st; staged := staged st |}.

Definition set_editTarget (st : tracker) (t : target) : tracker :=
  {| data := data st; editTarget := t;
     selectedCellKey := selectedCellKey st;
     selectedRect := selectedRect st; staged := staged st |}.

Definition set_staged (st : tracker) (l : list string) : tracker :=
  {| data := data st; editTarget := editTarget st;
     selectedCellKey := selectedCellKey st;
     selectedRect := selectedRect st; staged := l |}.

Definition set_selection (st : tracker) (k rect : option string) : tracker :=
  {| data := data st; editTarget := editTarget st;
     selectedCellKey := k; selectedRect := rect; staged := staged st |}.

(** Truthiness of a string: only the empty string is falsy. *)
Definition truthy (s : string) : bool :=
  match s with "" => false | _ => true end.

(** Truthiness of [cell.roomId]: the id when it is a non-empty string. *)
Definition truthyRoom (r : roomref) : option string :=
  match r with
  | RoomId id => if truthy id then Some id else None
  | _ => None
  end.

(** ** Cell access *)

Definition freshCell : cell :=
  {| cell_c := None; cell_n := ""; cell_icon := Some ""; cell_roomId := RoomNull |}.

(** The two repairs of [ensureCell]:
    [if (cell.icon === undefined) cell.icon = "";]
    [if (cell.roomId === undefined) cell.roomId = null;] *)
Definition repairCell (x : cell) : cell :=
  {| cell_c := cell_c x;
     cell_n := cell_n x;
     cell_icon := match cell_icon x with None => Some "" | Some i => Some i end;
     cell_roomId := match cell_roomId x with
                    | RoomUndefined => RoomNull
                    | r => r
                    end |}.

(** [ensureCell(c, r)]: create the record on first access
    ([data.cells[k] ??= {...}]), repair it, and return it together with
    the updated store. *)
Definition ensureCell (c r : jsnum) (d : store) : cell * store :=
  let k := key c r in
  let cell0 := match cells d !! k with
               | Some x => x
               | None => freshCell
               end in
  let cell1 := repairCell cell0 in
  (cell1, set_cells d (<[k := cell1]> (cells d))).

(** [ensureCell] on the coordinates read back from a key, as in
    [const [c, r] = k.split(",").map(Number); const cell = ensureCell(c, r);] *)
Definition ensureCellAt (k : string) (d : store) : cell * store :=
  let '(c, r) := parseKey k in ensureCell c r d.

(** [function roomById(id){ return id ? data.rooms[id] : null; }] *)
Definition roomById (id : roomref) (d : store) : option room :=
  match truthyRoom id with
  | Some s => rooms d !! s
  | None => None
  end.

(** ** The grid of rects *)

(** The coordinates visited by the two nested loops of
    [buildSquareSvgGrid] and [rebuildAll], rows outside, columns inside. *)
Definition gridCoords (cfg : config) : list (Z * Z) :=
  flat_map (fun r => map (fun c => (c, r)) (seqZ 0 (COLS cfg))) (seqZ 0 (ROWS cfg)).

(** The keys of [grid.rectByKey]. *)
Definition gridKeys (cfg : config) : list string :=
  map cellKey (gridCoords cfg).

(** [rectForKey(k)]: the rect registered under [k], if any. *)
Definition rectForKey (cfg : config) (k : string) : option string :=
  if bool_decide (k ∈ gridKeys cfg) then Some k else None.

(** The store effect of [setVisual(rect, c, r)]: it reads the cell through
    [ensureCell]; everything else it does is painting. *)
Definition setVisual (c r : jsnum) (d : store) : store :=
  snd (ensureCell c r d).

(** [rebuildAll()]: repaint every cell that has a rect. *)
Definition rebuildAll (cfg : config) (d : store) : store :=
  fold_left
    (fun acc p =>
       let k := cellKey p in
       match rectForKey cfg k with
       | Some _ => setVisual (Num (fst p)) (Num (snd p)) acc
       | None => acc
       end)
    (gridCoords cfg) d.

(** Repaint of the cells listed in [keys] that have a rect, as in
    [for (const k of keys){ ...; const rect = rectForKey(k);
                            if (rect) setVisual(rect, c, r); }] *)
Definition repaintKeys (cfg : config) (keys : list string) (d : store) : store :=
  fold_left
    (fun acc k =>
       let '(c, r) := parseKey k in
       match rectForKey cfg k with
       | Some _ => setVisual c r acc
       | None => acc
       end)
    keys d.

(** [const cell = ensureCell(c, r); cell.f = v;]: a field write through the
    record returned by [ensureCell]. *)
Definition updateCell (c r : jsnum) (f : cell -> cell) (d : store) : store :=
  let '(x, d1) := ensureCell c r d in
  set_cells d1 (<[key c r := f x]> (cells d1)).

Definition updateCellAt (k : string) (f : cell -> cell) (d : store) : store :=
  let '(c, r) := parseKey k in updateCell c r f d.

Definition with_roomId (v : roomref) (x : cell) : cell :=
  {| cell_c := cell_c x; cell_n := cell_n x; cell_icon := cell_icon x; cell_roomId := v |}.

Definition with_c (v : option string) (x : cell) : cell :=
  {| cell_c := v; cell_n := cell_n x; cell_icon := cell_icon x; cell_roomId := cell_roomId x |}.

Definition with_icon (v : string) (x : cell) : cell :=
  {| cell_c := cell_c x; cell_n := cell_n x; cell_icon := Some v; cell_roomId := cell_roomId x |}.

Definition with_n (v : string) (x : cell) : cell :=
  {| cell_c := cell_c x; cell_n := v; cell_icon := cell_icon x; cell_roomId := cell_roomId x |}.

Definition room_with_c (v : string) (x : room) : room :=
  {| room_id := room_id x; room_name := room_name x; room_kind := room_kind x;
     room_c := v; room_n := room_n x; room_icon := room_icon x;
     room_cells := room_cells x |}.

Definition room_with_icon (v : string) (x : room) : room :=
  {| room_id := room_id x; room_name := room_name x; room_kind := room_kind x;
     room_c := room_c x; room_n := room_n x; room_icon := v;
     room_cells := room_cells x |}.

Definition room_with_n (v : string) (x : room) : room :=
  {| room_id := room_id x; room_name := room_name x; room_kind := room_kind x;
     room_c := room_c x; room_n := v; room_icon := room_icon x;
     room_cells := room_cells x |}.

Definition room_with_name (v : string) (x : room) : room :=
  {| room_id := room_id x; room_name := v; room_kind := room_kind x;
     room_c := room_c x; room_n := room_n x; room_icon := room_icon x;
     room_cells := room_cells x |}.

Definition room_with_kind (v : string) (x : room) : room :=
  {| room_id := room_id x; room_name := room_name x; room_kind := v;
     room_c := room_c x; room_n := room_n x; room_icon := room_icon x;
     room_cells := room_cells x |}.

(** ** Selection and staging *)

(** [getCurrentCell()] *)
Definition getCurrentCell (st : tracker) : option cell * tracker :=
  match selectedCellKey st with
  | Some k =>
      if truthy k then
        let '(x, d1) := ensureCellAt k (data st) in (Some x, set_data st d1)
      else (None, st)
  | None => (None, st)
  end.

(** [getCurrentRoom()]: the room record of the selected cell, with the
    dictionary key it was found under. *)
Definition getCurrentRoom (st : tracker) : option (string * room) * tracker :=
  let '(x, st1) := getCurrentCell st in
  match x with
  | Some x =>
      match truthyRoom (cell_roomId x) with
      | Some id =>
          match rooms (data st1) !! id with
          | Some rm => (Some (id, rm), st1)
          | None => (None, st1)
          end
      | None => (None, st1)
      end
  | None => (None, st1)
  end.

(** [refreshButtons()] reads the current cell and room. *)
Definition refreshButtons (st : tracker) : tracker :=
  let '(_, st1) := getCurrentCell st in
  let '(_, st2) := getCurrentRoom st1 in
  st2.

(** [selectCell(k, rect)] *)
Definition selectCell (k rect : string) (st : tracker) : tracker :=
  let st1 := set_selection st (Some k) (Some rect) in
  let '(x, d1) := ensureCellAt k (data st1) in
  let st2 := set_data st1 d1 in
  let st3 := match roomById (cell_roomId x) d1 with
             | Some _ => set_editTarget st2 TargetRoom
             | None => set_editTarget st2 TargetCell
             end in
  refreshButtons st3.

(** [staged.delete(k)] *)
Definition unstage (k : string) (l : list string) : list string :=
  filter (fun x => x ≠ k) l.

(** [toggleStage(k)] *)
Definition toggleStage (cfg : config) (k : string) (st : tracker) : tracker :=
  match rectForKey cfg k with
  | None => st
  | Some _ =>
      if bool_decide (k ∈ staged st) then
        let st1 := set_staged st (unstage k (staged st)) in
        let '(c, r) := parseKey k in
        set_data st1 (setVisual c r (data st1))
      else set_staged st (staged st ++ [k])%list
  end.

(** [clearStage()] *)
Definition clearStage (cfg : config) (st : tracker) : tracker :=
  set_staged (set_data st (repaintKeys cfg (staged st) (data st))) [].

(** The Escape branch of the [keydown] listener. *)
Definition onEscape (cfg : config) (st : tracker) : tracker :=
  let st1 := clearStage cfg st in
  match editTarget st1 with
  | TargetRoom =>
      let st2 := set_editTarget st1 TargetCell in
      let '(_, st3) := getCurrentCell st2 in
      refreshButtons st3
  | TargetCell => st1
  end.

(** [onCellLeave(c, r, rect)]: the cell is repainted unless it is the
    selected or a staged one. *)
Definition onCellLeave (cfg : config) (k : string) (st : tracker) : tracker :=
  match rectForKey cfg k with
  | None => st
  | Some rect =>
      if bool_decide (Some rect ≠ selectedRect st) && negb (bool_decide (k ∈ staged st))
      then let '(c, r) := parseKey k in set_data st (setVisual c r (data st))
      else st
  end.

(** The click listener of the room list item of the room filed under
    [id]. *)
Definition onRoomItemClick (cfg : config) (id : string) (st : tracker) : tracker :=
  match rooms (data st) !! id with
  | None => st
  | Some rm =>
      let st1 := match room_cells rm with
                 | k :: _ =>
                     match rectForKey cfg k with
                     | Some rect => selectCell k rect st
                     | None => st
                     end
                 | [] => st
                 end in
      refreshButtons (set_editTarget st1 TargetRoom)
  end.

(** ** Contiguity check (4-neighbour adjacency) *)

(** The four keys built from the coordinates read back from [cur]. *)
Definition neighbours (cur : string) : list string :=
  let '(c, r) := parseKey cur in
  [ key (jsadd c 1) r; key (jsadd c (-1)) r;
    key c (jsadd r 1); key c (jsadd r (-1)) ].

(** Body of [for (const n of neigh)]: skip [n] unless it is in [set] and
    not yet in [seen]; otherwise mark it and enqueue it. *)
Definition visit (set : gset string) (acc : gset string * list string) (n : string)
  : gset string * list string :=
  let '(seen, q) := acc in
  if negb (bool_decide (n ∈ set)) || bool_decide (n ∈ seen) then acc
  else ({[ n ]} ∪ seen, (q ++ [n])%list).

(** The [while (q.length)] loop; [fuel] bounds the number of iterations and
    [None] is returned only when it runs out. *)
Fixpoint bfs (fuel : nat) (set : gset string) (q : list string) (seen : gset string)
  : option (gset string) :=
  match q with
  | [] => Some seen
  | cur :: q' =>
      match fuel with
      | O => None
      | S fuel' =>
          let '(seen', q'') := fold_left (visit set) (neighbours cur) (seen, q') in
          bfs fuel' set q'' seen'
      end
  end.

(** [isContiguous(keys)]. The loop dequeues each key at most once, so
    [length keys] iterations are enough (lemma [bfs_terminates] below). *)
Definition isContiguous (keys : list string) : bool :=
  if (length keys <=? 1)%nat then true
  else match keys with
       | [] => true
       | start :: _ =>
           let set : gset string := list_to_set keys in
           match bfs (length keys) set [start] {[ start ]} with
           | Some seen => (size seen =? size set)%nat
           | None => false
           end
       end.

(** ** Room formation *)

(** [anyInRoom(keys)]: the first truthy [roomId] among the staged cells;
    every cell looked at goes through [ensureCell]. *)
Fixpoint anyInRoom (keys : list string) (d : store) : option string * store :=
  match keys with
  | [] => (None, d)
  | k :: ks =>
      let '(x, d1) := ensureCellAt k d in
      match truthyRoom (cell_roomId x) with
      | Some id => (Some id, d1)
      | None => anyInRoom ks d1
      end
  end.

(** [keys.slice().sort()]: the default comparison orders strings by code
    unit; a sorted list of strings is determined by its elements, so an
    insertion sort yields the same array. *)
Fixpoint insertKey (k : string) (l : list string) : list string :=
  match l with
  | [] => [k]
  | x :: l' => if String.leb k x then k :: l else x :: insertKey k l'
  end.

Definition sortKeys (l : list string) : list string :=
  fold_right insertKey [] l.

(** One round of the loops over [room.cells] in [createRoomFromStage] and
    [dissolveRoom]: [cell.roomId = v], then repaint the cell if it has a
    rect. *)
Definition groupCell (cfg : config) (v : roomref) (d : store) (k : string) : store :=
  let d1 := updateCellAt k (with_roomId v) d in
  let '(c, r) := parseKey k in
  match rectForKey cfg k with
  | Some _ => setVisual c r d1
  | None => d1
  end.

(** [cell.roomId = id;] for each member of the new room. *)
Definition assignRoom (cfg : config) (id : string) : store -> string -> store :=
  groupCell cfg (RoomId id).

(** [createRoomFromStage()] *)
Definition createRoomFromStage (cfg : config) (st : tracker) : tracker * signal :=
  let keys := staged st in
  match keys with
  | [] => (st, Silent)
  | _ :: _ =>
      if negb (isContiguous keys) then (st, AlertNotContiguous)
      else
        let '(existingRoomId, d1) := anyInRoom keys (data st) in
        match existingRoomId with
        | Some _ => (set_data st d1, AlertAlreadyGrouped)
        | None =>
            let id := "R" ++ string_of_Z (nextRoomId d1) in
            let rm := {| room_id := id;
                         room_name := "Room " ++ id;
                         room_kind := "room";
                         room_c := "#3c6270";
                         room_n := "";
                         room_icon := "";
                         room_cells := sortKeys keys |} in
            let d2 := {| cells := cells d1;
                         rooms := <[id := rm]> (rooms d1);
                         nextRoomId := nextRoomId d1 + 1 |} in
            let d3 := fold_left (assignRoom cfg id) (room_cells rm) d2 in
            let st1 := clearStage cfg (set_data st d3) in
            let st2 := match room_cells rm with
                       | firstK :: _ =>
                           match rectForKey cfg firstK with
                           | Some rect => selectCell firstK rect st1
                           | None => st1
                           end
                       | [] => st1
                       end in
            (refreshButtons (set_editTarget st2 TargetRoom), Silent)
        end
  end.

(** [cell.roomId = null;] for each member of the dissolved room. *)
Definition releaseCell (cfg : config) : store -> string -> store :=
  groupCell cfg RoomNull.

(** [dissolveRoom(roomId)] *)
Definition dissolveRoom (cfg : config) (roomId : string) (st : tracker) : tracker :=
  match roomById (RoomId roomId) (data st) with
  | None => st
  | Some rm =>
      let d1 := fold_left (releaseCell cfg) (room_cells rm) (data st) in
      let d2 := set_rooms d1 (delete roomId (rooms d1)) in
      refreshButtons (set_editTarget (set_data st d2) TargetCell)
  end.

(** The click listener of [dissolveRoomBtn]; [ok] is the answer given to
    [confirm]. *)
Definition onDissolveClick (cfg : config) (ok : bool) (st : tracker) : tracker :=
  let '(cur, st1) := getCurrentRoom st in
  match cur with
  | None => st1
  | Some (_, rm) => if ok then dissolveRoom cfg (room_id rm) st1 else st1
  end.

(** [deleteCurrentRoom()]; [ok] is the answer given to [confirm]. *)
Definition deleteCurrentRoom (cfg : config) (ok : bool) (st : tracker) : tracker :=
  let '(cur, st1) := getCurrentRoom st in
  match cur with
  | None => st1
  | Some (_, rm) => if ok then dissolveRoom cfg (room_id rm) st1 else st1
  end.

(** ** Panel bindings *)

(** A write to a field of the room object found under [id]. *)
Definition updateRoom (id : string) (f : room -> room) (rm : room) (st : tracker) : tracker :=
  set_data st (set_rooms (data st) (<[id := f rm]> (rooms (data st)))).

(** A write to a field of the record returned by [getCurrentCell()]. *)
Definition writeCurrentCell (k : string) (f : cell -> cell) (x : cell) (st : tracker) : tracker :=
  let '(c, r) := parseKey k in
  set_data st (set_cells (data st) (<[key c r := f x]> (cells (data st)))).

(** [applyColor(color)] *)
Definition applyColor (cfg : config) (color : string) (st : tracker) : tracker :=
  match selectedCellKey st, selectedRect st with
  | Some k, Some _ =>
      if negb (truthy k) then st else
      let '(x, st1) := getCurrentCell st in
      match editTarget st1 with
      | TargetRoom =>
          let '(cur, st2) := getCurrentRoom st1 in
          match cur with
          | None => st2
          | Some (id, rm) =>
              let st3 := updateRoom id (room_with_c color) rm st2 in
              set_data st3 (repaintKeys cfg (room_cells rm) (data st3))
          end
      | TargetCell =>
          match x with
          | Some x =>
              let st2 := writeCurrentCell k (with_c (Some color)) x st1 in
              let '(c, r) := parseKey k in
              set_data st2 (setVisual c r (data st2))
          | None => st1
          end
      end
  | _, _ => st
  end.

(** [applyIcon(icon)] *)
Definition applyIcon (icon : string) (st : tracker) : tracker :=
  match selectedCellKey st, selectedRect st with
  | Some k, Some _ =>
      if negb (truthy k) then st else
      let '(x, st1) := getCurrentCell st in
      let val := if truthy icon then icon else "" in
      match editTarget st1 with
      | TargetRoom =>
          let '(cur, st2) := getCurrentRoom st1 in
          match cur with
          | None => st2
          | Some (id, rm) => updateRoom id (room_with_icon val) rm st2
          end
      | TargetCell =>
          match x with
          | Some x => writeCurrentCell k (with_icon val) x st1
          | None => st1
          end
      end
  | _, _ => st
  end.

(** [applyNotes(notes)] *)
Definition applyNotes (notes : string) (st : tracker) : tracker :=
  match selectedCellKey st with
  | Some k =>
      if negb (truthy k) then st else
      let '(x, st1) := getCurrentCell st in
      match editTarget st1 with
      | TargetRoom =>
          let '(cur, st2) := getCurrentRoom st1 in
          match cur with
          | None => st2
          | Some (id, rm) => updateRoom id (room_with_n notes) rm st2
          end
      | TargetCell =>
          match x with
          | Some x => writeCurrentCell k (with_n notes) x st1
          | None => st1
          end
      end
  | None => st
  end.

(** [applyRoomName(name)]: [room.name = name || room.name]. *)
Definition applyRoomName (name : string) (st : tracker) : tracker :=
  let '(cur, st1) := getCurrentRoom st in
  match cur with
  | None => st1
  | Some (id, rm) =>
      updateRoom id (room_with_name (if truthy name then name else room_name rm)) rm st1
  end.

(** [applyRoomKind(kind)]: [room.kind = kind || "room"]. *)
Definition applyRoomKind (kind : string) (st : tracker) : tracker :=
  let '(cur, st1) := getCurrentRoom st in
  match cur with
  | None => st1
  | Some (id, rm) =>
      updateRoom id (room_with_kind (if truthy kind then kind else "room")) rm st1
  end.

(** [clearSelectedCell()] *)
Definition clearSelectedCell (st : tracker) : tracker * signal :=
  match selectedCellKey st, selectedRect st with
  | Some k, Some _ =>
      if negb (truthy k) then (st, Silent) else
      let '(x, st1) := getCurrentCell st in
      match x with
      | None => (st1, Silent)
      | Some x =>
          match truthyRoom (cell_roomId x) with
          | Some _ => (st1, AlertCellGrouped)
          | None =>
              let st2 := writeCurrentCell k
                           (fun y => with_n "" (with_icon "" (with_c None y))) x st1 in
              let '(c, r) := parseKey k in
              (set_data st2 (setVisual c r (data st2)), Silent)
          end
      end
  | _, _ => (st, Silent)
  end.

(** ** Export, import, wipe *)

(** The [data] member of a snapshot file as [doImport] reads it: each of
    [cells], [rooms] and [meta] is present with the shape the tracker
    writes, or counts as absent ([undefined], [null] or another falsy
    value). The text layer ([JSON.stringify] followed by [JSON.parse]) is
    not modelled: on these trees it gives back the tree. *)
Record snapshotData : Type := mkSnapshotData {
  snap_cells : option (gmap string cell);
  snap_rooms : option (gmap string room);
  snap_meta : option Z
}.

(** [{ cols: COLS, rows: ROWS, data }] *)
Record snapshot : Type := mkSnapshot {
  snap_cols : Z;
  snap_rows : Z;
  snap_data : option snapshotData
}.

(** The content of the chosen file: text that [JSON.parse] rejects, or the
    parsed value, where [None] stands for a value without a [data]
    member ([null], a number, a string, an array, ...). *)
Inductive fileContent : Type :=
  | NotJSON
  | Parsed (obj : option snapshot).

(** [doExport()]: the object handed to [JSON.stringify]. *)
Definition doExport (cfg : config) (st : tracker) : snapshot :=
  {| snap_cols := COLS cfg;
     snap_rows := ROWS cfg;
     snap_data := Some {| snap_cells := Some (cells (data st));
                          snap_rooms := Some (rooms (data st));
                          snap_meta := Some (nextRoomId (data st)) |} |}.

(** The tail shared by [doImport] and [doWipe] once [data] is replaced:
    [rebuildAll(); clearStage(); selectedCellKey = null; selectedRect = null;
     refreshButtons();] *)
Definition afterReplace (cfg : config) (st : tracker) : tracker :=
  let st1 := set_data st (rebuildAll cfg (data st)) in
  let st2 := clearStage cfg st1 in
  refreshButtons (set_selection st2 None None).

(** [doImport(file)] *)
Definition doImport (cfg : config) (file : fileContent) (st : tracker) : tracker * signal :=
  match file with
  | NotJSON => (st, Thrown)
  | Parsed obj =>
      match obj ≫= snap_data with
      | Some sd =>
          match snap_cells sd, snap_rooms sd with
          | Some cs, Some rs =>
              let d := {| cells := cs; rooms := rs;
                          nextRoomId := match snap_meta sd with
                                        | Some m => m
                                        | None => 1
                                        end |} in
              (afterReplace cfg (set_data st d), Silent)
          | _, _ => (st, AlertInvalidFile)
          end
      | None => (st, AlertInvalidFile)
      end
  end.

(** [doWipe()]; [ok] is the answer given to [confirm]. *)
Definition doWipe (cfg : config) (ok : bool) (st : tracker) : tracker :=
  if ok then afterReplace cfg (set_data st emptyStore) else st.

(** [loadState(state)] of the public API; [None] is a [state] that is
    [null] or [undefined]. *)
Definition loadState (cfg : config) (state : option snapshotData) (st : tracker) : tracker :=
  match state with
  | Some sd =>
      match snap_cells sd, snap_rooms sd with
      | Some cs, Some rs =>
          let d := {| cells := cs; rooms := rs;
                      nextRoomId := match snap_meta sd with
                                    | Some m => m
                                    | None => 1
                                    end |} in
          set_data st (rebuildAll cfg d)
      | _, _ => st
      end
  | None => st
  end.

(** The tracker when [createDungeonTracker] returns: [data] is what [load()]
    found in [localStorage], or the empty store, painted once by
    [buildSquareSvgGrid] (which calls [setVisual] on every cell it
    creates). *)
Definition createDungeonTracker (cfg : config) (loaded : option store) : tracker :=
  {| data := fold_left (fun acc p => setVisual (Num (fst p)) (Num (snd p)) acc)
                       (gridCoords cfg)
                       (match loaded with Some d => d | None => emptyStore end);
     editTarget := TargetCell;
     selectedCellKey := None;
     selectedRect := None;
     staged := [] |}.

Definition initTracker (cfg : config) : tracker := createDungeonTracker cfg None.

(** ** User actions *)

Inductive action : Type :=
  | Click (k : string)            (* plain click on the rect of [k] *)
  | ShiftClick (k : string)       (* stage or unstage [k] *)
  | CreateRoom
  | Dissolve (ok : bool)
  | Delete (ok : bool)
  | SetColor (v : string)
  | SetIcon (v : string)
  | SetNotes (v : string)
  | SetRoomName (v : string)
  | SetRoomKind (v : string)
  | ClearCell
  | Import (file : fileContent)
  | Wipe (ok : bool)
  | Escape
  | Leave (k : string)            (* the pointer leaves the rect of [k] *)
  | PickRoom (id : string)        (* click in the room list *)
  | LoadState (state : option snapshotData)
  | ClearStage.

(** The handler each action is wired to. A click reaches [selectCell] with
    the rect it was fired on, so only keys that have a rect can be
    clicked. Enter calls [createRoomFromStage] like the button; export and
    exit only read [data]. *)
Definition step (cfg : config) (a : action) (st : tracker) : tracker :=
  match a with
  | Click k =>
      match rectForKey cfg k with
      | Some rect => selectCell k rect st
      | None => st
      end
  | ShiftClick k => toggleStage cfg k st
  | CreateRoom => fst (createRoomFromStage cfg st)
  | Dissolve ok => onDissolveClick cfg ok st
  | Delete ok => deleteCurrentRoom cfg ok st
  | SetColor v => applyColor cfg v st
  | SetIcon v => applyIcon v st
  | SetNotes v => applyNotes v st
  | SetRoomName v => applyRoomName v st
  | SetRoomKind v => applyRoomKind v st
  | ClearCell => fst (clearSelectedCell st)
  | Import file => fst (doImport cfg file st)
  | Wipe ok => doWipe cfg ok st
  | Escape => onEscape cfg st
  | Leave k => onCellLeave cfg k st
  | PickRoom id => onRoomItemClick cfg id st
  | LoadState state => loadState cfg state st
  | ClearStage => clearStage cfg st
  end.

Definition run (cfg : config) (acts : list action) (st : tracker) : tracker :=
  fold_left (fun s a => step cfg a s) acts st.

Definition smallConfig : config :=
  {| COLS := 3; ROWS := 3; SIZE := 18; GAP := 2; PAD := 18 |}.

(** ** What is painted, public state, stage status, room list text *)

(** What [setVisual] writes to the rect of a cell: the fill and its
    opacity, the text of the icon and whether the icon is displayed. *)
Record visual : Type := mkVisual {
  fill : string;
  fillOpacity : string;
  iconText : string;
  iconShown : bool
}.

(** The paint of [setVisual(rect, c, r)]:
    [const color = (room?.c) || cell.c;] and
    [const icon = (room?.icon) || cell.icon || "";] for the record
    [ensureCell] returns and the room [roomById] finds for it. *)
Definition paint (c r : jsnum) (d : store) : visual :=
  let x := fst (ensureCell c r d) in
  let room := roomById (cell_roomId x) d in
  let color := match room with
               | Some rm => if truthy (room_c rm) then Some (room_c rm) else cell_c x
               | None => cell_c x
               end in
  let roomIcon := match room with Some rm => room_icon rm | None => "" end in
  let ownIcon := match cell_icon x with Some i => i | None => "" end in
  let icon := if truthy roomIcon then roomIcon
              else if truthy ownIcon then ownIcon else "" in
  match color with
  | Some v =>
      if truthy v
      then {| fill := v; fillOpacity := "0.90"; iconText := icon; iconShown := truthy icon |}
      else {| fill := "#ffffff"; fillOpacity := "0.05"; iconText := icon;
              iconShown := truthy icon |}
  | None => {| fill := "#ffffff"; fillOpacity := "0.05"; iconText := icon;
               iconShown := truthy icon |}
  end.

(** The paint of the cell of a key, as in
    [const [c, r] = k.split(",").map(Number); setVisual(rect, c, r);]. *)
Definition paintAt (k : string) (d : store) : visual :=
  let '(c, r) := parseKey k in paint c r d.

(** [getPublicState()]: [JSON.parse(JSON.stringify(data))], a copy of
    [data] as a state tree. *)
Definition getPublicState (st : tracker) : snapshotData :=
  {| snap_cells := Some (cells (data st));
     snap_rooms := Some (rooms (data st));
     snap_meta := Some (nextRoomId (data st)) |}.

(** [renderStageStatus()]: the value it gives to [createRoomBtn.disabled],
    [!(n && contiguous)]. *)
Definition renderStageStatus (st : tracker) : bool :=
  let n := length (staged st) in
  let contiguous := if (n =? 0)%nat then true else isContiguous (staged st) in
  negb (negb (n =? 0)%nat && contiguous).

(** The Enter branch of the [keydown] listener:
    [if (!createRoomBtn.disabled) createRoomFromStage();], where [disabled]
    is the flag of the button. *)
Definition onEnter (cfg : config) (disabled : bool) (st : tracker) : tracker * signal :=
  if disabled then (st, Silent) else createRoomFromStage cfg st.

(** The replacement [escapeHtml] makes for one character. *)
Definition escapeChar (ch : ascii) : string :=
  if Ascii.eqb ch "&"%char then "&amp;"
  else if Ascii.eqb ch "<"%char then "&lt;"
  else if Ascii.eqb ch ">"%char then "&gt;"
  else if Ascii.eqb ch "034"%char then "&quot;"
  else if Ascii.eqb ch "'"%char then "&#39;"
  else String ch "".

(** [escapeHtml(s)] on a string: every ampersand, angle bracket, double
    quote and apostrophe is replaced by its entity. The five characters
    are ASCII, so that replacing them byte by byte in the UTF-8 form of
    the text is replacing them in the text. *)
Fixpoint escapeHtml (s : string) : string :=
  match s with
  | "" => ""
  | String ch s' => escapeChar ch ++ escapeHtml s'
  end.

(** The [change] listener of [importFileEl]; [chosen] is
    [importFileEl.files?.[0]] and the result lists the texts passed to
    [alert], in order. When [JSON.parse] throws inside [doImport] the
    listener ends there, before [alert("Imported.")]. *)
Definition onImportFileChange (cfg : config) (chosen : option fileContent) (st : tracker)
  : tracker * list string :=
  match chosen with
  | None => (st, [])
  | Some file =>
      let '(st1, sg) := doImport cfg file st in
      match sg with
      | Thrown => (st1, [])
      | AlertInvalidFile => (st1, ["Invalid file."; "Imported."])
      | _ => (st1, ["Imported."])
      end
  end.

(** ** Grid geometry and viewport *)

Section Viewport.
Local Open Scope R_scope.

(** [Math.ceil] *)
Definition ceil (x : R) : R := IZR (- Int_part (- x)).

Record point : Type := mkPoint { pt_x : R; pt_y : R }.

Variable cfg : config.

Definition STEP : R := SIZE cfg + GAP cfg.

(** [topLeft(c, r)] *)
Definition topLeft (c r : R) : point :=
  {| pt_x := PAD cfg + c * STEP; pt_y := PAD cfg + r * STEP |}.

(** [center(c, r)] *)
Definition center (c r : R) : point :=
  let p := topLeft c r in
  {| pt_x := pt_x p + SIZE cfg / 2; pt_y := pt_y p + SIZE cfg / 2 |}.

(** [computeBounds()], the [w] and [h] of [grid]. *)
Definition grid_w : R :=
  ceil (PAD cfg * 2 + IZR (COLS cfg) * SIZE cfg + (IZR (COLS cfg) - 1) * GAP cfg).

Definition grid_h : R :=
  ceil (PAD cfg * 2 + IZR (ROWS cfg) * SIZE cfg + (IZR (ROWS cfg) - 1) * GAP cfg).

Definition vbMinW : R := grid_w.
Definition vbMinH : R := grid_h.
Definition maxZoom : R := 8.
Definition vbMaxW : R := grid_w / maxZoom.
Definition vbMaxH : R := grid_h / maxZoom.

(** [let view = { x, y, w, h }] *)
Record viewBox : Type := mkView { vb_x : R; vb_y : R; vb_w : R; vb_h : R }.

Definition initialView : viewBox :=
  {| vb_x := 0; vb_y := 0; vb_w := grid_w; vb_h := grid_h |}.

(** [function clamp(n, a, b) { return Math.max(a, Math.min(b, n)); }] *)
Definition clamp (n a b : R) : R := Rmax a (Rmin b n).

(** [clampView()] *)
Definition clampView (v : viewBox) : viewBox :=
  let w := clamp (vb_w v) vbMaxW vbMinW in
  let h := clamp (vb_h v) vbMaxH vbMinH in
  let x := clamp (vb_x v) 0 (grid_w - w) in
  let y := clamp (vb_y v) 0 (grid_h - h) in
  {| vb_x := x; vb_y := y; vb_w := w; vb_h := h |}.

(** [updateView()]: clamp, then write the [viewBox] attribute. *)
Definition updateView (v : viewBox) : viewBox := clampView v.

(** [svgEl.getBoundingClientRect()] at the time of an event. *)
Record clientRect : Type := mkClientRect {
  cr_left : R; cr_top : R; cr_width : R; cr_height : R
}.

(** [Math.hypot(dx, dy)] *)
Definition hypot (dx dy : R) : R := sqrt (dx * dx + dy * dy).

Definition dist (a b : point) : R := hypot (pt_x a - pt_x b) (pt_y a - pt_y b).

Definition mid (a b : point) : point :=
  {| pt_x := (pt_x a + pt_x b) / 2; pt_y := (pt_y a + pt_y b) / 2 |}.

(** [clientToSvg(clientX, clientY)] *)
Definition clientToSvg (v : viewBox) (rect : clientRect) (clientX clientY : R) : point :=
  let px := clientX - cr_left rect in
  let py := clientY - cr_top rect in
  {| pt_x := vb_x v + px * (vb_w v / Rmax 1 (cr_width rect));
     pt_y := vb_y v + py * (vb_h v / Rmax 1 (cr_height rect)) |}.

(** [gesture]: [null], a pan snapshot or a pinch snapshot. *)
Inductive gestureState : Type :=
  | Pan (startView : viewBox) (startPt : point)
  | Pinch (startView : viewBox) (startDist : R) (startMid startMidSvg : point).

(** The viewport's variables; [pointers] is the [Map] in insertion order. *)
Record viewport : Type := mkViewport {
  view : viewBox;
  pointers : list (Z * point);
  gesture : option gestureState;
  blockClicksUntil : R
}.

Record pointerEvent : Type := mkPointerEvent {
  isMouse : bool;
  pointerId : Z;
  clientX : R;
  clientY : R
}.

(** [pointers.set(id, p)] *)
Fixpoint pointers_set (id : Z) (p : point) (l : list (Z * point)) : list (Z * point) :=
  match l with
  | [] => [(id, p)]
  | (i, q) :: l' => if Z.eqb i id then (id, p) :: l' else (i, q) :: pointers_set id p l'
  end.

(** [pointers.has(id)] *)
Definition pointers_has (id : Z) (l : list (Z * point)) : bool :=
  existsb (fun e => Z.eqb (fst e) id) l.


Definition initialViewport : viewport :=
  {| view := initialView; pointers := []; gesture := None; blockClicksUntil := 0 |}.

(** [onPointerDown(e)] *)
Definition onPointerDown (e : pointerEvent) (rect : clientRect) (s : viewport) : viewport :=
  if isMouse e then s else
  let ps := pointers_set (pointerId e) {| pt_x := clientX e; pt_y := clientY e |} (pointers s) in
  let g :=
    match map snd ps with
    | [_] => Some (Pan (view s) {| pt_x := clientX e; pt_y := clientY e |})
    | [p0; p1] =>
        let m := mid p0 p1 in
        Some (Pinch (view s) (dist p0 p1) m (clientToSvg (view s) rect (pt_x m) (pt_y m)))
    | _ => gesture s
    end in
  {| view := view s; pointers := ps; gesture := g; blockClicksUntil := blockClicksUntil s |}.

(** [onPointerMove(e)]; [now] is [Date.now()]. The result is [None] in one
    case only: two pointers are down while [gesture] is a pan snapshot, so
    that [gesture.startDist] is [undefined] and the view is filled with
    [NaN], which is not a real number. *)
Definition onPointerMove (e : pointerEvent) (rect : clientRect) (now : R) (s : viewport)
  : option viewport :=
  if negb (pointers_has (pointerId e) (pointers s)) then Some s else
  let cur := {| pt_x := clientX e; pt_y := clientY e |} in
  let ps := pointers_set (pointerId e) cur (pointers s) in
  match gesture s with
  | None =>
      Some {| view := view s; pointers := ps; gesture := None;
              blockClicksUntil := blockClicksUntil s |}
  | Some g =>
      match map snd ps, g with
      | [_], Pan startView startPt =>
          let dxPx := pt_x cur - pt_x startPt in
          let dyPx := pt_y cur - pt_y startPt in
          let blocked := if Rlt_dec 6 (hypot dxPx dyPx) then now + 300
                         else blockClicksUntil s in
          let ux := vb_w (view s) / Rmax 1 (cr_width rect) in
          let uy := vb_h (view s) / Rmax 1 (cr_height rect) in
          let v := {| vb_x := vb_x startView - dxPx * ux;
                      vb_y := vb_y startView - dyPx * uy;
                      vb_w := vb_w (view s); vb_h := vb_h (view s) |} in
          Some {| view := updateView v; pointers := ps; gesture := Some g;
                  blockClicksUntil := blocked |}
      | [p0; p1], Pinch startView startDist startMid startMidSvg =>
          let m := mid p0 p1 in
          let d := dist p0 p1 in
          let scale := startDist / Rmax 1 d in
          let targetW := vb_w startView * scale in
          let targetH := vb_h startView * scale in
          let w := clamp targetW vbMaxW vbMinW in
          let h := clamp targetH vbMaxH vbMinH in
          let midPxX := pt_x m - cr_left rect in
          let midPxY := pt_y m - cr_top rect in
          let v := {| vb_x := pt_x startMidSvg - (midPxX / Rmax 1 (cr_width rect)) * w;
                      vb_y := pt_y startMidSvg - (midPxY / Rmax 1 (cr_height rect)) * h;
                      vb_w := w; vb_h := h |} in
          Some {| view := updateView v; pointers := ps; gesture := Some g;
                  blockClicksUntil := now + 400 |}
      | [_; _], Pan _ _ => None
      | _, _ =>
          Some {| view := view s; pointers := ps; gesture := Some g;
                  blockClicksUntil := blockClicksUntil s |}
      end
  end.


(** The bounds named by the viewport invariant. *)
Definition viewInBounds (v : viewBox) : Prop :=
  vbMaxW <= vb_w v <= vbMinW /\
  vbMaxH <= vb_h v <= vbMinH /\
  0 <= vb_x v <= grid_w - vb_w v /\
  0 <= vb_y v <= grid_h - vb_h v.

(** Two tracked pointers always come with a pinch snapshot. *)
Definition gestureMatches (s : viewport) : Prop :=
  (2 <= length (pointers s))%nat -> exists sv sd sm sms, gesture s = Some (Pinch sv sd sm sms).


End Viewport.

(** ** Clicks on cells *)

(** [onCellClick(c, r, rect)], the click listener of the rect of the cell
    [p]: [now] is [Date.now()], [shiftKey] is [window.event?.shiftKey] and
    [blockedUntil] is the current [blockClicksUntil]. Only the rects of
    the grid carry the listener. *)
Definition onCellClick (cfg : config) (now : R) (shiftKey : bool) (p : Z * Z)
    (blockedUntil : R) (st : tracker) : tracker :=
  if Rlt_dec now blockedUntil then st
  else
    let k := cellKey p in
    if shiftKey then toggleStage cfg k st
    else match rectForKey cfg k with
         | Some rect => selectCell k rect st
         | None => st
         end.

(** A touch at (100, 100) on a 500 by 500 surface, then a move to
    (60, 100). *)
Definition screen : clientRect :=
  {| cr_left := 0; cr_top := 0; cr_width := 500; cr_height := 500 |}.

Definition touchDown : pointerEvent :=
  {| isMouse := false; pointerId := 1; clientX := 100; clientY := 100 |}.

Definition touchMove : pointerEvent :=
  {| isMouse := false; pointerId := 1; clientX := 60; clientY := 100 |}.

Definition pannedViewport : viewport :=
  onPointerDown touchDown screen (initialViewport defaultConfig).

(** ** Notions used by the statements *)

(** 4-neighbour adjacency of coordinates: they differ by exactly one unit
    on exactly one axis. *)
Definition adjacent4 (a b : Z * Z) : Prop :=
  (snd a = snd b /\ Z.abs (fst a - fst b) = 1) \/
  (fst a = fst b /\ Z.abs (snd a - snd b) = 1).

(** A path of the graph induced on [S]. *)
Inductive connectedIn (S : gset (Z * Z)) : Z * Z -> Z * Z -> Prop :=
  | connected_here a : a ∈ S -> connectedIn S a a
  | connected_step a b c :
      a ∈ S -> b ∈ S -> adjacent4 a b -> connectedIn S b c -> connectedIn S a c.




(** The edges [isContiguous] follows, on keys. *)
Inductive reaches (set : gset string) : string -> string -> Prop :=
  | reaches_here a : a ∈ set -> reaches set a a
  | reaches_step a b c :
      a ∈ set -> b ∈ set -> b ∈ neighbours a -> reaches set b c -> reaches set a c.

(** The key [ensureCell] is called with after a key is split and read
    back: [k] itself when [k] is a cell key. *)
Definition normalKey (k : string) : string :=
  let '(c, r) := parseKey k in key c r.

(** The record [ensureCell] returns for the key [k]. *)
Definition readCell (d : store) (k : string) : cell :=
  repairCell (match cells d !! k with Some x => x | None => freshCell end).

(** The key [k] has a record in [d] that needs no repair. *)
Definition repaired (d : store) (k : string) : Prop :=
  exists x, cells d !! k = Some x /\ repairCell x = x.

(** The room id stored in the record of [k], if there is one. *)
Definition roomOf (d : store) (k : string) : option string :=
  match cells d !! k with
  | Some x => match cell_roomId x with RoomId id => Some id | _ => None end
  | None => None
  end.

(** Colour, notes and icon of the cell [k] as the tracker reads them: a
    missing record reads as the default one, a missing icon as [""]. *)
Definition attributesAt (d : store) (k : string) : option string * string * option string :=
  let x := readCell d k in (cell_c x, cell_n x, cell_icon x).

(** Two stores read the same: they differ only by records that
    [ensureCell] has created or repaired. *)
Definition sameReading (d d' : store) : Prop :=
  (forall k, readCell d' k = readCell d k) /\
  rooms d' = rooms d /\ nextRoomId d' = nextRoomId d.

(** Two stores group the cells in the same way. *)
Definition sameGrouping (d d' : store) : Prop :=
  (forall k, roomOf d' k = roomOf d k) /\
  rooms d' = rooms d /\ nextRoomId d' = nextRoomId d.

(** Every cell with a room id references an existing room that lists it. *)
Definition cellsReferenceRooms (d : store) : Prop :=
  forall k x id,
    cells d !! k = Some x -> cell_roomId x = RoomId id ->
    exists rm, rooms d !! id = Some rm /\ k ∈ room_cells rm.



(** A well-formed store: cells reference rooms that list them, the members
    of a room are cell keys whose records point back to it, no room is
    filed under the empty id, and the ids the counter will hand out are
    free. *)
Record wellFormed (d : store) : Prop := mkWellFormed {
  wf_refs : cellsReferenceRooms d;
  wf_members : forall id rm k,
      rooms d !! id = Some rm -> k ∈ room_cells rm ->
      (exists p, k = cellKey p) /\
      exists x, cells d !! k = Some x /\ cell_roomId x = RoomId id;
  wf_ids : rooms d !! "" = None;
  wf_fresh : forall n, nextRoomId d <= n -> rooms d !! ("R" ++ string_of_Z n) = None
}.

(** A well-formed tracker also stages only keys that have a rect. *)
Definition wellFormedTracker (cfg : config) (st : tracker) : Prop :=
  wellFormed (data st) /\ forall k, k ∈ staged st -> k ∈ gridKeys cfg.

(** The store [loadState] installs for a state it accepts. *)
Definition loadedStore (state : option snapshotData) : option store :=
  sd ← state;
  cs ← snap_cells sd;
  rs ← snap_rooms sd;
  Some {| cells := cs; rooms := rs;
          nextRoomId := match snap_meta sd with Some m => m | None => 1 end |}.

(** The store [doImport] installs for a file it accepts. *)
Definition importedStore (file : fileContent) : option store :=
  match file with
  | NotJSON => None
  | Parsed obj => loadedStore (obj ≫= snap_data)
  end.

(** An action is admissible when the store it brings in from outside, if
    any, is well formed. *)
Definition admissible (a : action) : Prop :=
  (forall file d, a = Import file -> importedStore file = Some d -> wellFormed d) /\
  (forall state d, a = LoadState state -> loadedStore state = Some d -> wellFormed d).

(** The file lacks one of the two required mappings. *)
Definition lacksMapping (obj : option snapshot) : Prop :=
  match obj ≫= snap_data with
  | Some sd => snap_cells sd = None \/ snap_rooms sd = None
  | None => True
  end.

(** Every cell of the grid has a record, already repaired: the state of
    [data.cells] once the grid has been painted. *)
Definition painted (cfg : config) (d : store) : Prop :=
  forall k, k ∈ gridKeys cfg ->
    exists x, cells d !! k = Some x /\ repairCell x = x.

(** [createRoomFromStage] did not create a room. *)
Definition creationFailed (st : tracker) (sg : signal) : Prop :=
  staged st = [] \/ sg = AlertNotContiguous \/ sg = AlertAlreadyGrouped.

(** The configuration is valid: at least one column and one row, and
    non-negative cell size, gap and padding. *)
Definition validConfig (cfg : config) : Prop :=
  1 <= COLS cfg /\ 1 <= ROWS cfg /\
  (0 <= SIZE cfg)%R /\ (0 <= GAP cfg)%R /\ (0 <= PAD cfg)%R.

(** The state the handlers keep the tracker in once the grid is built:
    every grid cell has a repaired record, the stage is a set of grid
    keys, and the selected key and rect name the same grid cell. *)
Definition steady (cfg : config) (st : tracker) : Prop :=
  painted cfg (data st) /\
  NoDup (staged st) /\
  (forall k, k ∈ staged st -> k ∈ gridKeys cfg) /\
  selectedRect st = selectedCellKey st /\
  (forall k, selectedCellKey st = Some k -> k ∈ gridKeys cfg).

(** ** Auxiliary notions of the proofs *)

(** No character of [s] is a comma. *)
Fixpoint commaFree (s : string) : Prop :=
  match s with
  | "" => True
  | String a s' => a <> ","%char /\ commaFree s'
  end.

(** The loop invariant of the traversal from [start]. *)
Definition bfsInvariant (set : gset string) (start : string)
    (q : list string) (seen : gset string) : Prop :=
  seen ⊆ set /\
  (forall x, x ∈ q -> x ∈ seen) /\
  (forall x, x ∈ seen -> reaches set start x) /\
  (forall x, x ∈ seen -> x ∉ q ->
     forall n, n ∈ neighbours x -> n ∈ set -> n ∈ seen).

(** What [isContiguous] decides, on keys: every key is reached from the
    first one. *)
Definition allReached (keys : list string) : Prop :=
  match keys with
  | [] => True
  | start :: _ => forall x, x ∈ keys -> reaches (list_to_set keys) start x
  end.

(** The set of the coordinates of a list, and the set of their keys. *)
Definition coordSet (coords : list (Z * Z)) : gset (Z * Z) := list_to_set coords.

Definition keySet (coords : list (Z * Z)) : gset string := list_to_set (map cellKey coords).

(** Effect of the selection helpers on the tracker: the store reads the
    same and nothing else changes. *)
Definition sameTracker (st st' : tracker) : Prop :=
  sameReading (data st) (data st') /\
  editTarget st' = editTarget st /\
  selectedCellKey st' = selectedCellKey st /\
  selectedRect st' = selectedRect st /\
  staged st' = staged st.

(** Every panel binding keeps the tracker well formed. *)
Definition keepsWellFormed (cfg : config) (f : tracker -> tracker) : Prop :=
  forall st, wellFormedTracker cfg st -> wellFormedTracker cfg (f st).

(** The store after [getCurrentCell()]. *)
Definition touched (st : tracker) : store :=
  match selectedCellKey st with
  | Some k => if truthy k then snd (ensureCellAt k (data st)) else data st
  | None => data st
  end.


(** Every record of [d] that needs no repair is still there, and still
    needs none, in [d']. *)
Definition keepsRecords (d d' : store) : Prop :=
  forall k, repaired d k -> repaired d' k.

(** The tracker of a 3 by 3 grid after staging the cell (0,0) and creating
    a room from it: the cell is selected and the edit target is the room. *)
Definition roomEditState : tracker :=
  run smallConfig [ShiftClick "0,0"; CreateRoom] (initTracker smallConfig).

(** The same tracker after Escape: the cell is still selected and still
    grouped, the edit target is the cell. *)
Definition cellEditState : tracker :=
  run smallConfig [ShiftClick "0,0"; CreateRoom; Escape] (initTracker smallConfig).

Ltac painted_by_computation :=
  let k := fresh "k" in
  let Hk := fresh "Hk" in
  intros k Hk; vm_compute in Hk;
  repeat (apply elem_of_cons in Hk as [->|Hk];
          [eexists; split; [vm_compute; reflexivity|reflexivity]|]);
  by apply elem_of_nil in Hk.

Definition originCell : cell :=
  {| cell_c := None; cell_n := ""; cell_icon := Some ""; cell_roomId := RoomId "R1" |}.

Definition originRoom : room :=
  {| room_id := "R1"; room_name := "Room R1"; room_kind := "room"; room_c := "#3c6270";
     room_n := ""; room_icon := ""; room_cells := ["0,0"] |}.





(** A file whose [data] has cells but no rooms. *)
Definition roomlessFile : option snapshot :=
  Some {| snap_cols := 3; snap_rows := 3;
          snap_data := Some {| snap_cells := Some ∅; snap_rooms := None;
                               snap_meta := Some 1 |} |}.


(** The selection is the same in both trackers. *)
Definition sameSelection (st st' : tracker) : Prop :=
  selectedCellKey st' = selectedCellKey st /\ selectedRect st' = selectedRect st.

(** A painted 3 by 3 grid with the cells (0,0) and (1,0) staged. *)
Definition pairStage : tracker :=
  run smallConfig [ShiftClick "0,0"; ShiftClick "1,0"] (initTracker smallConfig).



(** * Checks on small inputs *)

Example key_3_7 : key (Num 3) (Num 7) = "3,7".
Proof. reflexivity. Qed.

Example parseKey_12_0 : parseKey "12,0" = (Num 12, Num 0).
Proof. reflexivity. Qed.

Example parseKey_junk : parseKey "x" = (NaN, Undef).
Proof. reflexivity. Qed.

Example isContiguous_L : isContiguous ["0,0"; "1,0"; "0,1"] = true.
Proof. vm_compute. reflexivity. Qed.

Example isContiguous_diag : isContiguous ["0,0"; "1,1"] = false.
Proof. vm_compute. reflexivity. Qed.

Example scenario_L_room :
  let st := run smallConfig [ShiftClick "0,0"; ShiftClick "1,0"; ShiftClick "0,1"; CreateRoom]
                (initTracker smallConfig) in
  option_map room_cells (rooms (data st) !! "R1") = Some ["0,0"; "0,1"; "1,0"]
  /\ nextRoomId (data st) = 2
  /\ option_map cell_roomId (cells (data st) !! "0,1") = Some (RoomId "R1")
  /\ staged st = [].
Proof. vm_compute. repeat split; reflexivity. Qed.

Example scenario_singleton_then_grouped :
  let st := run smallConfig
                [ShiftClick "0,0"; ShiftClick "1,0"; ShiftClick "0,1"; CreateRoom;
                 ShiftClick "2,2"; CreateRoom]
                (initTracker smallConfig) in
  option_map room_cells (rooms (data st) !! "R2") = Some ["2,2"]
  /\ snd (createRoomFromStage smallConfig
            (run smallConfig [ShiftClick "0,0"; ShiftClick "0,1"] st))
     = AlertAlreadyGrouped.
Proof. vm_compute. split; reflexivity. Qed.

(** * Keys *)

Lemma commaFree_uint d : commaFree (NilEmpty.string_of_uint d).
Proof. induction d; simpl; auto; split; auto; discriminate. Qed.

Lemma commaFree_string_of_Z z : commaFree (string_of_Z z).
Proof.
  unfold string_of_Z, NilZero.string_of_int, NilZero.string_of_uint.
  destruct (Z.to_int z) as [d|d].
  - destruct d; try apply (commaFree_uint (Decimal.D0 _)); simpl; repeat split;
      try discriminate; apply commaFree_uint.
  - split; [discriminate|].
    destruct d; simpl; repeat split; try discriminate; apply commaFree_uint.
Qed.

Lemma to_int_proper z :
  Z.to_int z <> Decimal.Pos Decimal.Nil /\ Z.to_int z <> Decimal.Neg Decimal.Nil.
Proof.
  destruct z; simpl; split; try discriminate; intros [= H];
    apply (Unsigned.to_uint_nonnil _ H).
Qed.

Lemma int_of_string_of_Z z : NilZero.int_of_string (string_of_Z z) = Some (Z.to_int z).
Proof. destruct (to_int_proper z). unfold string_of_Z. now apply NilZero.isi. Qed.

Lemma Number_string_of_Z z : Number (string_of_Z z) = Num z.
Proof.
  pose proof (int_of_string_of_Z z) as H. unfold Number.
  destruct (string_of_Z z) eqn:E; [discriminate|].
  rewrite H. now rewrite DecimalZ.of_to.
Qed.

Lemma string_of_Z_inj a b : string_of_Z a = string_of_Z b -> a = b.
Proof.
  intros H. apply (f_equal Number) in H. rewrite !Number_string_of_Z in H. congruence.
Qed.

Lemma split_comma_free s : commaFree s -> split_comma s = [s].
Proof.
  induction s as [|a s IH]; simpl; [reflexivity|]. intros [Ha Hs].
  destruct (Ascii.eqb_spec a ","); [contradiction|]. now rewrite IH.
Qed.

Lemma split_comma_app s1 s2 :
  commaFree s1 -> split_comma (s1 ++ "," ++ s2) = s1 :: split_comma s2.
Proof.
  induction s1 as [|a s IH]; simpl; [reflexivity|]. intros [Ha Hs].
  destruct (Ascii.eqb_spec a ","); [contradiction|]. now rewrite IH.
Qed.

Lemma parseKey_cellKey p : parseKey (cellKey p) = (Num (fst p), Num (snd p)).
Proof.
  unfold parseKey, cellKey, key. simpl toString.
  rewrite split_comma_app by apply commaFree_string_of_Z.
  rewrite split_comma_free by apply commaFree_string_of_Z.
  simpl. now rewrite !Number_string_of_Z.
Qed.

Lemma cellKey_inj p q : cellKey p = cellKey q -> p = q.
Proof.
  intros H. apply (f_equal parseKey) in H. rewrite !parseKey_cellKey in H.
  destruct p, q; simpl in *; congruence.
Qed.

Lemma key_parse_cellKey p :
  (let '(c, r) := parseKey (cellKey p) in key c r) = cellKey p.
Proof. rewrite parseKey_cellKey. reflexivity. Qed.

Lemma cellKey_truthy p : truthy (cellKey p) = true.
Proof.
  unfold cellKey, key. simpl toString.
  destruct (string_of_Z (fst p)); reflexivity.
Qed.

(** * Cell access *)

Lemma store_eta d : {| cells := cells d; rooms := rooms d; nextRoomId := nextRoomId d |} = d.
Proof. now destruct d. Qed.

Lemma tracker_eta st :
  {| data := data st; editTarget := editTarget st; selectedCellKey := selectedCellKey st;
     selectedRect := selectedRect st; staged := staged st |} = st.
Proof. now destruct st. Qed.

Lemma set_data_id st : set_data st (data st) = st.
Proof. now destruct st. Qed.

Lemma repairCell_idem x : repairCell (repairCell x) = repairCell x.
Proof. destruct x as [c n [i|] [| |id]]; reflexivity. Qed.

Lemma repairCell_roomId x id :
  cell_roomId (repairCell x) = RoomId id <-> cell_roomId x = RoomId id.
Proof. destruct x as [c n i [| |id']]; simpl; split; congruence. Qed.

Lemma repairCell_truthyRoom x :
  truthyRoom (cell_roomId (repairCell x)) = truthyRoom (cell_roomId x).
Proof. destruct x as [c n i [| |id']]; reflexivity. Qed.

Lemma ensureCell_fst c r d : fst (ensureCell c r d) = readCell d (key c r).
Proof. reflexivity. Qed.

Lemma ensureCell_cells c r d :
  cells (snd (ensureCell c r d)) = <[key c r := readCell d (key c r)]> (cells d).
Proof. reflexivity. Qed.

Lemma ensureCell_rooms c r d : rooms (snd (ensureCell c r d)) = rooms d.
Proof. reflexivity. Qed.

Lemma ensureCell_next c r d : nextRoomId (snd (ensureCell c r d)) = nextRoomId d.
Proof. reflexivity. Qed.

Lemma ensureCell_unchanged c r d x :
  cells d !! key c r = Some x -> repairCell x = x -> ensureCell c r d = (x, d).
Proof.
  intros Hx Hr. unfold ensureCell. rewrite Hx, Hr.
  rewrite insert_id by done. unfold set_cells. now rewrite store_eta.
Qed.

Lemma ensureCellAt_cellKey p d :
  ensureCellAt (cellKey p) d = ensureCell (Num (fst p)) (Num (snd p)) d.
Proof. unfold ensureCellAt. now rewrite parseKey_cellKey. Qed.

Lemma gridKeys_cellKey cfg k :
  k ∈ gridKeys cfg -> exists p, k = cellKey p /\ p ∈ gridCoords cfg.
Proof.
  unfold gridKeys. intros H. apply list_elem_of_fmap in H as (p & -> & Hp). eauto.
Qed.

Lemma rectForKey_Some cfg k rect : rectForKey cfg k = Some rect -> rect = k /\ k ∈ gridKeys cfg.
Proof. unfold rectForKey. case_bool_decide; intros [= <-]; auto. Qed.

Lemma rectForKey_grid cfg k : k ∈ gridKeys cfg -> rectForKey cfg k = Some k.
Proof. intros H. unfold rectForKey. now rewrite bool_decide_eq_true_2. Qed.

Lemma ensureCellAt_painted cfg d k :
  painted cfg d -> k ∈ gridKeys cfg ->
  exists x, cells d !! k = Some x /\ repairCell x = x /\ ensureCellAt k d = (x, d).
Proof.
  intros Hp Hk. destruct (Hp k Hk) as (x & Hx & Hr).
  destruct (gridKeys_cellKey _ _ Hk) as (p & -> & _).
  exists x. repeat split; auto. rewrite ensureCellAt_cellKey.
  now apply ensureCell_unchanged.
Qed.

Lemma repaintKeys_painted cfg keys d : painted cfg d -> repaintKeys cfg keys d = d.
Proof.
  intros Hp. unfold repaintKeys. induction keys as [|k ks IH]; simpl; [done|].
  destruct (parseKey k) as [c r] eqn:Ek.
  destruct (rectForKey cfg k) eqn:Er; [|exact IH].
  apply rectForKey_Some in Er as [_ Hk].
  destruct (ensureCellAt_painted _ _ _ Hp Hk) as (x & _ & _ & He).
  unfold ensureCellAt in He. rewrite Ek in He. unfold setVisual. rewrite He. exact IH.
Qed.

Lemma rebuildAll_unchanged cfg d : painted cfg d -> rebuildAll cfg d = d.
Proof.
  intros Hp. unfold rebuildAll. induction (gridCoords cfg) as [|p ps IH]; simpl; [done|].
  destruct (rectForKey cfg (cellKey p)) eqn:Er; [|exact IH].
  apply rectForKey_Some in Er as [_ Hk].
  destruct (ensureCellAt_painted _ _ _ Hp Hk) as (x & _ & _ & He).
  rewrite ensureCellAt_cellKey in He. unfold setVisual. rewrite He. exact IH.
Qed.

Lemma ensureCell_repaired c r d k :
  k = key c r \/ repaired d k -> repaired (snd (ensureCell c r d)) k.
Proof.
  intros H. unfold repaired. rewrite ensureCell_cells.
  destruct (decide (k = key c r)) as [->|Hne].
  - rewrite lookup_insert_eq. eexists; split; [done|]. apply repairCell_idem.
  - rewrite lookup_insert_ne by done. destruct H; [contradiction|done].
Qed.

Lemma paint_fold_repaired (l : list (Z * Z)) d k :
  (exists p, p ∈ l /\ k = cellKey p) \/ repaired d k ->
  repaired (fold_left (fun acc p => setVisual (Num (fst p)) (Num (snd p)) acc) l d) k.
Proof.
  revert d. induction l as [|p ps IH]; intros d H; simpl.
  - destruct H as [(p & Hp & _)|H]; [by apply elem_of_nil in Hp|done].
  - apply IH. destruct H as [(q & Hq & ->)|H].
    + apply elem_of_cons in Hq as [->|Hq]; [|left; eauto].
      right. apply ensureCell_repaired. now left.
    + right. apply ensureCell_repaired. now right.
Qed.

Lemma rebuildAll_eq_paint cfg d :
  rebuildAll cfg d =
  fold_left (fun acc p => setVisual (Num (fst p)) (Num (snd p)) acc) (gridCoords cfg) d.
Proof.
  unfold rebuildAll.
  assert (H : forall p, p ∈ gridCoords cfg -> rectForKey cfg (cellKey p) = Some (cellKey p)).
  { intros p Hp. apply rectForKey_grid. unfold gridKeys. now apply list_elem_of_fmap_2. }
  revert d H. induction (gridCoords cfg) as [|p ps IH]; intros d H; simpl; [done|].
  rewrite H by apply list_elem_of_here. apply IH. intros q Hq. apply H.
  now apply list_elem_of_further.
Qed.

Lemma rebuildAll_painted cfg d : painted cfg (rebuildAll cfg d).
Proof.
  intros k Hk. rewrite rebuildAll_eq_paint.
  destruct (gridKeys_cellKey _ _ Hk) as (p & -> & Hp).
  apply paint_fold_repaired. left. eauto.
Qed.

Lemma createDungeonTracker_painted cfg loaded :
  painted cfg (data (createDungeonTracker cfg loaded)).
Proof.
  intros k Hk. destruct (gridKeys_cellKey _ _ Hk) as (p & -> & Hp).
  apply paint_fold_repaired. left. eauto.
Qed.

(** * Breadth-first traversal *)

Section Traversal.
Variable set : gset string.

Lemma visit_spec seen q n seen' q' :
  visit set (seen, q) n = (seen', q') ->
  (n ∈ set -> n ∈ seen') /\
  seen ⊆ seen' /\
  (forall x, x ∈ seen' -> x ∈ seen \/ (x = n /\ n ∈ set)) /\
  (forall x, x ∈ q -> x ∈ q') /\
  (forall x, x ∈ q' -> x ∈ q \/ x ∈ seen') /\
  (forall x, x ∈ seen' -> x ∉ seen -> x ∈ q') /\
  (length q' + size (set ∖ seen') = length q + size (set ∖ seen))%nat.
Proof.
  unfold visit.
  destruct (decide (n ∈ set)) as [Hs|Hs];
    [rewrite (bool_decide_eq_true_2 _ Hs)|rewrite (bool_decide_eq_false_2 _ Hs)];
    cbn [negb orb].
  - destruct (decide (n ∈ seen)) as [Hn|Hn];
      [rewrite (bool_decide_eq_true_2 _ Hn)|rewrite (bool_decide_eq_false_2 _ Hn)];
      intros [= <- <-].
    + repeat split; auto; set_solver.
    + repeat split.
      * set_solver.
      * set_solver.
      * set_solver.
      * intros x Hx. apply elem_of_app. now left.
      * intros x Hx. apply elem_of_app in Hx as [Hx|Hx]; [now left|].
        apply list_elem_of_singleton in Hx as ->. right. set_solver.
      * intros x Hx Hx'. apply elem_of_app. right. set_solver.
      * assert (E : set ∖ seen = {[n]} ∪ set ∖ ({[n]} ∪ seen)).
        { apply set_eq. intros x. destruct (decide (x = n)); set_solver. }
        rewrite E, (size_union {[n]} (set ∖ ({[n]} ∪ seen))), size_singleton, length_app
          by set_solver.
        cbn [length]. lia.
  - intros [= <- <-]. repeat split; auto; set_solver.
Qed.

Lemma visit_fold_spec ns : forall seen q seen' q',
  fold_left (visit set) ns (seen, q) = (seen', q') ->
  (forall n, n ∈ ns -> n ∈ set -> n ∈ seen') /\
  seen ⊆ seen' /\
  (forall x, x ∈ seen' -> x ∈ seen \/ (x ∈ ns /\ x ∈ set)) /\
  (forall x, x ∈ q -> x ∈ q') /\
  (forall x, x ∈ q' -> x ∈ q \/ x ∈ seen') /\
  (forall x, x ∈ seen' -> x ∉ seen -> x ∈ q') /\
  (length q' + size (set ∖ seen') = length q + size (set ∖ seen))%nat.
Proof.
  induction ns as [|n ns IH]; intros seen q seen' q' H; cbn [fold_left] in H.
  - injection H as <- <-. repeat split; auto; set_solver.
  - destruct (visit set (seen, q) n) as [seen1 q1] eqn:E.
    apply visit_spec in E as (V1 & V2 & V3 & V4 & V5 & V6 & V7).
    apply IH in H as (F1 & F2 & F3 & F4 & F5 & F6 & F7).
    repeat split.
    + intros m Hm Hs. apply elem_of_cons in Hm as [->|Hm]; [apply F2, V1, Hs|now apply F1].
    + set_solver.
    + intros x Hx. destruct (F3 x Hx) as [Hx1|[Hx1 Hx2]].
      * destruct (V3 x Hx1) as [?|[-> ?]]; [now left|right; split; [left|done]].
      * right. split; [now right|done].
    + auto.
    + intros x Hx. destruct (F5 x Hx) as [Hx1|Hx1]; [|now right].
      destruct (V5 x Hx1) as [?|?]; [now left|right; set_solver].
    + intros x Hx Hn. destruct (decide (x ∈ seen1)); [apply F4, V6; auto|apply F6; auto].
    + lia.
Qed.

Lemma bfs_terminates fuel : forall q seen,
  (length q + size (set ∖ seen) <= fuel)%nat -> exists r, bfs fuel set q seen = Some r.
Proof.
  induction fuel as [|fuel IH]; intros [|cur q] seen H; simpl in *; eauto; try lia.
  destruct (fold_left (visit set) (neighbours cur) (seen, q)) as [seen' q'] eqn:E.
  apply visit_fold_spec in E as (_ & _ & _ & _ & _ & _ & E). apply IH. lia.
Qed.

Lemma reaches_snoc a b c :
  reaches set a b -> c ∈ set -> c ∈ neighbours b -> reaches set a c.
Proof.
  intros H Hc. induction H as [a Ha|a b b' Ha Hb Hn Hr IH]; intros Hbc.
  - apply (reaches_step set a c c); auto. now apply reaches_here.
  - apply (reaches_step set a b c); auto.
Qed.

Lemma reaches_source a b : reaches set a b -> a ∈ set.
Proof. now destruct 1. Qed.

Lemma reaches_target a b : reaches set a b -> b ∈ set.
Proof. induction 1; auto. Qed.

Variable start : string.

Lemma bfs_invariant fuel : forall q seen r,
  bfs fuel set q seen = Some r -> bfsInvariant set start q seen ->
  seen ⊆ r /\ bfsInvariant set start [] r.
Proof.
  induction fuel as [|fuel IH]; intros [|cur q] seen r H Inv; simpl in H;
    try discriminate; try (injection H as <-; split; [done|exact Inv]).
  destruct (fold_left (visit set) (neighbours cur) (seen, q)) as [seen' q'] eqn:E.
  apply visit_fold_spec in E as (F1 & F2 & F3 & F4 & F5 & F6 & _).
  destruct Inv as (I1 & I2 & I3 & I4).
  apply IH in H as [H1 H2]; [split; [set_solver|exact H2]|].
  repeat split.
  - intros x Hx. destruct (F3 x Hx) as [?|[_ ?]]; auto.
  - intros x Hx. destruct (F5 x Hx) as [Hq|?]; [|done]. apply F2, I2. now right.
  - intros x Hx. destruct (F3 x Hx) as [?|[Hx1 Hx2]]; [auto|].
    eapply reaches_snoc; eauto. apply I3, I2. now left.
  - intros x Hx Hq n Hn Hs.
    destruct (decide (x ∈ seen)) as [Hx'|Hx']; [|exfalso; apply Hq, F6; auto].
    destruct (decide (x = cur)) as [->|Hc]; [now apply F1|].
    apply F2. apply (I4 x Hx'); auto.
    intros Hin. apply elem_of_cons in Hin as [?|Hin]; [done|]. apply Hq, F4, Hin.
Qed.
End Traversal.

Lemma bfs_from_start (set : gset string) (start : string) (fuel : nat) :
  start ∈ set -> (size set <= fuel)%nat ->
  exists r, bfs fuel set [start] {[ start ]} = Some r /\
            forall x, x ∈ r <-> reaches set start x.
Proof.
  intros Hs Hf.
  destruct (bfs_terminates set fuel [start] {[start]}) as [r Hr].
  { cbn [length].
    assert (E : set = {[start]} ∪ set ∖ {[start]}).
    { apply set_eq. intros x. destruct (decide (x = start)); set_solver. }
    rewrite E in Hf. rewrite (size_union {[start]} (set ∖ {[start]})) in Hf by set_solver.
    rewrite size_singleton in Hf. lia. }
  exists r. split; [exact Hr|].
  apply (bfs_invariant set start) in Hr as (Hsub & I1 & _ & I3 & I4).
  - intros x. split; [apply I3|].
    assert (G : forall a b, reaches set a b -> a ∈ r -> b ∈ r).
    { induction 1 as [|a b c Ha Hb Hn _ IH]; intros Hr; [done|].
      apply IH. apply (I4 a Hr); auto. apply not_elem_of_nil. }
    intros Hx. apply (G start x Hx). set_solver.
  - repeat split.
    + set_solver.
    + intros x Hx. apply list_elem_of_singleton in Hx. set_solver.
    + intros x Hx. apply elem_of_singleton in Hx as ->. now apply reaches_here.
    + intros x Hx Hq. apply elem_of_singleton in Hx as ->.
      exfalso. apply Hq. apply list_elem_of_here.
Qed.

Lemma size_list_to_set_le (l : list string) :
  (size (list_to_set l : gset string) <= length l)%nat.
Proof.
  induction l as [|x l IH]; cbn [list_to_set length].
  - rewrite size_empty. lia.
  - rewrite size_union_alt, size_singleton.
    pose proof (subseteq_size (list_to_set l ∖ {[x]}) (list_to_set l : gset string)) as H.
    assert (list_to_set l ∖ {[x]} ⊆ (list_to_set l : gset string)) by set_solver.
    specialize (H ltac:(assumption)). lia.
Qed.

Lemma isContiguous_reaches keys :
  (exists r, match keys with
             | [] => True
             | start :: _ =>
                 bfs (length keys) (list_to_set keys) [start] {[ start ]} = Some r
             end) /\
  (isContiguous keys = true <-> allReached keys).
Proof.
  destruct keys as [|start rest]; [split; [exists ∅|]; done|].
  set (keys := start :: rest). set (S := list_to_set keys : gset string).
  assert (Hs : start ∈ S) by (apply elem_of_list_to_set, list_elem_of_here).
  destruct (bfs_from_start S start (length keys) Hs (size_list_to_set_le keys))
    as (r & Hr & Hspec).
  split; [exists r; exact Hr|].
  unfold isContiguous, allReached. fold keys. fold S.
  destruct rest as [|k2 rest]; cbn [length Nat.leb].
  - split; [|done]. intros _ x Hx. apply list_elem_of_singleton in Hx as ->.
    now apply reaches_here.
  - change (match bfs (length keys) S [start] {[start]} with
            | Some seen => (size seen =? size S)%nat
            | None => false
            end = true <-> (forall x, x ∈ keys -> reaches S start x)).
    rewrite Hr. rewrite Nat.eqb_eq.
    assert (Hsub : r ⊆ S).
    { intros x Hx. apply Hspec in Hx. eapply reaches_target; eauto. }
    split.
    + intros Hsz x Hx. apply Hspec.
      assert (r = S) as -> by (apply set_subseteq_size_eq; [done|lia]).
      now apply elem_of_list_to_set.
    + intros Hall. f_equal. apply set_eq. intros x. split; [apply Hsub|].
      intros Hx. apply Hspec, Hall. now apply elem_of_list_to_set in Hx.
Qed.

(** * From keys to coordinates *)

Lemma neighbours_cellKey c r :
  neighbours (cellKey (c, r)) =
  [cellKey (c + 1, r); cellKey (c - 1, r); cellKey (c, r + 1); cellKey (c, r - 1)].
Proof. unfold neighbours. rewrite parseKey_cellKey. reflexivity. Qed.

Lemma neighbours_adjacent a k :
  k ∈ neighbours (cellKey a) <-> exists b, k = cellKey b /\ adjacent4 a b.
Proof.
  destruct a as [c r]. rewrite neighbours_cellKey. unfold adjacent4.
  rewrite !elem_of_cons, elem_of_nil. split.
  - intros [->|[->|[->|[->|[]]]]]; eexists; (split; [reflexivity|]); simpl; lia.
  - intros ([c' r'] & -> & H). simpl in H.
    assert ((c' = c + 1 /\ r' = r) \/ (c' = c - 1 /\ r' = r) \/
            (c' = c /\ r' = r + 1) \/ (c' = c /\ r' = r - 1)) as E by lia.
    destruct E as [[-> ->]|[[-> ->]|[[-> ->]|[-> ->]]]]; auto.
Qed.

Lemma adjacent4_sym a b : adjacent4 a b -> adjacent4 b a.
Proof. unfold adjacent4. lia. Qed.

Section Coordinates.
Variable coords : list (Z * Z).

Lemma keys_member a : cellKey a ∈ keySet coords <-> a ∈ coordSet coords.
Proof.
  unfold keySet, coordSet. rewrite !elem_of_list_to_set. split.
  - intros H. apply list_elem_of_fmap in H as (b & E & Hb). apply cellKey_inj in E. now subst.
  - intros H. now apply list_elem_of_fmap_2.
Qed.

Lemma keys_member_inv k :
  k ∈ keySet coords -> exists a, k = cellKey a /\ a ∈ coordSet coords.
Proof.
  unfold keySet, coordSet. rewrite elem_of_list_to_set. intros H.
  apply list_elem_of_fmap in H as (b & -> & Hb). exists b. split; [done|].
  now apply elem_of_list_to_set.
Qed.

Lemma connectedIn_reaches a b :
  connectedIn (coordSet coords) a b -> reaches (keySet coords) (cellKey a) (cellKey b).
Proof.
  induction 1 as [a Ha|a b c Ha Hb Hadj _ IH].
  - apply reaches_here. now apply keys_member.
  - apply (reaches_step (keySet coords) _ (cellKey b)); auto; try now apply keys_member.
    apply neighbours_adjacent. eauto.
Qed.

Lemma reaches_connectedIn k k' :
  reaches (keySet coords) k k' -> forall a, k = cellKey a ->
  exists b, k' = cellKey b /\ connectedIn (coordSet coords) a b.
Proof.
  induction 1 as [k Hk|k k1 k2 Hk Hk1 Hn _ IH]; intros a ->.
  - exists a. split; [done|]. apply connected_here. now apply keys_member.
  - apply neighbours_adjacent in Hn as (b & -> & Hadj).
    destruct (IH b eq_refl) as (c & -> & Hc). exists c. split; [done|].
    apply (connected_step (coordSet coords) a b c); auto; now apply keys_member.
Qed.

Lemma connectedIn_trans a b c :
  connectedIn (coordSet coords) a b -> connectedIn (coordSet coords) b c ->
  connectedIn (coordSet coords) a c.
Proof.
  induction 1 as [|a b b' Ha Hb Hadj _ IH]; [done|]. intros Hc.
  apply (connected_step (coordSet coords) a b c); auto.
Qed.

Lemma connectedIn_source a b : connectedIn (coordSet coords) a b -> a ∈ coordSet coords.
Proof. now destruct 1. Qed.


Lemma connectedIn_sym a b :
  connectedIn (coordSet coords) a b -> connectedIn (coordSet coords) b a.
Proof.
  induction 1 as [a Ha|a b c Ha Hb Hadj _ IH]; [now apply connected_here|].
  apply (connectedIn_trans c b a IH).
  apply (connected_step (coordSet coords) b a a); auto using adjacent4_sym.
  now apply connected_here.
Qed.



End Coordinates.


Lemma allReached_iff (coords : list (Z * Z)) :
  allReached (map cellKey coords) <->
  forall a b, a ∈ (list_to_set coords : gset (Z * Z)) ->
              b ∈ (list_to_set coords : gset (Z * Z)) ->
              connectedIn (list_to_set coords) a b.
Proof.
  unfold allReached. destruct coords as [|s rest].
  - split; [|done]. intros _ a b Ha. set_solver.
  - set (coords := s :: rest). change (cellKey s :: map cellKey rest) with (map cellKey coords).
    assert (Hs : s ∈ (list_to_set coords : gset (Z * Z))) by set_solver.
    split.
    + intros H a b Ha Hb.
      assert (G : forall x, x ∈ (list_to_set coords : gset (Z * Z)) ->
                            connectedIn (list_to_set coords) s x).
      { intros x Hx.
        assert (Hk : cellKey x ∈ map cellKey coords).
        { apply list_elem_of_fmap_2. now apply elem_of_list_to_set in Hx. }
        apply H in Hk.
        apply reaches_connectedIn with (a := s) in Hk as (b' & Eb & Hb'); [|done].
        apply cellKey_inj in Eb. now subst. }
      apply (connectedIn_trans coords a s b); [apply connectedIn_sym|]; auto.
    + intros H x Hx.
      apply list_elem_of_fmap in Hx as (b & -> & Hb).
      apply connectedIn_reaches. apply H; [done|]. now apply elem_of_list_to_set.
Qed.

(** * Stores that read the same *)

Lemma sameReading_refl d : sameReading d d.
Proof. repeat split. Qed.

Lemma sameReading_trans d1 d2 d3 : sameReading d1 d2 -> sameReading d2 d3 -> sameReading d1 d3.
Proof.
  intros (A1 & A2 & A3) (B1 & B2 & B3).
  split; [intros k; now rewrite B1, A1|split; congruence].
Qed.

Lemma roomOf_readCell d k :
  roomOf d k = match cell_roomId (readCell d k) with RoomId id => Some id | _ => None end.
Proof.
  unfold roomOf, readCell. destruct (cells d !! k) as [[c n i [| |id]]|]; reflexivity.
Qed.

Lemma sameReading_grouping d d' : sameReading d d' -> sameGrouping d d'.
Proof.
  intros (H1 & H2 & H3). repeat split; auto. intros k. now rewrite !roomOf_readCell, H1.
Qed.

Lemma sameReading_attributes d d' k : sameReading d d' -> attributesAt d' k = attributesAt d k.
Proof. intros (H1 & _). unfold attributesAt. now rewrite H1. Qed.

Lemma readCell_insert_read d k k' :
  readCell (set_cells d (<[k := readCell d k]> (cells d))) k' = readCell d k'.
Proof.
  unfold readCell at 1. simpl. destruct (decide (k' = k)) as [->|Hne].
  - rewrite lookup_insert_eq. apply repairCell_idem.
  - now rewrite lookup_insert_ne.
Qed.

Lemma ensureCell_sameReading c r d : sameReading d (snd (ensureCell c r d)).
Proof. repeat split. intros k. apply readCell_insert_read. Qed.

Lemma ensureCellAt_sameReading k d : sameReading d (snd (ensureCellAt k d)).
Proof. unfold ensureCellAt. destruct (parseKey k). apply ensureCell_sameReading. Qed.

Lemma ensureCellAt_fst k d :
  fst (ensureCellAt k d) = readCell d (normalKey k).
Proof. unfold ensureCellAt, normalKey. now destruct (parseKey k). Qed.

Lemma setVisual_sameReading c r d : sameReading d (setVisual c r d).
Proof. apply ensureCell_sameReading. Qed.

Lemma repaintKeys_sameReading cfg keys d : sameReading d (repaintKeys cfg keys d).
Proof.
  unfold repaintKeys. revert d. induction keys as [|k ks IH]; intros d; simpl.
  - apply sameReading_refl.
  - eapply sameReading_trans; [|apply IH].
    destruct (parseKey k), (rectForKey cfg k);
      [apply setVisual_sameReading|apply sameReading_refl].
Qed.

Lemma rebuildAll_sameReading cfg d : sameReading d (rebuildAll cfg d).
Proof.
  unfold rebuildAll. revert d. induction (gridCoords cfg) as [|p ps IH]; intros d; simpl.
  - apply sameReading_refl.
  - eapply sameReading_trans; [|apply IH].
    destruct (rectForKey cfg (cellKey p));
      [apply setVisual_sameReading|apply sameReading_refl].
Qed.

Lemma anyInRoom_sameReading keys : forall d, sameReading d (snd (anyInRoom keys d)).
Proof.
  induction keys as [|k ks IH]; intros d; simpl; [apply sameReading_refl|].
  pose proof (ensureCellAt_sameReading k d) as H.
  destruct (ensureCellAt k d) as [x d1]. simpl in H.
  destruct (truthyRoom (cell_roomId x)); [exact H|].
  eapply sameReading_trans; [exact H|apply IH].
Qed.

Lemma sameTracker_refl st : sameTracker st st.
Proof. repeat split. Qed.

Lemma sameTracker_trans s1 s2 s3 : sameTracker s1 s2 -> sameTracker s2 s3 -> sameTracker s1 s3.
Proof.
  intros (A & A1 & A2 & A3 & A4) (B & B1 & B2 & B3 & B4).
  split; [eapply sameReading_trans; eauto|]. repeat split; congruence.
Qed.

Lemma getCurrentCell_same st : sameTracker st (snd (getCurrentCell st)).
Proof.
  unfold getCurrentCell. destruct (selectedCellKey st) as [k|]; [|apply sameTracker_refl].
  destruct (truthy k); [|apply sameTracker_refl].
  pose proof (ensureCellAt_sameReading k (data st)) as H.
  destruct (ensureCellAt k (data st)) as [x d1]. simpl in *. repeat split; apply H.
Qed.

Lemma getCurrentRoom_same st : sameTracker st (snd (getCurrentRoom st)).
Proof.
  unfold getCurrentRoom. pose proof (getCurrentCell_same st) as H.
  destruct (getCurrentCell st) as [[x|] st1]; simpl in *; [|exact H].
  destruct (truthyRoom (cell_roomId x)); [|exact H].
  destruct (rooms (data st1) !! s); exact H.
Qed.

Lemma refreshButtons_same st : sameTracker st (refreshButtons st).
Proof.
  unfold refreshButtons. pose proof (getCurrentCell_same st) as H1.
  destruct (getCurrentCell st) as [x st1]. simpl in H1.
  pose proof (getCurrentRoom_same st1) as H2.
  destruct (getCurrentRoom st1) as [y st2]. simpl in H2.
  eapply sameTracker_trans; eauto.
Qed.

Lemma selectCell_data k rect st :
  sameReading (data st) (data (selectCell k rect st)) /\
  staged (selectCell k rect st) = staged st /\
  selectedCellKey (selectCell k rect st) = Some k /\
  selectedRect (selectCell k rect st) = Some rect.
Proof.
  unfold selectCell.
  pose proof (ensureCellAt_sameReading k (data (set_selection st (Some k) (Some rect)))) as H.
  destruct (ensureCellAt k (data (set_selection st (Some k) (Some rect)))) as [x d1].
  simpl in H.
  match goal with |- context [refreshButtons ?s] =>
    pose proof (refreshButtons_same s) as (R & R1 & R2 & R3 & R4) end.
  rewrite R2, R3, R4. split.
  - eapply sameReading_trans; [|exact R].
    destruct (roomById (cell_roomId x) d1); exact H.
  - destruct (roomById (cell_roomId x) d1); auto.
Qed.

Lemma clearStage_data cfg st :
  sameReading (data st) (data (clearStage cfg st)) /\ staged (clearStage cfg st) = [] /\
  editTarget (clearStage cfg st) = editTarget st /\
  selectedCellKey (clearStage cfg st) = selectedCellKey st /\
  selectedRect (clearStage cfg st) = selectedRect st.
Proof. repeat split; try reflexivity; apply repaintKeys_sameReading. Qed.

Lemma toggleStage_data cfg k st :
  sameReading (data st) (data (toggleStage cfg k st)) /\
  (forall x, x ∈ staged (toggleStage cfg k st) ->
             x ∈ staged st \/ (x = k /\ k ∈ gridKeys cfg)).
Proof.
  unfold toggleStage. destruct (rectForKey cfg k) eqn:E.
  - apply rectForKey_Some in E as [_ Hk]. case_bool_decide.
    + destruct (parseKey k) as [c r]. simpl. split; [apply setVisual_sameReading|].
      intros x Hx. left. unfold unstage in Hx. now apply list_elem_of_filter in Hx as [_ ?].
    + simpl. split; [apply sameReading_refl|].
      intros x Hx. apply elem_of_app in Hx as [?|Hx]; [now left|].
      apply list_elem_of_singleton in Hx. now right.
  - split; [apply sameReading_refl|]. now left.
Qed.

Lemma onEscape_data cfg st :
  sameReading (data st) (data (onEscape cfg st)) /\ staged (onEscape cfg st) = [].
Proof.
  unfold onEscape. destruct (clearStage_data cfg st) as (C & C1 & _).
  destruct (editTarget (clearStage cfg st)); [now split|].
  set (s2 := set_editTarget (clearStage cfg st) TargetCell).
  pose proof (getCurrentCell_same s2) as (G & _ & _ & _ & G4).
  destruct (getCurrentCell s2) as [x st3]. simpl in G, G4.
  destruct (refreshButtons_same st3) as (R & _ & _ & _ & R4).
  split; [|now rewrite R4, G4].
  eapply sameReading_trans; [exact C|]. eapply sameReading_trans; [exact G|exact R].
Qed.

Lemma afterReplace_data cfg st :
  sameReading (data st) (data (afterReplace cfg st)) /\ staged (afterReplace cfg st) = [].
Proof.
  unfold afterReplace.
  match goal with |- context [refreshButtons ?s] =>
    destruct (refreshButtons_same s) as (R & _ & _ & _ & R4) end.
  rewrite R4. split; [|reflexivity].
  eapply sameReading_trans; [|exact R]. simpl.
  eapply sameReading_trans; [apply rebuildAll_sameReading|apply repaintKeys_sameReading].
Qed.

(** * Well-formed stores *)

Lemma normalKey_cellKey p : normalKey (cellKey p) = cellKey p.
Proof. unfold normalKey. now rewrite parseKey_cellKey. Qed.

Lemma roomOf_Some d k id :
  roomOf d k = Some id <-> exists x, cells d !! k = Some x /\ cell_roomId x = RoomId id.
Proof.
  unfold roomOf. split.
  - destruct (cells d !! k) as [x|]; [|done].
    destruct (cell_roomId x) eqn:E; try done. intros [= ->]. eauto.
  - intros (x & -> & ->). done.
Qed.

Lemma wellFormed_grouping d d' : sameGrouping d d' -> wellFormed d -> wellFormed d'.
Proof.
  intros (G & Hr & Hn) [W1 W2 W3 W4]. split.
  - intros k x id Hx Hid. rewrite Hr.
    assert (H : roomOf d k = Some id) by (rewrite <- G; apply roomOf_Some; eauto).
    apply roomOf_Some in H as (x0 & H0 & H1). eauto.
  - intros id rm k Hrm Hk. rewrite Hr in Hrm. destruct (W2 id rm k Hrm Hk) as [Hp Hx].
    split; [done|]. apply roomOf_Some. rewrite G. now apply roomOf_Some.
  - now rewrite Hr.
  - intros n Hle. rewrite Hr. apply W4. lia.
Qed.

Lemma wellFormed_sameReading d d' : sameReading d d' -> wellFormed d -> wellFormed d'.
Proof. intros H. apply wellFormed_grouping. now apply sameReading_grouping. Qed.

Lemma wellFormed_room_edit d id rm rm' :
  rooms d !! id = Some rm -> room_cells rm' = room_cells rm ->
  wellFormed d -> wellFormed (set_rooms d (<[id := rm']> (rooms d))).
Proof.
  intros Hrm Hc [W1 W2 W3 W4]. split; unfold cellsReferenceRooms;
    cbn [set_rooms rooms cells nextRoomId].
  - intros k x i Hx Hi. destruct (W1 k x i Hx Hi) as (r & Hr & Hk).
    destruct (decide (i = id)) as [->|Hne].
    + exists rm'. split; [apply lookup_insert_eq|]. rewrite Hc. congruence.
    + exists r. split; [now rewrite lookup_insert_ne|done].
  - intros i r k Hr Hk. destruct (decide (i = id)) as [->|Hne].
    + rewrite lookup_insert_eq in Hr. injection Hr as <-. rewrite Hc in Hk. eauto.
    + rewrite lookup_insert_ne in Hr by done. eauto.
  - rewrite lookup_insert_ne; [done|]. intros ->. congruence.
  - intros n Hle. rewrite lookup_insert_ne; [auto|]. intros ->. specialize (W4 n Hle). congruence.
Qed.

Lemma wellFormed_emptyStore : wellFormed emptyStore.
Proof.
  split.
  - intros k x id Hx. cbn in Hx. by rewrite lookup_empty in Hx.
  - intros id rm k Hr. cbn in Hr. by rewrite lookup_empty in Hr.
  - apply lookup_empty.
  - intros. apply lookup_empty.
Qed.


(** * The loops over the members of a room *)

Lemma repairCell_with_roomId v x :
  v <> RoomUndefined -> repairCell (with_roomId v x) = with_roomId v (repairCell x).
Proof.
  intros Hv. destruct x as [c n i rid]. unfold with_roomId, repairCell; cbn.
  destruct v; [done| |]; reflexivity.
Qed.

Lemma groupCell_cellKey cfg v d p :
  v <> RoomUndefined ->
  let d' := groupCell cfg v d (cellKey p) in
  rooms d' = rooms d /\ nextRoomId d' = nextRoomId d /\
  forall k, readCell d' k =
            if decide (k = cellKey p) then with_roomId v (readCell d k) else readCell d k.
Proof.
  intros Hv. unfold groupCell, updateCellAt. rewrite parseKey_cellKey.
  set (d1 := updateCell (Num (fst p)) (Num (snd p)) (with_roomId v) d).
  assert (H1 : rooms d1 = rooms d /\ nextRoomId d1 = nextRoomId d /\
               forall k, readCell d1 k =
                 if decide (k = cellKey p) then with_roomId v (readCell d k) else readCell d k).
  { repeat split. intros k. unfold readCell at 1. simpl.
    fold (cellKey p). destruct (decide (k = cellKey p)) as [->|Hne].
    - rewrite lookup_insert_eq. rewrite repairCell_with_roomId by done.
      f_equal. apply repairCell_idem.
    - rewrite lookup_insert_ne by done. now rewrite lookup_insert_ne by done. }
  destruct H1 as (A & B & C).
  destruct (rectForKey cfg (cellKey p)); [|now repeat split].
  destruct (setVisual_sameReading (Num (fst p)) (Num (snd p)) d1) as (S1 & S2 & S3).
  simpl. split; [congruence|]. split; [congruence|]. intros k. now rewrite S1.
Qed.

Lemma groupCell_fold cfg v keys : forall d,
  v <> RoomUndefined -> (forall k, k ∈ keys -> exists p, k = cellKey p) ->
  let d' := fold_left (groupCell cfg v) keys d in
  rooms d' = rooms d /\ nextRoomId d' = nextRoomId d /\
  forall k, readCell d' k =
            if decide (k ∈ keys) then with_roomId v (readCell d k) else readCell d k.
Proof.
  induction keys as [|k0 ks IH]; intros d Hv Hk; simpl.
  - repeat split.
  - destruct (Hk k0) as [p ->]; [apply list_elem_of_here|].
    destruct (groupCell_cellKey cfg v d p Hv) as (A & B & C).
    destruct (IH (groupCell cfg v d (cellKey p)) Hv) as (A' & B' & C').
    { intros k Hin. apply Hk. now apply list_elem_of_further. }
    split; [congruence|]. split; [congruence|]. intros k. rewrite C', C.
    destruct (decide (k = cellKey p)) as [->|Hne].
    + rewrite (decide_True (P := cellKey p ∈ cellKey p :: ks)) by apply list_elem_of_here.
      destruct (decide (cellKey p ∈ ks)); [|done]. now destruct (readCell d (cellKey p)).
    + destruct (decide (k ∈ ks)) as [Hin|Hin].
      * rewrite decide_True; [done|now apply list_elem_of_further].
      * rewrite decide_False; [done|]. intros H. apply elem_of_cons in H as [?|?]; done.
Qed.

(** * Sorting the member list *)

Lemma insertKey_elem k l x : x ∈ insertKey k l <-> x = k \/ x ∈ l.
Proof.
  induction l as [|y l IH]; simpl.
  - rewrite list_elem_of_singleton, elem_of_nil. tauto.
  - destruct (String.leb k y); rewrite !elem_of_cons; [tauto|]. rewrite IH. tauto.
Qed.

Lemma sortKeys_elem l x : x ∈ sortKeys l <-> x ∈ l.
Proof.
  induction l as [|y l IH]; simpl; [done|].
  rewrite insertKey_elem, elem_of_cons, IH. tauto.
Qed.

(** * Room creation *)

Lemma anyInRoom_None keys : forall d d1,
  anyInRoom keys d = (None, d1) ->
  forall k, k ∈ keys -> truthyRoom (cell_roomId (readCell d (normalKey k))) = None.
Proof.
  induction keys as [|k0 ks IH]; intros d d1 H k Hk; [by apply elem_of_nil in Hk|].
  cbn [anyInRoom] in H. pose proof (ensureCellAt_fst k0 d) as Hf.
  pose proof (ensureCellAt_sameReading k0 d) as (Hs & _).
  destruct (ensureCellAt k0 d) as [x d0]. cbn [fst snd] in Hf, Hs. subst x.
  destruct (truthyRoom (cell_roomId (readCell d (normalKey k0)))) eqn:E; [discriminate|].
  apply elem_of_cons in Hk as [->|Hk]; [exact E|].
  rewrite <- Hs. eapply IH; eauto.
Qed.

Lemma anyInRoom_Some keys : forall d d1 id,
  anyInRoom keys d = (Some id, d1) ->
  exists k, k ∈ keys /\ truthyRoom (cell_roomId (readCell d (normalKey k))) = Some id.
Proof.
  induction keys as [|k0 ks IH]; intros d d1 id H; [discriminate|].
  cbn [anyInRoom] in H. pose proof (ensureCellAt_fst k0 d) as Hf.
  pose proof (ensureCellAt_sameReading k0 d) as (Hs & _).
  destruct (ensureCellAt k0 d) as [x d0]. cbn [fst snd] in Hf, Hs. subst x.
  destruct (truthyRoom (cell_roomId (readCell d (normalKey k0)))) eqn:E.
  - injection H as -> _. exists k0. split; [apply list_elem_of_here|done].
  - destruct (IH _ _ _ H) as (k & Hk & Hr). exists k.
    split; [now apply list_elem_of_further|]. now rewrite <- Hs.
Qed.

Lemma anyInRoom_painted cfg keys : forall d,
  painted cfg d -> (forall k, k ∈ keys -> k ∈ gridKeys cfg) -> snd (anyInRoom keys d) = d.
Proof.
  induction keys as [|k0 ks IH]; intros d Hp Hk; [reflexivity|]. simpl.
  destruct (ensureCellAt_painted cfg d k0 Hp) as (x & _ & _ & ->);
    [apply Hk, list_elem_of_here|].
  destruct (truthyRoom (cell_roomId x)); [reflexivity|].
  apply IH; [done|]. intros k Hin. apply Hk. now apply list_elem_of_further.
Qed.

(** When [createRoomFromStage] creates no room, the tracker reads the same
    as before. *)
Lemma createRoom_failure_same cfg st :
  creationFailed st (snd (createRoomFromStage cfg st)) ->
  sameTracker st (fst (createRoomFromStage cfg st)).
Proof.
  unfold createRoomFromStage, creationFailed.
  destruct (staged st) as [|k0 ks] eqn:Es; [intros _; apply sameTracker_refl|].
  destruct (isContiguous (k0 :: ks)); cbn [negb fst snd]; [|intros _; apply sameTracker_refl].
  pose proof (anyInRoom_sameReading (k0 :: ks) (data st)) as Hs.
  destruct (anyInRoom (k0 :: ks) (data st)) as [[id|] d1]; cbn [fst snd] in *.
  - intros _. split; [exact Hs|repeat split].
  - intros [H|[H|H]]; discriminate.
Qed.

Lemma createRoom_failure_unchanged cfg st :
  creationFailed st (snd (createRoomFromStage cfg st)) ->
  painted cfg (data st) -> (forall k, k ∈ staged st -> k ∈ gridKeys cfg) ->
  fst (createRoomFromStage cfg st) = st.
Proof.
  unfold createRoomFromStage, creationFailed.
  destruct (staged st) as [|k0 ks] eqn:Es; [done|].
  destruct (isContiguous (k0 :: ks)); cbn [negb fst snd]; [|done].
  intros Hf Hp Hk. pose proof (anyInRoom_painted cfg (k0 :: ks) (data st) Hp Hk) as Hd.
  destruct (anyInRoom (k0 :: ks) (data st)) as [[id|] d1]; cbn [fst snd] in *.
  - subst d1. apply set_data_id.
  - destruct Hf as [H|[H|H]]; discriminate.
Qed.

(** What a successful [createRoomFromStage] leaves in the store. *)
Lemma createRoom_created cfg st :
  staged st <> [] -> isContiguous (staged st) = true ->
  fst (anyInRoom (staged st) (data st)) = None ->
  (forall k, k ∈ staged st -> exists p, k = cellKey p) ->
  let id := "R" ++ string_of_Z (nextRoomId (data st)) in
  let st' := fst (createRoomFromStage cfg st) in
  snd (createRoomFromStage cfg st) = Silent /\
  staged st' = [] /\
  (exists rm, rooms (data st') = <[id := rm]> (rooms (data st)) /\
              room_id rm = id /\ room_cells rm = sortKeys (staged st)) /\
  nextRoomId (data st') = nextRoomId (data st) + 1 /\
  forall k, readCell (data st') k =
            if decide (k ∈ staged st)
            then with_roomId (RoomId id) (readCell (data st) k)
            else readCell (data st) k.
Proof.
  intros Hne Hc Hany Hkeys. unfold createRoomFromStage.
  destruct (staged st) as [|k0 ks] eqn:Es; [done|]. rewrite Hc. cbn [negb].
  pose proof (anyInRoom_sameReading (k0 :: ks) (data st)) as (S1 & S2 & S3).
  destruct (anyInRoom (k0 :: ks) (data st)) as [ex d1]. simpl in Hany, S1, S2, S3. subst ex.
  set (id := "R" ++ string_of_Z (nextRoomId d1)).
  set (rm := {| room_id := id; room_name := "Room " ++ id; room_kind := "room";
                room_c := "#3c6270"; room_n := ""; room_icon := "";
                room_cells := sortKeys (k0 :: ks) |}).
  set (d2 := {| cells := cells d1; rooms := <[id := rm]> (rooms d1);
                nextRoomId := nextRoomId d1 + 1 |}).
  cbn [room_cells rm].
  change (room_cells rm) with (sortKeys (k0 :: ks)).
  set (d3 := fold_left (assignRoom cfg id) (sortKeys (k0 :: ks)) d2).
  assert (Hv : RoomId id <> RoomUndefined) by discriminate.
  assert (Hcan : forall k, k ∈ sortKeys (k0 :: ks) -> exists p, k = cellKey p).
  { intros k Hk. apply Hkeys. exact (proj1 (sortKeys_elem _ _) Hk). }
  destruct (groupCell_fold cfg (RoomId id) (sortKeys (k0 :: ks)) d2 Hv Hcan) as (G1 & G2 & G3).
  fold (assignRoom cfg id) in G1, G2, G3. fold d3 in G1, G2, G3.
  set (st1 := clearStage cfg (set_data st d3)).
  destruct (clearStage_data cfg (set_data st d3)) as (C1 & C2 & _). fold st1 in C1, C2.
  set (st2 := match sortKeys (k0 :: ks) with
              | firstK :: _ =>
                  match rectForKey cfg firstK with
                  | Some rect => selectCell firstK rect st1
                  | None => st1
                  end
              | [] => st1
              end).
  assert (H2 : sameReading (data st1) (data st2) /\ staged st2 = staged st1).
  { unfold st2. destruct (sortKeys (k0 :: ks)) as [|f ?]; [split; [apply sameReading_refl|done]|].
    destruct (rectForKey cfg f); [|split; [apply sameReading_refl|done]].
    destruct (selectCell_data f s st1) as (A & B & _). now split. }
  destruct H2 as (H2 & H2').
  destruct (refreshButtons_same (set_editTarget st2 TargetRoom)) as (R & _ & _ & _ & R4).
  cbn [fst snd]. split; [reflexivity|].
  split; [rewrite R4; cbn; congruence|].
  assert (SR : sameReading d3 (data (refreshButtons (set_editTarget st2 TargetRoom)))).
  { eapply sameReading_trans; [exact C1|]. eapply sameReading_trans; [exact H2|exact R]. }
  destruct SR as (SR1 & SR2 & SR3).
  assert (Eid : id = "R" ++ string_of_Z (nextRoomId (data st))) by (unfold id; now rewrite S3).
  split; [|split].
  - exists rm. rewrite SR2, G1. cbn. rewrite S2, <- Eid. done.
  - rewrite SR3, G2. cbn. now rewrite S3.
  - intros k. rewrite SR1, G3, <- Eid.
    assert (Hd2 : readCell d2 k = readCell (data st) k) by (rewrite <- S1; reflexivity).
    rewrite Hd2.
    destruct (decide (k ∈ sortKeys (k0 :: ks))) as [Hin|Hin];
      [rewrite decide_True by (now apply sortKeys_elem)|
       rewrite decide_False by (now rewrite <- sortKeys_elem)]; done.
Qed.

Lemma roomOf_truthy d k id :
  wellFormed d -> roomOf d k = Some id ->
  truthyRoom (cell_roomId (readCell d k)) = Some id.
Proof.
  intros W H. pose proof H as H'. rewrite roomOf_readCell in H.
  destruct (cell_roomId (readCell d k)) eqn:E; try discriminate. injection H as ->.
  apply roomOf_Some in H' as (x & Hx & Hid).
  destruct (wf_refs d W k x id Hx Hid) as (rm & Hrm & _).
  simpl. destruct id; [|reflexivity]. rewrite (wf_ids d W) in Hrm. discriminate.
Qed.

Lemma wellFormed_created d d' (keys : list string) id rm :
  wellFormed d ->
  id = "R" ++ string_of_Z (nextRoomId d) ->
  (forall k, k ∈ room_cells rm <-> k ∈ keys) ->
  (forall k, k ∈ keys -> exists p, k = cellKey p) ->
  (forall k, k ∈ keys -> truthyRoom (cell_roomId (readCell d k)) = None) ->
  rooms d' = <[id := rm]> (rooms d) ->
  nextRoomId d' = nextRoomId d + 1 ->
  (forall k, readCell d' k =
             if decide (k ∈ keys) then with_roomId (RoomId id) (readCell d k)
             else readCell d k) ->
  wellFormed d'.
Proof.
  intros W Eid Hmem Hcan Hfree Hr Hn Hread.
  assert (Hnew : rooms d !! id = None) by (rewrite Eid; apply (wf_fresh d W); lia).
  assert (Hro : forall k, roomOf d' k = if decide (k ∈ keys) then Some id else roomOf d k).
  { intros k. rewrite !roomOf_readCell, Hread. destruct (decide (k ∈ keys)); reflexivity. }
  split.
  - intros k x i Hx Hi.
    assert (H : roomOf d' k = Some i) by (apply roomOf_Some; eauto).
    rewrite Hro in H. rewrite Hr. destruct (decide (k ∈ keys)) as [Hk|Hk].
    + injection H as <-. exists rm. split; [apply lookup_insert_eq|now apply Hmem].
    + apply roomOf_Some in H as (x0 & Hx0 & Hi0).
      destruct (wf_refs d W k x0 i Hx0 Hi0) as (r & Hri & Hkr).
      exists r. split; [|done]. rewrite lookup_insert_ne; [done|]. intros <-. congruence.
  - intros i r k Hri Hk. rewrite Hr in Hri. rewrite <- roomOf_Some, Hro.
    destruct (decide (i = id)) as [->|Hne].
    + rewrite lookup_insert_eq in Hri. injection Hri as <-. apply Hmem in Hk.
      split; [auto|]. now rewrite decide_True.
    + rewrite lookup_insert_ne in Hri by done.
      destruct (wf_members d W i r k Hri Hk) as [Hp Hx]. split; [done|].
      apply roomOf_Some in Hx. rewrite decide_False; [done|].
      intros Hin. apply (roomOf_truthy d k i W) in Hx. rewrite (Hfree k Hin) in Hx. discriminate.
  - rewrite Hr, lookup_insert_ne; [apply (wf_ids d W)|]. rewrite Eid. discriminate.
  - intros n Hle. rewrite Hr, lookup_insert_ne; [apply (wf_fresh d W); lia|].
    rewrite Eid. intros H. injection H as H. apply string_of_Z_inj in H. lia.
Qed.

(** * Dissolving a room *)

Lemma dissolveRoom_absent cfg id st :
  roomById (RoomId id) (data st) = None -> dissolveRoom cfg id st = st.
Proof. unfold dissolveRoom. now intros ->. Qed.

Lemma roomById_Some id d rm :
  roomById (RoomId id) d = Some rm <-> truthy id = true /\ rooms d !! id = Some rm.
Proof.
  unfold roomById, truthyRoom. destruct (truthy id); [tauto|].
  split; [discriminate|intros [? _]; discriminate].
Qed.

Lemma dissolveRoom_present cfg id st rm :
  roomById (RoomId id) (data st) = Some rm ->
  (forall k, k ∈ room_cells rm -> exists p, k = cellKey p) ->
  let st' := dissolveRoom cfg id st in
  rooms (data st') = delete id (rooms (data st)) /\
  nextRoomId (data st') = nextRoomId (data st) /\
  (forall k, readCell (data st') k =
             if decide (k ∈ room_cells rm)
             then with_roomId RoomNull (readCell (data st) k)
             else readCell (data st) k) /\
  staged st' = staged st /\
  selectedCellKey st' = selectedCellKey st /\
  selectedRect st' = selectedRect st /\
  editTarget st' = TargetCell.
Proof.
  intros Hrm Hcan. unfold dissolveRoom. rewrite Hrm.
  assert (Hv : RoomNull <> RoomUndefined) by discriminate.
  destruct (groupCell_fold cfg RoomNull (room_cells rm) (data st) Hv Hcan) as (G1 & G2 & G3).
  fold (releaseCell cfg) in G1, G2, G3.
  set (d1 := fold_left (releaseCell cfg) (room_cells rm) (data st)) in *.
  match goal with |- context [refreshButtons ?s] =>
    destruct (refreshButtons_same s) as ((R1 & R2 & R3) & R4 & R5 & R6 & R7) end.
  cbv zeta. split; [|split; [|split; [|split; [|split; [|split]]]]].
  - rewrite R2. cbn [data set_editTarget set_data set_rooms rooms]. now rewrite G1.
  - rewrite R3. exact G2.
  - intros k. rewrite R1. exact (G3 k).
  - now rewrite R7.
  - now rewrite R5.
  - now rewrite R6.
  - now rewrite R4.
Qed.

Lemma wellFormed_dissolved d d' id rm :
  wellFormed d -> rooms d !! id = Some rm ->
  rooms d' = delete id (rooms d) -> nextRoomId d' = nextRoomId d ->
  (forall k, readCell d' k =
             if decide (k ∈ room_cells rm) then with_roomId RoomNull (readCell d k)
             else readCell d k) ->
  wellFormed d'.
Proof.
  intros W Hrm Hr Hn Hread.
  assert (Hro : forall k, roomOf d' k
                          = if decide (k ∈ room_cells rm) then None else roomOf d k).
  { intros k. rewrite !roomOf_readCell, Hread.
    destruct (decide (k ∈ room_cells rm)); reflexivity. }
  split.
  - intros k x i Hx Hi.
    assert (H : roomOf d' k = Some i) by (apply roomOf_Some; eauto).
    rewrite Hro in H. destruct (decide (k ∈ room_cells rm)) as [Hk|Hk]; [discriminate|].
    apply roomOf_Some in H as (x0 & Hx0 & Hi0).
    destruct (wf_refs d W k x0 i Hx0 Hi0) as (r & Hri & Hkr).
    exists r. split; [|done]. rewrite Hr, lookup_delete_ne; [done|]. intros <-. congruence.
  - intros i r k Hri Hk. rewrite Hr in Hri.
    destruct (decide (i = id)) as [->|Hne]; [by rewrite lookup_delete_eq in Hri|].
    rewrite lookup_delete_ne in Hri by done.
    destruct (wf_members d W i r k Hri Hk) as [Hp Hx]. split; [done|].
    rewrite <- roomOf_Some, Hro. apply roomOf_Some in Hx.
    rewrite decide_False; [done|]. intros Hin.
    destruct (wf_members d W id rm k Hrm Hin) as [_ Hx']. apply roomOf_Some in Hx'. congruence.
  - rewrite Hr. destruct (decide (id = "")) as [->|Hne];
      [apply lookup_delete_eq|rewrite lookup_delete_ne by done; apply (wf_ids d W)].
  - intros n Hle. rewrite Hr.
    destruct (decide (id = "R" ++ string_of_Z n)) as [->|Hne];
      [apply lookup_delete_eq|rewrite lookup_delete_ne by done; apply (wf_fresh d W); lia].
Qed.

Lemma dissolveRoom_wellFormed cfg id st :
  wellFormed (data st) -> wellFormed (data (dissolveRoom cfg id st)).
Proof.
  intros W. destruct (roomById (RoomId id) (data st)) as [rm|] eqn:E;
    [|now rewrite dissolveRoom_absent].
  pose proof E as E'. apply roomById_Some in E' as [_ Hrm].
  destruct (dissolveRoom_present cfg id st rm E) as (A & B & C & _).
  { intros k Hk. now destruct (wf_members _ W id rm k Hrm Hk). }
  eapply wellFormed_dissolved; eauto.
Qed.

Lemma dissolveRoom_staged cfg id st : staged (dissolveRoom cfg id st) = staged st.
Proof.
  unfold dissolveRoom. destruct (roomById (RoomId id) (data st)); [|done].
  match goal with |- context [refreshButtons ?s] =>
    destruct (refreshButtons_same s) as (_ & _ & _ & _ & R7) end.
  now rewrite R7.
Qed.

(** * Panel bindings *)

Lemma getCurrentCell_spec st x st1 :
  getCurrentCell st = (x, st1) ->
  sameTracker st st1 /\
  forall y, x = Some y ->
    exists k, selectedCellKey st = Some k /\ truthy k = true /\
              cells (data st1) !! normalKey k = Some y /\
              y = readCell (data st) (normalKey k).
Proof.
  intros H. split; [pose proof (getCurrentCell_same st) as G; now rewrite H in G|].
  unfold getCurrentCell in H. destruct (selectedCellKey st) as [k|]; [|now injection H as <- <-].
  destruct (truthy k) eqn:Et; [|now injection H as <- <-].
  pose proof (ensureCellAt_fst k (data st)) as Hf.
  assert (Hc : cells (snd (ensureCellAt k (data st))) !! normalKey k
               = Some (fst (ensureCellAt k (data st)))).
  { unfold ensureCellAt, normalKey. destruct (parseKey k). apply lookup_insert_eq. }
  destruct (ensureCellAt k (data st)) as [y d1]. cbn [fst snd] in Hf, Hc.
  injection H as <- <-. intros y' [= <-]. exists k. repeat split; auto.
Qed.

Lemma getCurrentRoom_spec st cur st1 :
  getCurrentRoom st = (cur, st1) ->
  sameTracker st st1 /\
  forall id rm, cur = Some (id, rm) ->
    rooms (data st1) !! id = Some rm /\ truthy id = true /\
    exists k, selectedCellKey st = Some k /\ truthy k = true /\
              truthyRoom (cell_roomId (readCell (data st) (normalKey k))) = Some id.
Proof.
  intros H. split; [pose proof (getCurrentRoom_same st) as G; now rewrite H in G|].
  unfold getCurrentRoom in H.
  destruct (getCurrentCell st) as [x st0] eqn:Ec.
  apply getCurrentCell_spec in Ec as [_ Hx].
  destruct x as [x|]; [|now injection H as <- <-].
  destruct (Hx x eq_refl) as (k & Hk & Ht & _ & ->).
  destruct (truthyRoom _) as [i|] eqn:Er; [|now injection H as <- <-].
  destruct (rooms (data st0) !! i) as [r|] eqn:Ei; injection H as <- <-; [|done].
  intros id rm [= <- <-]. split; [done|]. split; [|eauto].
  unfold truthyRoom in Er. destruct (cell_roomId _) as [| |j]; try discriminate.
  destruct (truthy j) eqn:E; [|discriminate]. now injection Er as <-.
Qed.

Lemma updateRoom_wellFormed id f rm st :
  rooms (data st) !! id = Some rm -> room_cells (f rm) = room_cells rm ->
  wellFormed (data st) -> wellFormed (data (updateRoom id f rm st)).
Proof. intros. now apply wellFormed_room_edit with (rm := rm). Qed.

Lemma writeCurrentCell_grouping k f x st :
  cells (data st) !! normalKey k = Some x -> cell_roomId (f x) = cell_roomId x ->
  sameGrouping (data st) (data (writeCurrentCell k f x st)).
Proof.
  intros Hx Hf. unfold writeCurrentCell. fold (normalKey k).
  unfold normalKey in *. destruct (parseKey k) as [c r]. repeat split.
  intros k'. unfold roomOf. cbn. destruct (decide (k' = key c r)) as [->|Hne].
  - rewrite lookup_insert_eq, Hx, Hf. done.
  - now rewrite lookup_insert_ne.
Qed.

Lemma writeCurrentCell_staged k f x st : staged (writeCurrentCell k f x st) = staged st.
Proof. unfold writeCurrentCell. now destruct (parseKey k). Qed.

Lemma writeCurrentCell_wellFormed k f x st :
  cells (data st) !! normalKey k = Some x -> cell_roomId (f x) = cell_roomId x ->
  wellFormed (data st) -> wellFormed (data (writeCurrentCell k f x st)).
Proof. intros Hx Hf. apply wellFormed_grouping. now apply writeCurrentCell_grouping. Qed.

Lemma sameTracker_wellFormed cfg st st' :
  sameTracker st st' -> wellFormedTracker cfg st -> wellFormedTracker cfg st'.
Proof.
  intros (S & _ & _ & _ & Hs) [W Hk]. split; [eapply wellFormed_sameReading; eauto|].
  now rewrite Hs.
Qed.

Lemma applyColor_wellFormed cfg v : keepsWellFormed cfg (applyColor cfg v).
Proof.
  intros st WF. unfold applyColor.
  destruct (selectedCellKey st) as [k|] eqn:Ek; [|done].
  destruct (selectedRect st); [|done]. destruct (truthy k) eqn:Et; [|done]. cbn [negb].
  destruct (getCurrentCell st) as [x st1] eqn:Ec.
  apply getCurrentCell_spec in Ec as [S1 Hx].
  pose proof (sameTracker_wellFormed cfg _ _ S1 WF) as WF1.
  destruct (editTarget st1).
  - destruct x as [x|]; [|done].
    destruct (Hx x eq_refl) as (k' & Hk' & _ & Hc & _).
    rewrite Ek in Hk'. injection Hk' as <-.
    destruct (parseKey k) as [c r] eqn:Ep. destruct WF1 as [W1 K1].
    split; [|cbn [staged set_data]; now rewrite writeCurrentCell_staged].
    cbn [data set_data].
    eapply wellFormed_sameReading; [apply setVisual_sameReading|].
    now apply writeCurrentCell_wellFormed.
  - destruct (getCurrentRoom st1) as [cur st2] eqn:Er.
    apply getCurrentRoom_spec in Er as [S2 Hr].
    pose proof (sameTracker_wellFormed cfg _ _ S2 WF1) as [W2 K2].
    destruct cur as [[id rm]|]; [|now split].
    destruct (Hr id rm eq_refl) as (Hrm & _).
    split; [|exact K2]. cbn [data set_data].
    eapply wellFormed_sameReading; [apply repaintKeys_sameReading|].
    now apply updateRoom_wellFormed.
Qed.

Lemma applyIcon_wellFormed cfg v : keepsWellFormed cfg (applyIcon v).
Proof.
  intros st WF. unfold applyIcon.
  destruct (selectedCellKey st) as [k|] eqn:Ek; [|done].
  destruct (selectedRect st); [|done]. destruct (truthy k) eqn:Et; [|done]. cbn [negb].
  destruct (getCurrentCell st) as [x st1] eqn:Ec.
  apply getCurrentCell_spec in Ec as [S1 Hx].
  pose proof (sameTracker_wellFormed cfg _ _ S1 WF) as WF1.
  destruct (editTarget st1).
  - destruct x as [x|]; [|done].
    destruct (Hx x eq_refl) as (k' & Hk' & _ & Hc & _).
    rewrite Ek in Hk'. injection Hk' as <-. destruct WF1 as [W1 K1].
    split; [|now rewrite writeCurrentCell_staged].
    now apply writeCurrentCell_wellFormed.
  - destruct (getCurrentRoom st1) as [cur st2] eqn:Er.
    apply getCurrentRoom_spec in Er as [S2 Hr].
    pose proof (sameTracker_wellFormed cfg _ _ S2 WF1) as [W2 K2].
    destruct cur as [[id rm]|]; [|now split].
    destruct (Hr id rm eq_refl) as (Hrm & _).
    split; [|exact K2]. now apply updateRoom_wellFormed.
Qed.

Lemma applyNotes_wellFormed cfg v : keepsWellFormed cfg (applyNotes v).
Proof.
  intros st WF. unfold applyNotes.
  destruct (selectedCellKey st) as [k|] eqn:Ek; [|done].
  destruct (truthy k) eqn:Et; [|done]. cbn [negb].
  destruct (getCurrentCell st) as [x st1] eqn:Ec.
  apply getCurrentCell_spec in Ec as [S1 Hx].
  pose proof (sameTracker_wellFormed cfg _ _ S1 WF) as WF1.
  destruct (editTarget st1).
  - destruct x as [x|]; [|done].
    destruct (Hx x eq_refl) as (k' & Hk' & _ & Hc & _).
    rewrite Ek in Hk'. injection Hk' as <-. destruct WF1 as [W1 K1].
    split; [|now rewrite writeCurrentCell_staged].
    now apply writeCurrentCell_wellFormed.
  - destruct (getCurrentRoom st1) as [cur st2] eqn:Er.
    apply getCurrentRoom_spec in Er as [S2 Hr].
    pose proof (sameTracker_wellFormed cfg _ _ S2 WF1) as [W2 K2].
    destruct cur as [[id rm]|]; [|now split].
    destruct (Hr id rm eq_refl) as (Hrm & _).
    split; [|exact K2]. now apply updateRoom_wellFormed.
Qed.

Lemma applyRoomName_wellFormed cfg v : keepsWellFormed cfg (applyRoomName v).
Proof.
  intros st WF. unfold applyRoomName.
  destruct (getCurrentRoom st) as [cur st2] eqn:Er.
  apply getCurrentRoom_spec in Er as [S2 Hr].
  pose proof (sameTracker_wellFormed cfg _ _ S2 WF) as [W2 K2].
  destruct cur as [[id rm]|]; [|now split].
  destruct (Hr id rm eq_refl) as (Hrm & _).
  split; [|exact K2]. now apply updateRoom_wellFormed.
Qed.

Lemma applyRoomKind_wellFormed cfg v : keepsWellFormed cfg (applyRoomKind v).
Proof.
  intros st WF. unfold applyRoomKind.
  destruct (getCurrentRoom st) as [cur st2] eqn:Er.
  apply getCurrentRoom_spec in Er as [S2 Hr].
  pose proof (sameTracker_wellFormed cfg _ _ S2 WF) as [W2 K2].
  destruct cur as [[id rm]|]; [|now split].
  destruct (Hr id rm eq_refl) as (Hrm & _).
  split; [|exact K2]. now apply updateRoom_wellFormed.
Qed.

Lemma clearSelectedCell_wellFormed cfg :
  keepsWellFormed cfg (fun st => fst (clearSelectedCell st)).
Proof.
  intros st WF. unfold clearSelectedCell.
  destruct (selectedCellKey st) as [k|] eqn:Ek; [|done].
  destruct (selectedRect st); [|done]. destruct (truthy k) eqn:Et; [|done]. cbn [negb].
  destruct (getCurrentCell st) as [x st1] eqn:Ec.
  apply getCurrentCell_spec in Ec as [S1 Hx].
  pose proof (sameTracker_wellFormed cfg _ _ S1 WF) as WF1.
  destruct x as [x|]; [|done].
  destruct (truthyRoom (cell_roomId x)); [done|].
  destruct (Hx x eq_refl) as (k' & Hk' & _ & Hc & _).
  rewrite Ek in Hk'. injection Hk' as <-.
  destruct (parseKey k) as [c r] eqn:Ep. destruct WF1 as [W1 K1].
  cbn [fst]. split; [|cbn [staged set_data]; now rewrite writeCurrentCell_staged].
  cbn [data set_data].
  eapply wellFormed_sameReading; [apply setVisual_sameReading|].
  now apply writeCurrentCell_wellFormed.
Qed.

Lemma dissolve_current_wellFormed cfg ok : keepsWellFormed cfg (onDissolveClick cfg ok).
Proof.
  intros st WF. unfold onDissolveClick.
  destruct (getCurrentRoom st) as [cur st1] eqn:Er.
  apply getCurrentRoom_spec in Er as [S1 _].
  pose proof (sameTracker_wellFormed cfg _ _ S1 WF) as WF1.
  destruct cur as [[id rm]|]; [|done]. destruct ok; [|done].
  destruct WF1 as [W1 K1]. split; [now apply dissolveRoom_wellFormed|].
  now rewrite dissolveRoom_staged.
Qed.

Lemma deleteCurrentRoom_eq cfg ok st : deleteCurrentRoom cfg ok st = onDissolveClick cfg ok st.
Proof. reflexivity. Qed.

(** * Every action keeps the tracker well formed *)

Lemma createRoom_cases cfg st :
  creationFailed st (snd (createRoomFromStage cfg st)) \/
  (staged st <> [] /\ isContiguous (staged st) = true /\
   fst (anyInRoom (staged st) (data st)) = None).
Proof.
  unfold createRoomFromStage, creationFailed.
  destruct (staged st) as [|k0 ks] eqn:Es; [now left; left|].
  destruct (isContiguous (k0 :: ks)); cbn [negb]; [|left; right; now left].
  destruct (anyInRoom (k0 :: ks) (data st)) as [[id|] d1]; cbn [fst snd].
  - left. right. now right.
  - right. repeat split. discriminate.
Qed.

Lemma createRoom_wellFormed cfg :
  keepsWellFormed cfg (fun st => fst (createRoomFromStage cfg st)).
Proof.
  intros st [W K]. destruct (createRoom_cases cfg st) as [Hf|(Hne & Hc & Hany)].
  - apply (sameTracker_wellFormed cfg st); [now apply createRoom_failure_same|now split].
  - assert (Hcan : forall k, k ∈ staged st -> exists p, k = cellKey p).
    { intros k Hk. destruct (gridKeys_cellKey cfg k (K k Hk)) as (p & -> & _). eauto. }
    destruct (createRoom_created cfg st Hne Hc Hany Hcan)
      as (_ & Hs & (rm & Hr & _ & Hcells) & Hn & Hread).
    split; [|rewrite Hs; intros k Hk; by apply elem_of_nil in Hk].
    eapply (wellFormed_created (data st) _ (staged st)); eauto.
    + intros k. rewrite Hcells. apply sortKeys_elem.
    + intros k Hk. destruct (anyInRoom (staged st) (data st)) as [ex d1] eqn:Ea.
      cbn [fst] in Hany. subst ex.
      pose proof (anyInRoom_None _ _ _ Ea k Hk) as H.
      destruct (Hcan k Hk) as [p ->]. now rewrite normalKey_cellKey in H.
Qed.

Lemma importedStore_doImport cfg file st :
  match importedStore file with
  | Some d => doImport cfg file st = (afterReplace cfg (set_data st d), Silent)
  | None => fst (doImport cfg file st) = st
  end.
Proof.
  unfold importedStore, loadedStore, doImport. destruct file as [|obj]; [done|].
  destruct (obj ≫= snap_data) as [sd|]; [|done]. cbn.
  destruct (snap_cells sd), (snap_rooms sd); done.
Qed.

Lemma loadedStore_loadState cfg state st :
  match loadedStore state with
  | Some d => loadState cfg state st = set_data st (rebuildAll cfg d)
  | None => loadState cfg state st = st
  end.
Proof.
  unfold loadedStore, loadState. destruct state as [sd|]; [|done]. cbn.
  destruct (snap_cells sd), (snap_rooms sd); done.
Qed.

Lemma onCellLeave_same cfg k st : sameTracker st (onCellLeave cfg k st).
Proof.
  unfold onCellLeave. destruct (rectForKey cfg k) as [rect|]; [|apply sameTracker_refl].
  destruct (_ && _); [|apply sameTracker_refl].
  destruct (parseKey k) as [c r]. split; [apply setVisual_sameReading|repeat split].
Qed.

Lemma onRoomItemClick_data cfg id st :
  sameReading (data st) (data (onRoomItemClick cfg id st)) /\
  staged (onRoomItemClick cfg id st) = staged st.
Proof.
  unfold onRoomItemClick. destruct (rooms (data st) !! id) as [rm|];
    [|split; [apply sameReading_refl|done]].
  match goal with |- context [refreshButtons (set_editTarget ?s TargetRoom)] =>
    set (st1 := s);
    destruct (refreshButtons_same (set_editTarget st1 TargetRoom)) as (R & _ & _ & _ & R4)
  end.
  assert (H : sameReading (data st) (data st1) /\ staged st1 = staged st).
  { unfold st1. destruct (room_cells rm) as [|k ?]; [split; [apply sameReading_refl|done]|].
    destruct (rectForKey cfg k) as [rect|]; [|split; [apply sameReading_refl|done]].
    destruct (selectCell_data k rect st) as (A & B & _). now split. }
  destruct H as [H1 H2]. split; [|now rewrite R4].
  eapply sameReading_trans; [exact H1|exact R].
Qed.

Lemma doImport_wellFormed cfg file :
  admissible (Import file) -> keepsWellFormed cfg (fun st => fst (doImport cfg file st)).
Proof.
  intros [Ha _] st WF. pose proof (importedStore_doImport cfg file st) as H.
  destruct (importedStore file) as [d|] eqn:E; [|now rewrite H].
  rewrite H. cbn [fst].
  destruct (afterReplace_data cfg (set_data st d)) as [S Hs]. split.
  - eapply wellFormed_sameReading; [exact S|]. exact (Ha file d eq_refl E).
  - rewrite Hs. intros k Hk. by apply elem_of_nil in Hk.
Qed.

Lemma doWipe_wellFormed cfg ok : keepsWellFormed cfg (doWipe cfg ok).
Proof.
  intros st WF. unfold doWipe. destruct ok; [|done].
  destruct (afterReplace_data cfg (set_data st emptyStore)) as [S Hs]. split.
  - eapply wellFormed_sameReading; [exact S|]. apply wellFormed_emptyStore.
  - rewrite Hs. intros k Hk. by apply elem_of_nil in Hk.
Qed.

Lemma step_wellFormed cfg a st :
  admissible a -> wellFormedTracker cfg st -> wellFormedTracker cfg (step cfg a st).
Proof.
  intros Ha WF. destruct a; cbn [step].
  - destruct (rectForKey cfg k); [|done]. destruct WF as [W K].
    destruct (selectCell_data k s st) as (S & Hs & _).
    split; [eapply wellFormed_sameReading; eauto|now rewrite Hs].
  - destruct WF as [W K]. destruct (toggleStage_data cfg k st) as (S & Hs).
    split; [eapply wellFormed_sameReading; eauto|].
    intros x Hx. destruct (Hs x Hx) as [?|[-> ?]]; auto.
  - now apply createRoom_wellFormed.
  - now apply dissolve_current_wellFormed.
  - rewrite deleteCurrentRoom_eq. now apply dissolve_current_wellFormed.
  - now apply applyColor_wellFormed.
  - now apply applyIcon_wellFormed.
  - now apply applyNotes_wellFormed.
  - now apply applyRoomName_wellFormed.
  - now apply applyRoomKind_wellFormed.
  - now apply clearSelectedCell_wellFormed.
  - now apply doImport_wellFormed.
  - now apply doWipe_wellFormed.
  - destruct WF as [W K]. destruct (onEscape_data cfg st) as (S & Hs).
    split; [eapply wellFormed_sameReading; eauto|].
    rewrite Hs. intros k Hk. by apply elem_of_nil in Hk.
  - apply (sameTracker_wellFormed cfg st); [apply onCellLeave_same|exact WF].
  - destruct WF as [W K]. destruct (onRoomItemClick_data cfg id st) as (S & Hs).
    split; [eapply wellFormed_sameReading; eauto|now rewrite Hs].
  - destruct Ha as [_ Ha]. destruct WF as [W K].
    pose proof (loadedStore_loadState cfg state st) as H.
    destruct (loadedStore state) as [d|] eqn:E; rewrite H; [|now split].
    split; [|exact K]. cbn [data set_data].
    eapply wellFormed_sameReading; [apply rebuildAll_sameReading|].
    exact (Ha state d eq_refl E).
  - destruct WF as [W K]. destruct (clearStage_data cfg st) as (S & Hs & _).
    split; [eapply wellFormed_sameReading; eauto|].
    rewrite Hs. intros k Hk. by apply elem_of_nil in Hk.
Qed.

Lemma run_wellFormed cfg acts : forall st,
  Forall admissible acts -> wellFormedTracker cfg st -> wellFormedTracker cfg (run cfg acts st).
Proof.
  unfold run. induction acts as [|a acts IH]; intros st Ha WF; [exact WF|].
  apply Forall_cons in Ha as [Ha Hacts]. cbn [fold_left].
  apply IH; [exact Hacts|]. now apply step_wellFormed.
Qed.

Lemma createDungeonTracker_data cfg loaded :
  data (createDungeonTracker cfg loaded) =
  rebuildAll cfg (match loaded with Some d => d | None => emptyStore end).
Proof. now rewrite rebuildAll_eq_paint. Qed.

Lemma createDungeonTracker_wellFormed cfg loaded :
  (forall d, loaded = Some d -> wellFormed d) ->
  wellFormedTracker cfg (createDungeonTracker cfg loaded).
Proof.
  intros Hl. split; [|intros k Hk; by apply elem_of_nil in Hk].
  rewrite createDungeonTracker_data.
  eapply wellFormed_sameReading; [apply rebuildAll_sameReading|].
  destruct loaded; [now apply Hl|apply wellFormed_emptyStore].
Qed.

(** * Exact content of the store after the selection helpers *)

Lemma ensureCell_idem c r d :
  snd (ensureCell c r (snd (ensureCell c r d))) = snd (ensureCell c r d).
Proof.
  unfold ensureCell. cbn. rewrite lookup_insert_eq, repairCell_idem, insert_insert_eq.
  reflexivity.
Qed.

Lemma ensureCellAt_idem k d :
  snd (ensureCellAt k (snd (ensureCellAt k d))) = snd (ensureCellAt k d).
Proof. unfold ensureCellAt. destruct (parseKey k). apply ensureCell_idem. Qed.


Lemma getCurrentCell_data st :
  snd (getCurrentCell st) = set_data st (touched st).
Proof.
  unfold getCurrentCell, touched. destruct (selectedCellKey st) as [k|];
    [|now rewrite set_data_id].
  destruct (truthy k); [|now rewrite set_data_id]. now destruct (ensureCellAt k (data st)).
Qed.

Lemma getCurrentRoom_data st :
  snd (getCurrentRoom st) = set_data st (touched st).
Proof.
  unfold getCurrentRoom. rewrite <- getCurrentCell_data.
  destruct (getCurrentCell st) as [[x|] st1]; [|done].
  destruct (truthyRoom (cell_roomId x)) as [id|]; [|done].
  now destruct (rooms (data st1) !! id).
Qed.

Lemma touched_idem st : touched (set_data st (touched st)) = touched st.
Proof.
  unfold touched. cbn. destruct (selectedCellKey st) as [k|]; [|done].
  destruct (truthy k); [|done]. apply ensureCellAt_idem.
Qed.

Lemma refreshButtons_data st : refreshButtons st = set_data st (touched st).
Proof.
  unfold refreshButtons.
  pose proof (getCurrentCell_data st) as H1. destruct (getCurrentCell st) as [x st1].
  cbn [snd] in H1. subst st1.
  pose proof (getCurrentRoom_data (set_data st (touched st))) as H2.
  destruct (getCurrentRoom (set_data st (touched st))) as [y st2]. cbn [snd] in H2. subst st2.
  rewrite touched_idem. reflexivity.
Qed.

Lemma touched_unselected st : selectedCellKey st = None -> touched st = data st.
Proof. unfold touched. now intros ->. Qed.

Lemma touched_painted cfg st k :
  painted cfg (data st) -> selectedCellKey st = Some k -> k ∈ gridKeys cfg ->
  touched st = data st.
Proof.
  intros Hp Hk Hg. unfold touched. rewrite Hk.
  destruct (ensureCellAt_painted cfg (data st) k Hp Hg) as (x & _ & _ & ->).
  now destruct (truthy k).
Qed.

(** * Exact content of the store after the loops over a room *)

Lemma readCell_repaired d k : repairCell (readCell d k) = readCell d k.
Proof. apply repairCell_idem. Qed.

Lemma groupCell_cells cfg v d p :
  v <> RoomUndefined ->
  cells (groupCell cfg v d (cellKey p)) =
  <[cellKey p := with_roomId v (readCell d (cellKey p))]> (cells d).
Proof.
  intros Hv. unfold groupCell, updateCellAt. rewrite parseKey_cellKey.
  set (d1 := updateCell (Num (fst p)) (Num (snd p)) (with_roomId v) d).
  assert (H1 : cells d1 = <[cellKey p := with_roomId v (readCell d (cellKey p))]> (cells d)).
  { unfold d1, updateCell, ensureCell. cbn. apply insert_insert_eq. }
  destruct (rectForKey cfg (cellKey p)); [|exact H1].
  unfold setVisual. rewrite ensureCell_cells. fold (cellKey p).
  unfold readCell at 1. rewrite H1, lookup_insert_eq, insert_insert_eq.
  rewrite repairCell_with_roomId by done. now rewrite readCell_repaired.
Qed.

Lemma groupCell_fold_cells cfg v keys : forall d,
  v <> RoomUndefined -> (forall k, k ∈ keys -> exists p, k = cellKey p) ->
  forall m, cells (fold_left (groupCell cfg v) keys d) !! m =
            if decide (m ∈ keys) then Some (with_roomId v (readCell d m)) else cells d !! m.
Proof.
  induction keys as [|k0 ks IH]; intros d Hv Hk m; cbn [fold_left].
  - rewrite decide_False; [done|apply not_elem_of_nil].
  - destruct (Hk k0) as [p ->]; [apply list_elem_of_here|].
    rewrite IH; [|done|intros k Hin; apply Hk; now apply list_elem_of_further].
    destruct (groupCell_cellKey cfg v d p Hv) as (_ & _ & C).
    rewrite C, groupCell_cells by done.
    destruct (decide (m = cellKey p)) as [->|Hne].
    + rewrite (decide_True (P := cellKey p ∈ cellKey p :: ks)) by apply list_elem_of_here.
      rewrite lookup_insert_eq.
      destruct (decide (cellKey p ∈ ks)); [|done]. now destruct (readCell d (cellKey p)).
    + rewrite lookup_insert_ne by done. destruct (decide (m ∈ ks)) as [Hin|Hin].
      * rewrite decide_True; [done|now apply list_elem_of_further].
      * rewrite decide_False; [done|]. intros H. apply elem_of_cons in H as [?|?]; done.
Qed.





(** * Reading the current cell and room of a painted grid *)

Lemma truthy_nonempty s : s <> "" -> truthy s = true.
Proof. now destruct s. Qed.

Lemma getCurrentCell_painted cfg st k x :
  painted cfg (data st) -> selectedCellKey st = Some k -> k ∈ gridKeys cfg ->
  cells (data st) !! k = Some x ->
  getCurrentCell st = (Some x, st) /\ repairCell x = x /\ normalKey k = k.
Proof.
  intros Hp Hk Hg Hx. unfold getCurrentCell. rewrite Hk.
  destruct (gridKeys_cellKey cfg k Hg) as (p & -> & _).
  rewrite cellKey_truthy, normalKey_cellKey.
  destruct (ensureCellAt_painted cfg (data st) _ Hp Hg) as (y & Hy & Hr & ->).
  rewrite set_data_id. split; [congruence|]. split; [congruence|done].
Qed.

Lemma getCurrentRoom_painted cfg st k x id rm :
  painted cfg (data st) -> selectedCellKey st = Some k -> k ∈ gridKeys cfg ->
  cells (data st) !! k = Some x -> cell_roomId x = RoomId id -> id <> "" ->
  rooms (data st) !! id = Some rm ->
  getCurrentRoom st = (Some (id, rm), st).
Proof.
  intros Hp Hk Hg Hx Hid Hne Hrm. unfold getCurrentRoom.
  destruct (getCurrentCell_painted cfg st k x Hp Hk Hg Hx) as (-> & _).
  rewrite Hid. cbn [truthyRoom]. rewrite (truthy_nonempty id Hne), Hrm. reflexivity.
Qed.

Lemma writeCurrentCell_painted cfg k f x st :
  k ∈ gridKeys cfg -> repairCell (f x) = f x ->
  let st' := writeCurrentCell k f x st in
  let '(c, r) := parseKey k in
  set_data st' (setVisual c r (data st')) =
  set_data st (set_cells (data st) (<[k := f x]> (cells (data st)))) /\
  st' = set_data st (set_cells (data st) (<[k := f x]> (cells (data st)))).
Proof.
  intros Hg Hf. destruct (gridKeys_cellKey cfg k Hg) as (p & -> & _).
  unfold writeCurrentCell. rewrite parseKey_cellKey. fold (cellKey p). cbv zeta.
  split; [|reflexivity].
  unfold setVisual. rewrite (ensureCell_unchanged _ _ _ (f x)); [reflexivity| |exact Hf].
  fold (cellKey p). cbn. apply lookup_insert_eq.
Qed.

Lemma painted_set_rooms cfg d rs : painted cfg d -> painted cfg (set_rooms d rs).
Proof. intros H k Hk. exact (H k Hk). Qed.

Lemma repairCell_fixed x :
  repairCell x = x <-> cell_icon x <> None /\ cell_roomId x <> RoomUndefined.
Proof.
  destruct x as [c n [i|] [| |r]]; cbn; split; try (intros [? ?]; congruence);
    try (intros [=]); split; congruence.
Qed.

Lemma or_empty v : (if truthy v then v else "") = v.
Proof. now destruct v. Qed.

(** * The painted grid stays painted *)

Lemma keepsRecords_refl d : keepsRecords d d.
Proof. intros k H. exact H. Qed.

Lemma keepsRecords_trans d1 d2 d3 :
  keepsRecords d1 d2 -> keepsRecords d2 d3 -> keepsRecords d1 d3.
Proof. intros A B k H. apply B, A, H. Qed.

Lemma keepsRecords_painted cfg d d' : keepsRecords d d' -> painted cfg d -> painted cfg d'.
Proof. intros K Hp k Hk. apply K. exact (Hp k Hk). Qed.

Lemma ensureCell_keeps c r d : keepsRecords d (snd (ensureCell c r d)).
Proof. intros k H. apply ensureCell_repaired. now right. Qed.

Lemma ensureCellAt_keeps k d : keepsRecords d (snd (ensureCellAt k d)).
Proof. unfold ensureCellAt. destruct (parseKey k). apply ensureCell_keeps. Qed.

Lemma repaintKeys_keeps cfg keys : forall d, keepsRecords d (repaintKeys cfg keys d).
Proof.
  unfold repaintKeys. induction keys as [|k ks IH]; intros d; cbn [fold_left].
  - apply keepsRecords_refl.
  - eapply keepsRecords_trans; [|apply IH].
    destruct (parseKey k), (rectForKey cfg k); [apply ensureCell_keeps|apply keepsRecords_refl].
Qed.

Lemma anyInRoom_keeps keys : forall d, keepsRecords d (snd (anyInRoom keys d)).
Proof.
  induction keys as [|k ks IH]; intros d; cbn [anyInRoom]; [apply keepsRecords_refl|].
  pose proof (ensureCellAt_keeps k d) as H.
  destruct (ensureCellAt k d) as [x d1]. cbn [snd] in H.
  destruct (truthyRoom (cell_roomId x)); [exact H|].
  eapply keepsRecords_trans; [exact H|apply IH].
Qed.

Lemma touched_keeps st : keepsRecords (data st) (touched st).
Proof.
  unfold touched. destruct (selectedCellKey st) as [k|]; [|apply keepsRecords_refl].
  destruct (truthy k); [apply ensureCellAt_keeps|apply keepsRecords_refl].
Qed.

Lemma refreshButtons_keeps st : keepsRecords (data st) (data (refreshButtons st)).
Proof. rewrite refreshButtons_data. apply touched_keeps. Qed.

Lemma getCurrentCell_keeps st : keepsRecords (data st) (data (snd (getCurrentCell st))).
Proof. rewrite getCurrentCell_data. apply touched_keeps. Qed.

Lemma getCurrentRoom_keeps st : keepsRecords (data st) (data (snd (getCurrentRoom st))).
Proof. rewrite getCurrentRoom_data. apply touched_keeps. Qed.

Lemma selectCell_keeps k rect st : keepsRecords (data st) (data (selectCell k rect st)).
Proof.
  unfold selectCell.
  pose proof (ensureCellAt_keeps k (data (set_selection st (Some k) (Some rect)))) as H.
  destruct (ensureCellAt k (data (set_selection st (Some k) (Some rect)))) as [x d1].
  cbn [snd data set_selection] in H.
  eapply keepsRecords_trans; [exact H|].
  eapply keepsRecords_trans; [|apply refreshButtons_keeps].
  destruct (roomById (cell_roomId x) d1); apply keepsRecords_refl.
Qed.

Lemma clearStage_keeps cfg st : keepsRecords (data st) (data (clearStage cfg st)).
Proof. apply repaintKeys_keeps. Qed.

Lemma toggleStage_keeps cfg k st : keepsRecords (data st) (data (toggleStage cfg k st)).
Proof.
  unfold toggleStage. destruct (rectForKey cfg k); [|apply keepsRecords_refl].
  case_bool_decide; [|apply keepsRecords_refl].
  destruct (parseKey k). apply ensureCell_keeps.
Qed.

Lemma onEscape_keeps cfg st : keepsRecords (data st) (data (onEscape cfg st)).
Proof.
  unfold onEscape. eapply keepsRecords_trans; [apply clearStage_keeps|].
  destruct (editTarget (clearStage cfg st)); [apply keepsRecords_refl|].
  set (s2 := set_editTarget (clearStage cfg st) TargetCell).
  pose proof (getCurrentCell_keeps s2) as H.
  destruct (getCurrentCell s2) as [x st3]. cbn [snd] in H.
  eapply keepsRecords_trans; [exact H|apply refreshButtons_keeps].
Qed.

Lemma updateCell_keeps c r f d :
  (forall x, repairCell x = x -> repairCell (f x) = f x) ->
  keepsRecords d (updateCell c r f d).
Proof.
  intros Hf k (x & Hx & Hr). unfold repaired, updateCell, ensureCell.
  cbn [cells set_cells fst snd].
  destruct (decide (key c r = k)) as [<-|Hne].
  - rewrite lookup_insert_eq. eexists. split; [reflexivity|]. apply Hf, repairCell_idem.
  - rewrite lookup_insert_ne by exact Hne. rewrite lookup_insert_ne by exact Hne. eauto.
Qed.

Lemma with_roomId_repaired v x :
  v <> RoomUndefined -> repairCell x = x -> repairCell (with_roomId v x) = with_roomId v x.
Proof. intros Hv Hx. rewrite repairCell_with_roomId by done. now rewrite Hx. Qed.

Lemma groupCell_keeps cfg v d k : v <> RoomUndefined -> keepsRecords d (groupCell cfg v d k).
Proof.
  intros Hv. unfold groupCell, updateCellAt. destruct (parseKey k) as [c r].
  assert (H : keepsRecords d (updateCell c r (with_roomId v) d)).
  { apply updateCell_keeps. intros x. now apply with_roomId_repaired. }
  destruct (rectForKey cfg k); [|exact H].
  eapply keepsRecords_trans; [exact H|apply ensureCell_keeps].
Qed.

Lemma groupCell_fold_keeps cfg v keys : forall d,
  v <> RoomUndefined -> keepsRecords d (fold_left (groupCell cfg v) keys d).
Proof.
  induction keys as [|k ks IH]; intros d Hv; cbn [fold_left]; [apply keepsRecords_refl|].
  apply (keepsRecords_trans d (groupCell cfg v d k)); [now apply groupCell_keeps|now apply IH].
Qed.

Lemma dissolveRoom_keeps cfg id st : keepsRecords (data st) (data (dissolveRoom cfg id st)).
Proof.
  unfold dissolveRoom. destruct (roomById (RoomId id) (data st)) as [rm|];
    [|apply keepsRecords_refl].
  eapply keepsRecords_trans; [|apply refreshButtons_keeps].
  cbn [data set_editTarget set_data].
  intros k H. apply (groupCell_fold_keeps cfg RoomNull (room_cells rm) (data st)) in H;
    [exact H|discriminate].
Qed.

Lemma createRoom_keeps cfg st :
  keepsRecords (data st) (data (fst (createRoomFromStage cfg st))).
Proof.
  unfold createRoomFromStage. destruct (staged st) as [|k0 ks]; [apply keepsRecords_refl|].
  destruct (isContiguous (k0 :: ks)); cbn [negb fst]; [|apply keepsRecords_refl].
  pose proof (anyInRoom_keeps (k0 :: ks) (data st)) as Ha.
  destruct (anyInRoom (k0 :: ks) (data st)) as [[ex|] d1]; cbn [snd fst] in *; [exact Ha|].
  eapply keepsRecords_trans; [exact Ha|].
  eapply keepsRecords_trans; [|apply refreshButtons_keeps].
  cbn [data set_editTarget room_cells].
  set (id := "R" ++ string_of_Z (nextRoomId d1)).
  match goal with |- context [fold_left (assignRoom cfg id) ?l ?d2] =>
    set (d3 := fold_left (assignRoom cfg id) l d2);
    assert (K3 : keepsRecords d1 d3)
      by (intros k H; apply (groupCell_fold_keeps cfg (RoomId id) l d2); [discriminate|exact H])
  end.
  eapply keepsRecords_trans; [exact K3|].
  assert (K4 : keepsRecords d3 (data (clearStage cfg (set_data st d3))))
    by apply (clearStage_keeps cfg (set_data st d3)).
  eapply keepsRecords_trans; [exact K4|].
  destruct (sortKeys (k0 :: ks)) as [|f ?]; [apply keepsRecords_refl|].
  destruct (rectForKey cfg f); [apply selectCell_keeps|apply keepsRecords_refl].
Qed.

Lemma writeCurrentCell_keeps k f x st :
  repairCell (f x) = f x -> keepsRecords (data st) (data (writeCurrentCell k f x st)).
Proof.
  intros Hf m (y & Hy & Hr). unfold repaired, writeCurrentCell.
  destruct (parseKey k) as [c r]. cbn [data set_data cells set_cells].
  destruct (decide (key c r = m)) as [<-|Hne].
  - rewrite lookup_insert_eq. eauto.
  - rewrite lookup_insert_ne by exact Hne. eauto.
Qed.

Lemma updateRoom_keeps id f rm st : keepsRecords (data st) (data (updateRoom id f rm st)).
Proof. intros k H. exact H. Qed.

Lemma setVisual_keeps c r d : keepsRecords d (setVisual c r d).
Proof. apply ensureCell_keeps. Qed.

(** The three field writes of the panel keep a repaired record repaired. *)
Lemma with_c_repaired v x : repairCell x = x -> repairCell (with_c v x) = with_c v x.
Proof. intros H. apply repairCell_fixed. now apply repairCell_fixed in H. Qed.

Lemma with_n_repaired v x : repairCell x = x -> repairCell (with_n v x) = with_n v x.
Proof. intros H. apply repairCell_fixed. now apply repairCell_fixed in H. Qed.

Lemma with_icon_repaired v x : repairCell x = x -> repairCell (with_icon v x) = with_icon v x.
Proof.
  intros H. apply repairCell_fixed. apply repairCell_fixed in H as [_ ?]. now split.
Qed.

Lemma getCurrentCell_repaired st x st1 :
  getCurrentCell st = (Some x, st1) -> repairCell x = x.
Proof.
  intros H. apply getCurrentCell_spec in H as [_ H].
  destruct (H x eq_refl) as (k & _ & _ & _ & ->). apply readCell_repaired.
Qed.

Lemma applyColor_keeps cfg v st : keepsRecords (data st) (data (applyColor cfg v st)).
Proof.
  unfold applyColor. destruct (selectedCellKey st) as [k|]; [|apply keepsRecords_refl].
  destruct (selectedRect st); [|apply keepsRecords_refl].
  destruct (truthy k); cbn [negb]; [|apply keepsRecords_refl].
  pose proof (getCurrentCell_keeps st) as K1.
  destruct (getCurrentCell st) as [x st1] eqn:Ec. cbn [snd] in K1.
  eapply keepsRecords_trans; [exact K1|]. destruct (editTarget st1).
  - destruct x as [x|]; [|apply keepsRecords_refl].
    apply getCurrentCell_repaired in Ec.
    destruct (parseKey k) as [c r] eqn:Ep. cbn [data set_data].
    eapply keepsRecords_trans; [|apply setVisual_keeps].
    apply writeCurrentCell_keeps. now apply with_c_repaired.
  - pose proof (getCurrentRoom_keeps st1) as K2.
    destruct (getCurrentRoom st1) as [[[id rm]|] st2]; cbn [snd] in K2; [|exact K2].
    eapply keepsRecords_trans; [exact K2|]. cbn [data set_data].
    eapply keepsRecords_trans; [apply (updateRoom_keeps id (room_with_c v) rm st2)|].
    apply (repaintKeys_keeps cfg (room_cells rm)).
Qed.

Lemma applyIcon_keeps v st : keepsRecords (data st) (data (applyIcon v st)).
Proof.
  unfold applyIcon. destruct (selectedCellKey st) as [k|]; [|apply keepsRecords_refl].
  destruct (selectedRect st); [|apply keepsRecords_refl].
  destruct (truthy k); cbn [negb]; [|apply keepsRecords_refl].
  pose proof (getCurrentCell_keeps st) as K1.
  destruct (getCurrentCell st) as [x st1] eqn:Ec. cbn [snd] in K1.
  eapply keepsRecords_trans; [exact K1|]. destruct (editTarget st1).
  - destruct x as [x|]; [|apply keepsRecords_refl].
    apply getCurrentCell_repaired in Ec.
    apply writeCurrentCell_keeps. now apply with_icon_repaired.
  - pose proof (getCurrentRoom_keeps st1) as K2.
    destruct (getCurrentRoom st1) as [[[id rm]|] st2]; cbn [snd] in K2; exact K2.
Qed.

Lemma applyNotes_keeps v st : keepsRecords (data st) (data (applyNotes v st)).
Proof.
  unfold applyNotes. destruct (selectedCellKey st) as [k|]; [|apply keepsRecords_refl].
  destruct (truthy k); cbn [negb]; [|apply keepsRecords_refl].
  pose proof (getCurrentCell_keeps st) as K1.
  destruct (getCurrentCell st) as [x st1] eqn:Ec. cbn [snd] in K1.
  eapply keepsRecords_trans; [exact K1|]. destruct (editTarget st1).
  - destruct x as [x|]; [|apply keepsRecords_refl].
    apply getCurrentCell_repaired in Ec.
    apply writeCurrentCell_keeps. now apply with_n_repaired.
  - pose proof (getCurrentRoom_keeps st1) as K2.
    destruct (getCurrentRoom st1) as [[[id rm]|] st2]; cbn [snd] in K2; exact K2.
Qed.

Lemma applyRoomName_keeps v st : keepsRecords (data st) (data (applyRoomName v st)).
Proof.
  unfold applyRoomName. pose proof (getCurrentRoom_keeps st) as K2.
  destruct (getCurrentRoom st) as [[[id rm]|] st2]; cbn [snd] in K2; exact K2.
Qed.

Lemma applyRoomKind_keeps v st : keepsRecords (data st) (data (applyRoomKind v st)).
Proof.
  unfold applyRoomKind. pose proof (getCurrentRoom_keeps st) as K2.
  destruct (getCurrentRoom st) as [[[id rm]|] st2]; cbn [snd] in K2; exact K2.
Qed.

Lemma clearSelectedCell_keeps st : keepsRecords (data st) (data (fst (clearSelectedCell st))).
Proof.
  unfold clearSelectedCell. destruct (selectedCellKey st) as [k|]; [|apply keepsRecords_refl].
  destruct (selectedRect st); [|apply keepsRecords_refl].
  destruct (truthy k); cbn [negb]; [|apply keepsRecords_refl].
  pose proof (getCurrentCell_keeps st) as K1.
  destruct (getCurrentCell st) as [x st1] eqn:Ec. cbn [snd] in K1.
  destruct x as [x|]; [|exact K1].
  destruct (truthyRoom (cell_roomId x)); [exact K1|].
  eapply keepsRecords_trans; [exact K1|].
  apply getCurrentCell_repaired in Ec.
  destruct (parseKey k) as [c r] eqn:Ep. cbn [fst data set_data].
  eapply keepsRecords_trans; [|apply setVisual_keeps].
  apply writeCurrentCell_keeps.
  now apply with_n_repaired, with_icon_repaired, with_c_repaired.
Qed.

Lemma dissolve_current_keeps cfg ok st :
  keepsRecords (data st) (data (onDissolveClick cfg ok st)).
Proof.
  unfold onDissolveClick. pose proof (getCurrentRoom_keeps st) as K2.
  destruct (getCurrentRoom st) as [[[id rm]|] st2]; cbn [snd] in K2; [|exact K2].
  destruct ok; [|exact K2].
  eapply keepsRecords_trans; [exact K2|apply dissolveRoom_keeps].
Qed.

Lemma afterReplace_painted cfg st : painted cfg (data (afterReplace cfg st)).
Proof.
  unfold afterReplace.
  eapply keepsRecords_painted; [apply refreshButtons_keeps|].
  cbn [data set_selection].
  eapply keepsRecords_painted; [apply clearStage_keeps|].
  apply rebuildAll_painted.
Qed.

Lemma step_painted cfg a st : painted cfg (data st) -> painted cfg (data (step cfg a st)).
Proof.
  intros Hp. destruct a; cbn [step].
  - destruct (rectForKey cfg k); [|exact Hp].
    eapply keepsRecords_painted; [apply selectCell_keeps|exact Hp].
  - eapply keepsRecords_painted; [apply toggleStage_keeps|exact Hp].
  - eapply keepsRecords_painted; [apply createRoom_keeps|exact Hp].
  - eapply keepsRecords_painted; [apply dissolve_current_keeps|exact Hp].
  - rewrite deleteCurrentRoom_eq.
    eapply keepsRecords_painted; [apply dissolve_current_keeps|exact Hp].
  - eapply keepsRecords_painted; [apply applyColor_keeps|exact Hp].
  - eapply keepsRecords_painted; [apply applyIcon_keeps|exact Hp].
  - eapply keepsRecords_painted; [apply applyNotes_keeps|exact Hp].
  - eapply keepsRecords_painted; [apply applyRoomName_keeps|exact Hp].
  - eapply keepsRecords_painted; [apply applyRoomKind_keeps|exact Hp].
  - eapply keepsRecords_painted; [apply clearSelectedCell_keeps|exact Hp].
  - pose proof (importedStore_doImport cfg file st) as H.
    destruct (importedStore file); [|now rewrite H].
    rewrite H. apply afterReplace_painted.
  - unfold doWipe. destruct ok; [apply afterReplace_painted|exact Hp].
  - eapply keepsRecords_painted; [apply onEscape_keeps|exact Hp].
  - unfold onCellLeave. destruct (rectForKey cfg k); [|exact Hp].
    destruct (_ && _); [|exact Hp]. destruct (parseKey k) as [c r].
    eapply keepsRecords_painted; [apply (setVisual_keeps c r)|exact Hp].
  - unfold onRoomItemClick. destruct (rooms (data st) !! id) as [rm|]; [|exact Hp].
    eapply keepsRecords_painted; [apply refreshButtons_keeps|]. cbn [data set_editTarget].
    destruct (room_cells rm) as [|k ?]; [exact Hp|].
    destruct (rectForKey cfg k); [|exact Hp].
    eapply keepsRecords_painted; [apply selectCell_keeps|exact Hp].
  - pose proof (loadedStore_loadState cfg state st) as H.
    destruct (loadedStore state); rewrite H; [apply rebuildAll_painted|exact Hp].
  - eapply keepsRecords_painted; [apply clearStage_keeps|exact Hp].
Qed.

Lemma applyColor_staged cfg v st : staged (applyColor cfg v st) = staged st.
Proof.
  unfold applyColor. destruct (selectedCellKey st) as [k|]; [|done].
  destruct (selectedRect st); [|done]. destruct (truthy k); cbn [negb]; [|done].
  pose proof (getCurrentCell_same st) as (_ & _ & _ & _ & S1).
  destruct (getCurrentCell st) as [x st1]. cbn [snd] in S1. destruct (editTarget st1).
  - destruct x as [x|]; [|done]. destruct (parseKey k) as [c r] eqn:Ep.
    cbn [staged set_data]. now rewrite writeCurrentCell_staged.
  - pose proof (getCurrentRoom_same st1) as (_ & _ & _ & _ & S2).
    destruct (getCurrentRoom st1) as [[[id rm]|] st2]; cbn [snd] in S2; [|congruence].
    cbn [staged set_data updateRoom]. congruence.
Qed.

Lemma applyIcon_staged v st : staged (applyIcon v st) = staged st.
Proof.
  unfold applyIcon. destruct (selectedCellKey st) as [k|]; [|done].
  destruct (selectedRect st); [|done]. destruct (truthy k); cbn [negb]; [|done].
  pose proof (getCurrentCell_same st) as (_ & _ & _ & _ & S1).
  destruct (getCurrentCell st) as [x st1]. cbn [snd] in S1. destruct (editTarget st1).
  - destruct x as [x|]; [|done]. now rewrite writeCurrentCell_staged.
  - pose proof (getCurrentRoom_same st1) as (_ & _ & _ & _ & S2).
    destruct (getCurrentRoom st1) as [[[id rm]|] st2]; cbn [snd] in S2; [|congruence].
    cbn [staged set_data updateRoom]. congruence.
Qed.

Lemma applyNotes_staged v st : staged (applyNotes v st) = staged st.
Proof.
  unfold applyNotes. destruct (selectedCellKey st) as [k|]; [|done].
  destruct (truthy k); cbn [negb]; [|done].
  pose proof (getCurrentCell_same st) as (_ & _ & _ & _ & S1).
  destruct (getCurrentCell st) as [x st1]. cbn [snd] in S1. destruct (editTarget st1).
  - destruct x as [x|]; [|done]. now rewrite writeCurrentCell_staged.
  - pose proof (getCurrentRoom_same st1) as (_ & _ & _ & _ & S2).
    destruct (getCurrentRoom st1) as [[[id rm]|] st2]; cbn [snd] in S2; [|congruence].
    cbn [staged set_data updateRoom]. congruence.
Qed.

Lemma applyRoomName_staged v st : staged (applyRoomName v st) = staged st.
Proof.
  unfold applyRoomName. pose proof (getCurrentRoom_same st) as (_ & _ & _ & _ & S2).
  destruct (getCurrentRoom st) as [[[id rm]|] st2]; cbn [snd] in S2; exact S2.
Qed.

Lemma applyRoomKind_staged v st : staged (applyRoomKind v st) = staged st.
Proof.
  unfold applyRoomKind. pose proof (getCurrentRoom_same st) as (_ & _ & _ & _ & S2).
  destruct (getCurrentRoom st) as [[[id rm]|] st2]; cbn [snd] in S2; exact S2.
Qed.

Lemma clearSelectedCell_staged st : staged (fst (clearSelectedCell st)) = staged st.
Proof.
  unfold clearSelectedCell. destruct (selectedCellKey st) as [k|]; [|done].
  destruct (selectedRect st); [|done]. destruct (truthy k); cbn [negb]; [|done].
  pose proof (getCurrentCell_same st) as (_ & _ & _ & _ & S1).
  destruct (getCurrentCell st) as [x st1]. cbn [snd] in S1.
  destruct x as [x|]; [|done]. destruct (truthyRoom (cell_roomId x)); [done|].
  destruct (parseKey k) as [c r] eqn:Ep. cbn [fst staged set_data].
  now rewrite writeCurrentCell_staged.
Qed.

Lemma step_staged cfg a st :
  (forall k, k ∈ staged st -> k ∈ gridKeys cfg) ->
  forall k, k ∈ staged (step cfg a st) -> k ∈ gridKeys cfg.
Proof.
  intros Hs. destruct a; cbn [step].
  - destruct (rectForKey cfg k); [|exact Hs].
    destruct (selectCell_data k s st) as (_ & -> & _). exact Hs.
  - destruct (toggleStage_data cfg k st) as (_ & H).
    intros x Hx. destruct (H x Hx) as [?|[-> ?]]; auto.
  - destruct (createRoom_cases cfg st) as [Hf|(Hne & Hc & Hany)].
    + destruct (createRoom_failure_same cfg st Hf) as (_ & _ & _ & _ & ->). exact Hs.
    + assert (Hcan : forall k, k ∈ staged st -> exists p, k = cellKey p).
      { intros k Hk. destruct (gridKeys_cellKey cfg k (Hs k Hk)) as (p & -> & _). eauto. }
      destruct (createRoom_created cfg st Hne Hc Hany Hcan) as (_ & -> & _).
      intros k Hk. by apply elem_of_nil in Hk.
  - unfold onDissolveClick.
    pose proof (getCurrentRoom_same st) as (_ & _ & _ & _ & S).
    destruct (getCurrentRoom st) as [[[id rm]|] st1]; cbn [snd] in S; [|now rewrite S].
    destruct ok; [rewrite dissolveRoom_staged|]; now rewrite S.
  - unfold deleteCurrentRoom.
    pose proof (getCurrentRoom_same st) as (_ & _ & _ & _ & S).
    destruct (getCurrentRoom st) as [[[id rm]|] st1]; cbn [snd] in S; [|now rewrite S].
    destruct ok; [rewrite dissolveRoom_staged|]; now rewrite S.
  - now rewrite applyColor_staged.
  - now rewrite applyIcon_staged.
  - now rewrite applyNotes_staged.
  - now rewrite applyRoomName_staged.
  - now rewrite applyRoomKind_staged.
  - now rewrite clearSelectedCell_staged.
  - pose proof (importedStore_doImport cfg file st) as H.
    destruct (importedStore file) as [d|]; [|now rewrite H].
    rewrite H. cbn [fst]. destruct (afterReplace_data cfg (set_data st d)) as [_ ->].
    intros k Hk. by apply elem_of_nil in Hk.
  - unfold doWipe. destruct ok; [|exact Hs].
    destruct (afterReplace_data cfg (set_data st emptyStore)) as [_ ->].
    intros k Hk. by apply elem_of_nil in Hk.
  - destruct (onEscape_data cfg st) as [_ ->]. intros k Hk. by apply elem_of_nil in Hk.
  - destruct (onCellLeave_same cfg k st) as (_ & _ & _ & _ & ->). exact Hs.
  - destruct (onRoomItemClick_data cfg id st) as [_ ->]. exact Hs.
  - pose proof (loadedStore_loadState cfg state st) as H.
    destruct (loadedStore state); rewrite H; exact Hs.
  - destruct (clearStage_data cfg st) as (_ & -> & _). intros k Hk. by apply elem_of_nil in Hk.
Qed.

(** In every tracker reached from its creation the grid is painted and
    the staged keys have rects. *)
Lemma run_painted cfg acts : forall st,
  painted cfg (data st) -> (forall k, k ∈ staged st -> k ∈ gridKeys cfg) ->
  painted cfg (data (run cfg acts st)) /\
  forall k, k ∈ staged (run cfg acts st) -> k ∈ gridKeys cfg.
Proof.
  unfold run. induction acts as [|a acts IH]; intros st Hp Hs; [now split|].
  cbn [fold_left]. apply IH; [now apply step_painted|now apply step_staged].
Qed.

Lemma reached_painted cfg loaded acts :
  let st := run cfg acts (createDungeonTracker cfg loaded) in
  painted cfg (data st) /\ forall k, k ∈ staged st -> k ∈ gridKeys cfg.
Proof.
  apply run_painted; [apply createDungeonTracker_painted|].
  intros k Hk. by apply elem_of_nil in Hk.
Qed.

(** So, in every tracker reached from its creation, a room creation that
    fails changes nothing at all, and importing the tracker's own export
    gives back the same store. *)
Lemma reached_createRoom_failure cfg loaded acts :
  let st := run cfg acts (createDungeonTracker cfg loaded) in
  creationFailed st (snd (createRoomFromStage cfg st)) ->
  fst (createRoomFromStage cfg st) = st.
Proof.
  cbv zeta. intros Hf. destruct (reached_painted cfg loaded acts) as [Hp Hs].
  now apply createRoom_failure_unchanged.
Qed.

Lemma doImport_own_export cfg st :
  doImport cfg (Parsed (Some (doExport cfg st))) st = (afterReplace cfg st, Silent).
Proof.
  unfold doImport, doExport.
  cbn [mbind option_bind snap_data snap_cells snap_rooms snap_meta].
  now rewrite store_eta, set_data_id.
Qed.

Lemma afterReplace_store cfg st : data (afterReplace cfg st) = rebuildAll cfg (data st).
Proof.
  unfold afterReplace. rewrite refreshButtons_data.
  rewrite touched_unselected by reflexivity.
  cbn [data set_data set_selection clearStage set_staged].
  apply repaintKeys_painted, rebuildAll_painted.
Qed.

Lemma reached_round_trip cfg loaded acts :
  let st := run cfg acts (createDungeonTracker cfg loaded) in
  data (fst (doImport cfg (Parsed (Some (doExport cfg st))) st)) = data st.
Proof.
  cbv zeta. rewrite doImport_own_export. cbn [fst]. rewrite afterReplace_store.
  apply rebuildAll_unchanged, (reached_painted cfg loaded acts).
Qed.

(** * Claims on the store *)


(** The trackers used as concrete inputs are painted. *)
Lemma roomEditState_painted : painted smallConfig (data roomEditState).
Proof. painted_by_computation. Qed.


Lemma origin_in_grid : "0,0" ∈ gridKeys smallConfig.
Proof. vm_compute. apply list_elem_of_here. Qed.















(** C6. If the parsed file has no [data] member, or its [data] lacks
    [cells] or [rooms], [doImport] reports an invalid file and returns the
    tracker it was given: cells, rooms, counter and everything else are
    untouched. *)
Theorem import_rejected cfg obj st :
  lacksMapping obj -> doImport cfg (Parsed obj) st = (st, AlertInvalidFile).
Proof.
  unfold lacksMapping, doImport. destruct (obj ≫= snap_data) as [sd|]; [|done].
  intros [H|H]; rewrite H; [done|]. now destruct (snap_cells sd).
Qed.

(** C6 at a file without rooms. *)
Lemma import_rejected_witness :
  lacksMapping roomlessFile /\
  doImport smallConfig (Parsed roomlessFile) roomEditState = (roomEditState, AlertInvalidFile).
Proof.
  assert (H : lacksMapping roomlessFile) by (right; reflexivity).
  split; [exact H|]. exact (import_rejected smallConfig roomlessFile roomEditState H).
Defined.




(** C10. For the room of the selected cell, [applyRoomName] with the
    empty string leaves the name, and the whole rooms mapping, as it was;
    with a non-empty string it replaces the name and nothing else in the
    room. *)
Theorem applyRoomName_empty st id rm :
  fst (getCurrentRoom st) = Some (id, rm) ->
  rooms (data (applyRoomName "" st)) = rooms (data st) /\
  forall name, name <> "" ->
    rooms (data (applyRoomName name st)) = <[id := room_with_name name rm]> (rooms (data st)).
Proof.
  intros Hcur. unfold applyRoomName.
  destruct (getCurrentRoom st) as [cur st1] eqn:Er. cbn [fst] in Hcur. subst cur.
  apply getCurrentRoom_spec in Er as [((_ & S & _) & _) Hr].
  destruct (Hr id rm eq_refl) as (Hrm & _).
  unfold updateRoom. cbn [data set_data set_rooms rooms truthy]. rewrite S in *. split.
  - destruct rm. cbn. now apply insert_id.
  - intros name Hne. now rewrite truthy_nonempty.
Qed.

(** C10 at the tracker whose selected cell belongs to room R1. *)
Lemma applyRoomName_empty_witness :
  option_map room_name (rooms (data (applyRoomName "" roomEditState)) !! "R1") = Some "Room R1" /\
  option_map room_name (rooms (data (applyRoomName "Crypt" roomEditState)) !! "R1")
    = Some "Crypt".
Proof.
  destruct (applyRoomName_empty roomEditState "R1" originRoom) as [H1 H2];
    [vm_compute; reflexivity|].
  rewrite H1, H2 by discriminate. split; [vm_compute; reflexivity|].
  rewrite lookup_insert_eq. reflexivity.
Defined.

(** * Further properties of the store *)

(** ** Keys and cell access *)

(** X1. A key built from integer coordinates is read back by
    [split(",").map(Number)] as the same coordinates, and two keys are
    equal only when both coordinates are. *)
Theorem key_round_trip (c r c' r' : Z) :
  parseKey (key (Num c) (Num r)) = (Num c, Num r) /\
  (key (Num c) (Num r) = key (Num c') (Num r') <-> c = c' /\ r = r').
Proof.
  split; [exact (parseKey_cellKey (c, r))|]. split.
  - intros H. apply (cellKey_inj (c, r) (c', r')) in H. now inversion H.
  - now intros [-> ->].
Qed.

(** X2. [ensureCell] returns the record it leaves under the key: the
    default record when there was none, otherwise the stored one with an
    absent icon or room reference filled in. No other key, no room and
    not the counter is touched, and a second call changes nothing. *)
Theorem ensureCell_creates_once c r d :
  let x := fst (ensureCell c r d) in
  let d' := snd (ensureCell c r d) in
  cells d' !! key c r = Some x /\
  cell_icon x <> None /\ cell_roomId x <> RoomUndefined /\
  (cells d !! key c r = None -> x = freshCell) /\
  (forall y, cells d !! key c r = Some y ->
     cell_c x = cell_c y /\ cell_n x = cell_n y /\
     (cell_icon y <> None -> cell_icon x = cell_icon y) /\
     (cell_roomId y <> RoomUndefined -> cell_roomId x = cell_roomId y)) /\
  (forall k, k <> key c r -> cells d' !! k = cells d !! k) /\
  rooms d' = rooms d /\ nextRoomId d' = nextRoomId d /\
  ensureCell c r d' = (x, d').
Proof.
  cbv zeta. unfold ensureCell. cbn [fst snd cells set_cells rooms nextRoomId].
  rewrite lookup_insert_eq.
  split; [reflexivity|]. split; [|split; [|split; [|split; [|split; [|split; [|split]]]]]].
  - unfold repairCell. cbn. destruct (cell_icon _); discriminate.
  - unfold repairCell. cbn. destruct (cell_roomId _); discriminate.
  - intros ->. reflexivity.
  - intros y ->. unfold repairCell. cbn. repeat split.
    + destruct (cell_icon y); [reflexivity|congruence].
    + destruct (cell_roomId y); [congruence|reflexivity|reflexivity].
  - intros k Hk. now rewrite lookup_insert_ne.
  - reflexivity.
  - reflexivity.
  - rewrite repairCell_idem. unfold set_cells. cbn. now rewrite insert_insert_eq.
Qed.

(** ** The grid *)

Lemma elem_of_gridCoords cfg c r :
  (c, r) ∈ gridCoords cfg <-> 0 <= c < COLS cfg /\ 0 <= r < ROWS cfg.
Proof.
  unfold gridCoords. rewrite list_elem_of_In, in_flat_map. split.
  - intros (r0 & Hr & Hc). apply list_elem_of_In in Hr. apply elem_of_seqZ in Hr.
    apply in_map_iff in Hc as (c0 & [= <- <-] & Hc).
    apply list_elem_of_In in Hc. apply elem_of_seqZ in Hc. lia.
  - intros [Hc Hr]. exists r. split.
    + apply list_elem_of_In, elem_of_seqZ. lia.
    + apply in_map_iff. exists c. split; [reflexivity|].
      apply list_elem_of_In, elem_of_seqZ. lia.
Qed.

Lemma NoDup_flat_map {A B : Type} (f : A -> list B) (l : list A) :
  NoDup l -> (forall x, x ∈ l -> NoDup (f x)) ->
  (forall x y b, x ∈ l -> y ∈ l -> b ∈ f x -> b ∈ f y -> x = y) ->
  NoDup (flat_map f l).
Proof.
  induction 1 as [|a l Ha Hl IH]; intros Hf Hd; cbn [flat_map]; [constructor|].
  apply NoDup_app. split; [apply Hf; left|]. split.
  - intros b Hb Hb'. apply list_elem_of_In, in_flat_map in Hb' as (y & Hy & Hby).
    apply list_elem_of_In in Hy, Hby.
    assert (a = y) by (apply (Hd a y b); [left|now right|exact Hb|exact Hby]).
    subst. contradiction.
  - apply IH.
    + intros x Hx. apply Hf. now right.
    + intros x y b Hx Hy. apply Hd; now right.
Qed.

Lemma NoDup_gridCoords cfg : NoDup (gridCoords cfg).
Proof.
  unfold gridCoords. apply NoDup_flat_map.
  - apply NoDup_seqZ.
  - intros r _.
    assert (Hinj : Inj eq eq (fun c : Z => (c, r))) by (intros ? ? [= ->]; reflexivity).
    apply (NoDup_fmap_2 (fun c => (c, r))). apply NoDup_seqZ.
  - intros x y [c r] _ _ Hx Hy.
    apply list_elem_of_fmap in Hx as (? & [= _ ->] & _).
    apply list_elem_of_fmap in Hy as (? & [= _ ->] & _). reflexivity.
Qed.

Lemma NoDup_gridKeys cfg : NoDup (gridKeys cfg).
Proof.
  assert (Hinj : Inj eq eq cellKey) by (intros p q; apply cellKey_inj).
  unfold gridKeys. apply (NoDup_fmap_2 cellKey). apply NoDup_gridCoords.
Qed.

Lemma length_gridCoords cfg :
  length (gridCoords cfg) = (Z.to_nat (COLS cfg) * Z.to_nat (ROWS cfg))%nat.
Proof.
  unfold gridCoords.
  rewrite (flat_map_constant_length (c := Z.to_nat (COLS cfg))).
  - rewrite length_seqZ. lia.
  - intros r _. now rewrite length_map, length_seqZ.
Qed.

(** X3. [buildSquareSvgGrid] registers a rect under a key exactly for the
    keys of the cells with [0 <= c < COLS] and [0 <= r < ROWS]; the keys
    are pairwise distinct and there are [COLS * ROWS] of them (its
    [count]). *)
Theorem grid_registry cfg :
  (forall k, is_Some (rectForKey cfg k) <->
     exists c r, 0 <= c < COLS cfg /\ 0 <= r < ROWS cfg /\ k = key (Num c) (Num r)) /\
  NoDup (gridKeys cfg) /\
  length (gridKeys cfg) = (Z.to_nat (COLS cfg) * Z.to_nat (ROWS cfg))%nat.
Proof.
  split; [|split; [apply NoDup_gridKeys|]].
  - intros k. unfold rectForKey. split.
    + intros [rect H]. case_bool_decide as Hk; [|discriminate].
      apply gridKeys_cellKey in Hk as ([c r] & -> & Hp).
      apply elem_of_gridCoords in Hp. exists c, r. tauto.
    + intros (c & r & Hc & Hr & ->). rewrite bool_decide_eq_true_2; [eauto|].
      unfold gridKeys. apply list_elem_of_fmap. exists (c, r). split; [reflexivity|].
      now apply elem_of_gridCoords.
  - unfold gridKeys. rewrite length_map. apply length_gridCoords.
Qed.

(** ** Painting the grid *)

Lemma paint_fold_lookup (l : list (Z * Z)) : forall d k,
  cells (fold_left (fun acc p => setVisual (Num (fst p)) (Num (snd p)) acc) l d) !! k =
  if decide (k ∈ map cellKey l) then Some (readCell d k) else cells d !! k.
Proof.
  induction l as [|p l IH]; intros d k; cbn [fold_left map].
  - rewrite decide_False; [reflexivity|]. intros H. by apply elem_of_nil in H.
  - rewrite IH. unfold setVisual.
    destruct (ensureCell_sameReading (Num (fst p)) (Num (snd p)) d) as (S1 & _ & _).
    rewrite S1, ensureCell_cells.
    change (key (Num (fst p)) (Num (snd p))) with (cellKey p).
    destruct (decide (k ∈ map cellKey l)) as [Hin|Hin].
    + rewrite decide_True; [reflexivity|]. now right.
    + destruct (decide (k = cellKey p)) as [->|Hne].
      * rewrite decide_True by left. now rewrite lookup_insert_eq.
      * rewrite decide_False.
        -- now rewrite lookup_insert_ne.
        -- intros H. apply elem_of_cons in H as [?|?]; contradiction.
Qed.

Lemma rebuildAll_lookup cfg d k :
  cells (rebuildAll cfg d) !! k =
  if decide (k ∈ gridKeys cfg) then Some (readCell d k) else cells d !! k.
Proof. rewrite rebuildAll_eq_paint. apply paint_fold_lookup. Qed.

(** X4. With nothing in storage, [createDungeonTracker] returns a tracker
    whose store holds the default record for every cell of the grid and
    nothing else: no other record, no room, counter 1, nothing selected
    and nothing staged. *)
Theorem initTracker_store cfg :
  let st := initTracker cfg in
  (forall k, cells (data st) !! k =
             if decide (k ∈ gridKeys cfg) then Some freshCell else None) /\
  rooms (data st) = ∅ /\ nextRoomId (data st) = 1 /\
  editTarget st = TargetCell /\ selectedCellKey st = None /\
  selectedRect st = None /\ staged st = [].
Proof.
  cbv zeta. unfold initTracker. rewrite createDungeonTracker_data.
  destruct (rebuildAll_sameReading cfg emptyStore) as (_ & S2 & S3).
  split; [|now rewrite S2, S3].
  intros k. rewrite rebuildAll_lookup. destruct (decide _); reflexivity.
Qed.

(** X5. [rebuildAll] gives every cell of the grid a record, the one
    [ensureCell] returns for it, and changes nothing else; repainting a
    second time changes nothing. *)
Theorem rebuildAll_spec cfg d :
  (forall k, cells (rebuildAll cfg d) !! k =
             if decide (k ∈ gridKeys cfg) then Some (readCell d k) else cells d !! k) /\
  rooms (rebuildAll cfg d) = rooms d /\
  nextRoomId (rebuildAll cfg d) = nextRoomId d /\
  rebuildAll cfg (rebuildAll cfg d) = rebuildAll cfg d.
Proof.
  destruct (rebuildAll_sameReading cfg d) as (_ & S2 & S3).
  split; [apply rebuildAll_lookup|]. split; [exact S2|]. split; [exact S3|].
  apply rebuildAll_unchanged, rebuildAll_painted.
Qed.

(** ** Staging *)

Lemma unstage_absent k (l : list string) : k ∉ l -> unstage k l = l.
Proof.
  unfold unstage. induction l as [|x l IH]; intros Hk; [reflexivity|].
  rewrite filter_cons_True.
  - f_equal. apply IH. intros H. apply Hk. now right.
  - intros ->. apply Hk. left.
Qed.

Lemma unstage_snoc k (l : list string) : k ∉ l -> unstage k (l ++ [k]) = l.
Proof.
  intros Hk. unfold unstage. rewrite filter_app. fold (unstage k l).
  rewrite (unstage_absent k l Hk), filter_cons_False, filter_nil by (intros H; now apply H).
  apply app_nil_r.
Qed.

Lemma toggleStage_selection cfg k st :
  sameSelection st (toggleStage cfg k st) /\
  editTarget (toggleStage cfg k st) = editTarget st.
Proof.
  unfold toggleStage, sameSelection. destruct (rectForKey cfg k); [|done].
  case_bool_decide; [|done]. now destruct (parseKey k).
Qed.

Lemma toggleStage_staged cfg k st :
  k ∈ gridKeys cfg ->
  staged (toggleStage cfg k st) =
  if decide (k ∈ staged st) then unstage k (staged st) else (staged st ++ [k])%list.
Proof.
  intros Hk. unfold toggleStage. rewrite (rectForKey_grid cfg k Hk).
  case_bool_decide.
  - rewrite decide_True by done. now destruct (parseKey k).
  - now rewrite decide_False by done.
Qed.

Lemma toggleStage_NoDup cfg k st : NoDup (staged st) -> NoDup (staged (toggleStage cfg k st)).
Proof.
  intros Hnd. unfold toggleStage. destruct (rectForKey cfg k); [|done].
  case_bool_decide as Hin.
  - destruct (parseKey k). cbn [staged set_data set_staged]. unfold unstage.
    now apply NoDup_filter.
  - cbn [staged set_staged]. apply NoDup_app. split; [done|]. split.
    + intros x Hx Hx'. apply list_elem_of_singleton in Hx'. now subst.
    + apply NoDup_singleton.
Qed.

(** X6. [toggleStage] does nothing for a key without a rect. For a key of
    the grid it flips the membership of that key in the stage and of no
    other key, keeps the stage free of duplicates and changes no reading
    of the store; staging a key and unstaging it again gives back the
    tracker one started with when the grid is painted. *)
Theorem toggleStage_spec cfg k st :
  let st' := toggleStage cfg k st in
  (k ∉ gridKeys cfg -> st' = st) /\
  (k ∈ gridKeys cfg -> NoDup (staged st) ->
     NoDup (staged st') /\
     (k ∈ staged st' <-> k ∉ staged st) /\
     (forall x, x <> k -> (x ∈ staged st' <-> x ∈ staged st)) /\
     sameReading (data st) (data st') /\
     editTarget st' = editTarget st /\
     selectedCellKey st' = selectedCellKey st /\ selectedRect st' = selectedRect st) /\
  (k ∈ gridKeys cfg -> k ∉ staged st -> painted cfg (data st) ->
     toggleStage cfg k st' = st).
Proof.
  cbv zeta. split; [|split].
  - intros Hk. unfold toggleStage, rectForKey. now rewrite bool_decide_eq_false_2.
  - intros Hk Hnd. split; [now apply toggleStage_NoDup|].
    destruct (toggleStage_selection cfg k st) as [[S1 S2] S3].
    destruct (toggleStage_data cfg k st) as [SR _].
    rewrite (toggleStage_staged cfg k st Hk).
    split; [|split; [|exact (conj SR (conj S3 (conj S1 S2)))]].
    + destruct (decide (k ∈ staged st)) as [Hin|Hin].
      * unfold unstage. rewrite list_elem_of_filter. tauto.
      * rewrite elem_of_app, list_elem_of_singleton. tauto.
    + intros x Hx. destruct (decide (k ∈ staged st)) as [Hin|Hin].
      * unfold unstage. rewrite list_elem_of_filter. tauto.
      * rewrite elem_of_app, list_elem_of_singleton. tauto.
  - intros Hk Hin Hp.
    assert (E1 : toggleStage cfg k st = set_staged st (staged st ++ [k])%list).
    { unfold toggleStage. rewrite (rectForKey_grid cfg k Hk).
      now rewrite bool_decide_eq_false_2. }
    rewrite E1. unfold toggleStage. rewrite (rectForKey_grid cfg k Hk).
    cbn [staged set_staged]. rewrite bool_decide_eq_true_2.
    2:{ apply elem_of_app. right. apply list_elem_of_singleton. reflexivity. }
    rewrite (unstage_snoc k (staged st) Hin).
    destruct (ensureCellAt_painted cfg (data st) k Hp Hk) as (x & _ & _ & E).
    unfold ensureCellAt in E. destruct (parseKey k) as [c r].
    unfold setVisual. cbn [data set_staged]. rewrite E. cbn [snd].
    destruct st; reflexivity.
Qed.

Lemma toggleStage_spec_witness :
  let st := initTracker smallConfig in
  let st' := toggleStage smallConfig "0,0" st in
  ("0,0" ∈ staged st' <-> "0,0" ∉ staged st) /\
  toggleStage smallConfig "0,0" st' = st.
Proof.
  cbv zeta.
  destruct (toggleStage_spec smallConfig "0,0" (initTracker smallConfig)) as (_ & H2 & H3).
  split.
  - apply H2; [exact origin_in_grid|constructor].
  - apply H3; [exact origin_in_grid| |apply createDungeonTracker_painted].
    cbn. intros H. by apply elem_of_nil in H.
Defined.

(** ** Selection *)

Lemma sameSelection_refl st : sameSelection st st.
Proof. now split. Qed.

Lemma sameSelection_trans s1 s2 s3 :
  sameSelection s1 s2 -> sameSelection s2 s3 -> sameSelection s1 s3.
Proof. intros [A B] [C D]. split; congruence. Qed.

Lemma sameTracker_selection st st' : sameTracker st st' -> sameSelection st st'.
Proof. intros (_ & _ & A & B & _). now split. Qed.

Lemma writeCurrentCell_selection k f x st : sameSelection st (writeCurrentCell k f x st).
Proof. unfold writeCurrentCell. destruct (parseKey k). now split. Qed.

Lemma applyColor_selection cfg v st : sameSelection st (applyColor cfg v st).
Proof.
  unfold applyColor. destruct (selectedCellKey st) as [k|] eqn:Ek; [|apply sameSelection_refl].
  destruct (selectedRect st) eqn:Er; [|apply sameSelection_refl].
  destruct (truthy k); cbn [negb]; [|apply sameSelection_refl].
  pose proof (sameTracker_selection _ _ (getCurrentCell_same st)) as S1.
  destruct (getCurrentCell st) as [x st1]. cbn [snd] in S1. destruct (editTarget st1).
  - destruct x as [x|]; [|exact S1]. destruct (parseKey k) as [c r] eqn:Ep.
    eapply sameSelection_trans; [exact S1|]. apply (writeCurrentCell_selection k _ x st1).
  - pose proof (sameTracker_selection _ _ (getCurrentRoom_same st1)) as S2.
    destruct (getCurrentRoom st1) as [[[id rm]|] st2]; cbn [snd] in S2;
      eapply sameSelection_trans; try exact S1; exact S2.
Qed.

Lemma applyIcon_selection v st : sameSelection st (applyIcon v st).
Proof.
  unfold applyIcon. destruct (selectedCellKey st) as [k|] eqn:Ek; [|apply sameSelection_refl].
  destruct (selectedRect st) eqn:Er; [|apply sameSelection_refl].
  destruct (truthy k); cbn [negb]; [|apply sameSelection_refl].
  pose proof (sameTracker_selection _ _ (getCurrentCell_same st)) as S1.
  destruct (getCurrentCell st) as [x st1]. cbn [snd] in S1. destruct (editTarget st1).
  - destruct x as [x|]; [|exact S1].
    eapply sameSelection_trans; [exact S1|]. apply writeCurrentCell_selection.
  - pose proof (sameTracker_selection _ _ (getCurrentRoom_same st1)) as S2.
    destruct (getCurrentRoom st1) as [[[id rm]|] st2]; cbn [snd] in S2;
      eapply sameSelection_trans; try exact S1; exact S2.
Qed.

Lemma applyNotes_selection v st : sameSelection st (applyNotes v st).
Proof.
  unfold applyNotes. destruct (selectedCellKey st) as [k|] eqn:Ek; [|apply sameSelection_refl].
  destruct (truthy k); cbn [negb]; [|apply sameSelection_refl].
  pose proof (sameTracker_selection _ _ (getCurrentCell_same st)) as S1.
  destruct (getCurrentCell st) as [x st1]. cbn [snd] in S1. destruct (editTarget st1).
  - destruct x as [x|]; [|exact S1].
    eapply sameSelection_trans; [exact S1|]. apply writeCurrentCell_selection.
  - pose proof (sameTracker_selection _ _ (getCurrentRoom_same st1)) as S2.
    destruct (getCurrentRoom st1) as [[[id rm]|] st2]; cbn [snd] in S2;
      eapply sameSelection_trans; try exact S1; exact S2.
Qed.

Lemma applyRoomName_selection v st : sameSelection st (applyRoomName v st).
Proof.
  unfold applyRoomName.
  pose proof (sameTracker_selection _ _ (getCurrentRoom_same st)) as S2.
  destruct (getCurrentRoom st) as [[[id rm]|] st2]; cbn [snd] in S2; exact S2.
Qed.

Lemma applyRoomKind_selection v st : sameSelection st (applyRoomKind v st).
Proof.
  unfold applyRoomKind.
  pose proof (sameTracker_selection _ _ (getCurrentRoom_same st)) as S2.
  destruct (getCurrentRoom st) as [[[id rm]|] st2]; cbn [snd] in S2; exact S2.
Qed.

Lemma clearSelectedCell_selection st : sameSelection st (fst (clearSelectedCell st)).
Proof.
  unfold clearSelectedCell.
  destruct (selectedCellKey st) as [k|] eqn:Ek; [|apply sameSelection_refl].
  destruct (selectedRect st) eqn:Er; [|apply sameSelection_refl].
  destruct (truthy k); cbn [negb]; [|apply sameSelection_refl].
  pose proof (sameTracker_selection _ _ (getCurrentCell_same st)) as S1.
  destruct (getCurrentCell st) as [x st1]. cbn [snd] in S1.
  destruct x as [x|]; [|exact S1]. destruct (truthyRoom (cell_roomId x)); [exact S1|].
  destruct (parseKey k) as [c r] eqn:Ep. cbn [fst].
  eapply sameSelection_trans; [exact S1|]. apply (writeCurrentCell_selection k _ x st1).
Qed.

Lemma dissolveRoom_selection cfg id st : sameSelection st (dissolveRoom cfg id st).
Proof.
  unfold dissolveRoom. destruct (roomById (RoomId id) (data st)); [|apply sameSelection_refl].
  match goal with |- context [refreshButtons ?s] =>
    pose proof (sameTracker_selection _ _ (refreshButtons_same s)) as R end.
  exact R.
Qed.

Lemma onDissolveClick_selection cfg ok st : sameSelection st (onDissolveClick cfg ok st).
Proof.
  unfold onDissolveClick.
  pose proof (sameTracker_selection _ _ (getCurrentRoom_same st)) as S.
  destruct (getCurrentRoom st) as [[[id rm]|] st1]; cbn [snd] in S; [|exact S].
  destruct ok; [|exact S].
  eapply sameSelection_trans; [exact S|apply dissolveRoom_selection].
Qed.

Lemma clearStage_selection cfg st : sameSelection st (clearStage cfg st).
Proof. now split. Qed.

Lemma onEscape_selection cfg st : sameSelection st (onEscape cfg st).
Proof.
  unfold onEscape. destruct (editTarget (clearStage cfg st)); [apply clearStage_selection|].
  set (s2 := set_editTarget (clearStage cfg st) TargetCell).
  pose proof (sameTracker_selection _ _ (getCurrentCell_same s2)) as G.
  destruct (getCurrentCell s2) as [x st3]. cbn [snd] in G.
  pose proof (sameTracker_selection _ _ (refreshButtons_same st3)) as R.
  eapply sameSelection_trans; [|exact R]. eapply sameSelection_trans; [|exact G].
  now split.
Qed.

Lemma afterReplace_selection cfg st :
  selectedCellKey (afterReplace cfg st) = None /\ selectedRect (afterReplace cfg st) = None.
Proof.
  unfold afterReplace.
  match goal with |- context [refreshButtons ?s] =>
    destruct (refreshButtons_same s) as (_ & _ & R2 & R3 & _) end.
  now rewrite R2, R3.
Qed.

(** The selection after a handler: what it was, a cell of the grid with
    its own rect, or nothing. *)
Lemma picked_selection cfg k st :
  k ∈ gridKeys cfg ->
  selectedCellKey (step cfg (Click k) st) = Some k /\
  selectedRect (step cfg (Click k) st) = Some k.
Proof.
  intros Hk. cbn [step]. rewrite (rectForKey_grid cfg k Hk).
  destruct (selectCell_data k k st) as (_ & _ & A & B). now split.
Qed.

Lemma createRoom_selection cfg st :
  let st' := fst (createRoomFromStage cfg st) in
  sameSelection st st' \/
  exists k, k ∈ gridKeys cfg /\ selectedCellKey st' = Some k /\ selectedRect st' = Some k.
Proof.
  cbv zeta. unfold createRoomFromStage.
  destruct (staged st) as [|k0 ks] eqn:Es; [left; apply sameSelection_refl|].
  destruct (isContiguous (k0 :: ks)); cbn [negb]; [|left; apply sameSelection_refl].
  destruct (anyInRoom (k0 :: ks) (data st)) as [[ex|] d1]; [left; now split|].
  cbn [fst room_cells].
  match goal with |- context [refreshButtons (set_editTarget ?s TargetRoom)] =>
    set (st2 := s);
    pose proof (sameTracker_selection _ _ (refreshButtons_same (set_editTarget st2 TargetRoom)))
      as [R1 R2]
  end.
  cbn [selectedCellKey selectedRect set_editTarget] in R1, R2.
  unfold sameSelection. rewrite R1, R2. unfold st2.
  destruct (sortKeys (k0 :: ks)) as [|f ?]; [left; now split|].
  destruct (rectForKey cfg f) as [rect|] eqn:Er; [|left; now split].
  apply rectForKey_Some in Er as [-> Hf]. right. exists f.
  match goal with |- context [selectCell f f ?s] =>
    destruct (selectCell_data f f s) as (_ & _ & A & B) end.
  now repeat split.
Qed.

Lemma onRoomItemClick_selection cfg id st :
  let st' := onRoomItemClick cfg id st in
  sameSelection st st' \/
  exists k, k ∈ gridKeys cfg /\ selectedCellKey st' = Some k /\ selectedRect st' = Some k.
Proof.
  cbv zeta. unfold onRoomItemClick.
  destruct (rooms (data st) !! id) as [rm|]; [|left; apply sameSelection_refl].
  match goal with |- context [refreshButtons (set_editTarget ?s TargetRoom)] =>
    set (st1 := s);
    pose proof (sameTracker_selection _ _ (refreshButtons_same (set_editTarget st1 TargetRoom)))
      as [R1 R2]
  end.
  cbn [selectedCellKey selectedRect set_editTarget] in R1, R2.
  unfold sameSelection. rewrite R1, R2. unfold st1.
  destruct (room_cells rm) as [|f ?]; [left; now split|].
  destruct (rectForKey cfg f) as [rect|] eqn:Er; [|left; now split].
  apply rectForKey_Some in Er as [-> Hf]. right. exists f.
  destruct (selectCell_data f f st) as (_ & _ & A & B). now repeat split.
Qed.

Lemma step_selection cfg a st :
  let st' := step cfg a st in
  sameSelection st st' \/
  (exists k, k ∈ gridKeys cfg /\ selectedCellKey st' = Some k /\ selectedRect st' = Some k) \/
  (selectedCellKey st' = None /\ selectedRect st' = None).
Proof.
  cbv zeta. destruct a.
  - cbn [step]. destruct (rectForKey cfg k) as [rect|] eqn:Er; [|left; apply sameSelection_refl].
    apply rectForKey_Some in Er as [-> Hk]. right. left. exists k.
    destruct (selectCell_data k k st) as (_ & _ & A & B). now repeat split.
  - left. apply toggleStage_selection.
  - cbn [step]. destruct (createRoom_selection cfg st) as [H|H]; [now left|right; now left].
  - left. apply onDissolveClick_selection.
  - left. cbn [step]. rewrite deleteCurrentRoom_eq. apply onDissolveClick_selection.
  - left. apply applyColor_selection.
  - left. apply applyIcon_selection.
  - left. apply applyNotes_selection.
  - left. apply applyRoomName_selection.
  - left. apply applyRoomKind_selection.
  - left. apply clearSelectedCell_selection.
  - cbn [step]. pose proof (importedStore_doImport cfg file st) as H.
    destruct (importedStore file) as [d|].
    + rewrite H. right. right. apply afterReplace_selection.
    + rewrite H. left. apply sameSelection_refl.
  - cbn [step]. unfold doWipe. destruct ok; [|left; apply sameSelection_refl].
    right. right. apply afterReplace_selection.
  - left. apply onEscape_selection.
  - left. apply sameTracker_selection, onCellLeave_same.
  - cbn [step]. destruct (onRoomItemClick_selection cfg id st) as [H|H]; [now left|right; now left].
  - cbn [step]. pose proof (loadedStore_loadState cfg state st) as H.
    destruct (loadedStore state); rewrite H; left; now split.
  - left. apply clearStage_selection.
Qed.

Lemma step_NoDup cfg a st : NoDup (staged st) -> NoDup (staged (step cfg a st)).
Proof.
  intros Hnd. destruct a; cbn [step].
  - destruct (rectForKey cfg k); [|exact Hnd].
    destruct (selectCell_data k s st) as (_ & -> & _). exact Hnd.
  - now apply toggleStage_NoDup.
  - unfold createRoomFromStage.
    destruct (staged st) as [|k0 ks] eqn:Es; [cbn [fst]; now rewrite Es|].
    destruct (isContiguous (k0 :: ks)); cbn [negb]; [|cbn [fst]; now rewrite Es].
    destruct (anyInRoom (k0 :: ks) (data st)) as [[ex|] d1];
      [cbn [fst staged set_data]; now rewrite Es|].
    cbn [fst room_cells].
    match goal with |- context [refreshButtons (set_editTarget ?s TargetRoom)] =>
      set (st2 := s);
      destruct (refreshButtons_same (set_editTarget st2 TargetRoom)) as (_ & _ & _ & _ & R4)
    end.
    rewrite R4. cbn [staged set_editTarget]. unfold st2.
    destruct (sortKeys (k0 :: ks)) as [|f ?]; [constructor|].
    destruct (rectForKey cfg f) as [rect|]; [|constructor].
    match goal with |- context [selectCell f rect ?s] =>
      destruct (selectCell_data f rect s) as (_ & -> & _) end.
    constructor.
  - unfold onDissolveClick.
    pose proof (getCurrentRoom_same st) as (_ & _ & _ & _ & S).
    destruct (getCurrentRoom st) as [[[id rm]|] st1]; cbn [snd] in S; [|now rewrite S].
    destruct ok; [rewrite dissolveRoom_staged|]; now rewrite S.
  - unfold deleteCurrentRoom.
    pose proof (getCurrentRoom_same st) as (_ & _ & _ & _ & S).
    destruct (getCurrentRoom st) as [[[id rm]|] st1]; cbn [snd] in S; [|now rewrite S].
    destruct ok; [rewrite dissolveRoom_staged|]; now rewrite S.
  - now rewrite applyColor_staged.
  - now rewrite applyIcon_staged.
  - now rewrite applyNotes_staged.
  - now rewrite applyRoomName_staged.
  - now rewrite applyRoomKind_staged.
  - now rewrite clearSelectedCell_staged.
  - pose proof (importedStore_doImport cfg file st) as H.
    destruct (importedStore file) as [d|]; [|now rewrite H].
    rewrite H. cbn [fst]. destruct (afterReplace_data cfg (set_data st d)) as [_ ->]. constructor.
  - unfold doWipe. destruct ok; [|exact Hnd].
    destruct (afterReplace_data cfg (set_data st emptyStore)) as [_ ->]. constructor.
  - destruct (onEscape_data cfg st) as [_ ->]. constructor.
  - destruct (onCellLeave_same cfg k st) as (_ & _ & _ & _ & ->). exact Hnd.
  - destruct (onRoomItemClick_data cfg id st) as [_ ->]. exact Hnd.
  - pose proof (loadedStore_loadState cfg state st) as H.
    destruct (loadedStore state); rewrite H; exact Hnd.
  - destruct (clearStage_data cfg st) as (_ & -> & _). constructor.
Qed.

Lemma step_steady cfg a st : steady cfg st -> steady cfg (step cfg a st).
Proof.
  intros (Hp & Hnd & Hs & Hsel & Hk).
  split; [now apply step_painted|]. split; [now apply step_NoDup|].
  split; [now apply step_staged|].
  destruct (step_selection cfg a st) as [[A B]|[(k & Hin & A & B)|[A B]]].
  - rewrite A, B. now split.
  - rewrite A, B. split; [reflexivity|]. now intros ? [= <-].
  - rewrite A, B. split; [reflexivity|]. discriminate.
Qed.

Lemma run_steady cfg acts : forall st, steady cfg st -> steady cfg (run cfg acts st).
Proof.
  unfold run. induction acts as [|a acts IH]; intros st H; [exact H|].
  cbn [fold_left]. apply IH. now apply step_steady.
Qed.

Lemma createDungeonTracker_steady cfg loaded : steady cfg (createDungeonTracker cfg loaded).
Proof.
  split; [apply createDungeonTracker_painted|]. cbn.
  split; [constructor|]. split; [intros k H; by apply elem_of_nil in H|].
  split; [reflexivity|discriminate].
Qed.


(** ** Handlers on a painted grid *)

Lemma steady_touched cfg st :
  painted cfg (data st) -> (forall k, selectedCellKey st = Some k -> k ∈ gridKeys cfg) ->
  touched st = data st.
Proof.
  intros Hp Hk. destruct (selectedCellKey st) as [k|] eqn:E.
  - apply (touched_painted cfg st k Hp E). now apply Hk.
  - now apply touched_unselected.
Qed.

Lemma steady_refresh cfg st :
  painted cfg (data st) -> (forall k, selectedCellKey st = Some k -> k ∈ gridKeys cfg) ->
  refreshButtons st = st.
Proof.
  intros Hp Hk. rewrite refreshButtons_data, (steady_touched cfg st Hp Hk). apply set_data_id.
Qed.

Lemma steady_getCurrentRoom cfg st :
  painted cfg (data st) -> (forall k, selectedCellKey st = Some k -> k ∈ gridKeys cfg) ->
  snd (getCurrentRoom st) = st.
Proof.
  intros Hp Hk. rewrite getCurrentRoom_data, (steady_touched cfg st Hp Hk). apply set_data_id.
Qed.

Lemma steady_getCurrentCell cfg st :
  painted cfg (data st) -> (forall k, selectedCellKey st = Some k -> k ∈ gridKeys cfg) ->
  snd (getCurrentCell st) = st.
Proof.
  intros Hp Hk. rewrite getCurrentCell_data, (steady_touched cfg st Hp Hk). apply set_data_id.
Qed.

Lemma clearStage_painted cfg st : painted cfg (data st) -> clearStage cfg st = set_staged st [].
Proof.
  intros Hp. unfold clearStage. rewrite (repaintKeys_painted cfg _ _ Hp).
  now rewrite set_data_id.
Qed.

Lemma selectCell_painted cfg st k x :
  painted cfg (data st) -> k ∈ gridKeys cfg -> cells (data st) !! k = Some x ->
  selectCell k k st =
  set_editTarget (set_selection st (Some k) (Some k))
                 (match roomById (cell_roomId x) (data st) with
                  | Some _ => TargetRoom
                  | None => TargetCell
                  end).
Proof.
  intros Hp Hg Hx. unfold selectCell. cbn [data set_selection].
  destruct (ensureCellAt_painted cfg (data st) k Hp Hg) as (y & Hy & _ & ->).
  assert (y = x) by congruence. subst y.
  match goal with |- refreshButtons ?s = _ => rewrite (steady_refresh cfg s) end.
  - destruct (roomById (cell_roomId x) (data st)); reflexivity.
  - destruct (roomById (cell_roomId x) (data st)); exact Hp.
  - intros k' Hk'. destruct (roomById (cell_roomId x) (data st)); cbn in Hk'; congruence.
Qed.

Lemma painted_read cfg d k x :
  painted cfg d -> k ∈ gridKeys cfg -> cells d !! k = Some x ->
  readCell d k = x /\ repairCell x = x /\ normalKey k = k.
Proof.
  intros Hp Hg Hx. destruct (Hp k Hg) as (y & Hy & Hr).
  assert (y = x) by congruence. subst y.
  unfold readCell. rewrite Hx. split; [exact Hr|]. split; [exact Hr|].
  destruct (gridKeys_cellKey cfg k Hg) as (p & -> & _). apply normalKey_cellKey.
Qed.

Lemma anyInRoom_ungrouped cfg keys d :
  painted cfg d -> (forall k, k ∈ keys -> k ∈ gridKeys cfg) ->
  (forall k x, k ∈ keys -> cells d !! k = Some x -> truthyRoom (cell_roomId x) = None) ->
  anyInRoom keys d = (None, d).
Proof.
  intros Hp Hs Hun. pose proof (anyInRoom_painted cfg keys d Hp Hs) as Hd.
  destruct (anyInRoom keys d) as [[i|] d1] eqn:Ea; cbn [snd] in Hd; subst d1; [|reflexivity].
  apply anyInRoom_Some in Ea as (k & Hin & Ht).
  destruct (Hp k (Hs k Hin)) as (x & Hx & _).
  destruct (painted_read cfg d k x Hp (Hs k Hin) Hx) as (Hr & _ & Hn).
  rewrite Hn, Hr, (Hun k x Hin Hx) in Ht. discriminate.
Qed.

(** ** Sorting the members of a room *)

Lemma insertKey_perm k l : insertKey k l ≡ₚ k :: l.
Proof.
  induction l as [|x l IH]; cbn [insertKey]; [reflexivity|].
  destruct (String.leb k x); [reflexivity|]. rewrite IH. apply Permutation_swap.
Qed.

Lemma sortKeys_perm l : sortKeys l ≡ₚ l.
Proof.
  induction l as [|x l IH]; cbn [sortKeys fold_right]; [reflexivity|].
  fold (sortKeys l). now rewrite insertKey_perm, IH.
Qed.

Lemma insertKey_sorted k l :
  Sorted (fun a b => String.leb a b = true) l ->
  Sorted (fun a b => String.leb a b = true) (insertKey k l).
Proof.
  induction 1 as [|x l Hl IH Hd]; cbn [insertKey]; [repeat constructor|].
  destruct (String.leb k x) eqn:E.
  - constructor; [now constructor|]. now constructor.
  - constructor; [exact IH|].
    assert (Hxk : String.leb x k = true) by (destruct (String.leb_total k x); congruence).
    destruct l as [|y l]; cbn [insertKey]; [now constructor|].
    destruct (String.leb k y); constructor; [exact Hxk|]. now inversion Hd.
Qed.

Lemma sortKeys_sorted l : Sorted (fun a b => String.leb a b = true) (sortKeys l).
Proof.
  induction l as [|x l IH]; cbn [sortKeys fold_right]; [constructor|].
  now apply insertKey_sorted.
Qed.

(** ** Creating a room *)

Lemma createRoom_steady cfg st :
  steady cfg st -> staged st <> [] -> isContiguous (staged st) = true ->
  (forall k x, k ∈ staged st -> cells (data st) !! k = Some x ->
               truthyRoom (cell_roomId x) = None) ->
  let id := "R" ++ string_of_Z (nextRoomId (data st)) in
  let rm := {| room_id := id; room_name := "Room " ++ id; room_kind := "room";
               room_c := "#3c6270"; room_n := ""; room_icon := "";
               room_cells := sortKeys (staged st) |} in
  let d2 := {| cells := cells (data st); rooms := <[id := rm]> (rooms (data st));
               nextRoomId := nextRoomId (data st) + 1 |} in
  createRoomFromStage cfg st =
  ({| data := fold_left (assignRoom cfg id) (sortKeys (staged st)) d2;
      editTarget := TargetRoom;
      selectedCellKey := head (sortKeys (staged st));
      selectedRect := head (sortKeys (staged st));
      staged := [] |}, Silent).
Proof.
  intros (Hp & Hnd & Hs & Hsel & Hk) Hne Hc Hun. cbv zeta. unfold createRoomFromStage.
  rewrite Hc, (anyInRoom_ungrouped cfg (staged st) (data st) Hp Hs Hun). cbn [negb].
  destruct (staged st) as [|k0 ks] eqn:Es; [done|]. cbn [room_cells].
  set (id := "R" ++ string_of_Z (nextRoomId (data st))).
  set (rm := {| room_id := id; room_name := "Room " ++ id; room_kind := "room";
                room_c := "#3c6270"; room_n := ""; room_icon := "";
                room_cells := sortKeys (k0 :: ks) |}).
  set (d2 := {| cells := cells (data st); rooms := <[id := rm]> (rooms (data st));
                nextRoomId := nextRoomId (data st) + 1 |}).
  set (d3 := fold_left (assignRoom cfg id) (sortKeys (k0 :: ks)) d2).
  assert (Hp2 : painted cfg d2) by (intros k Hk'; exact (Hp k Hk')).
  assert (Hp3 : painted cfg d3).
  { apply (keepsRecords_painted cfg d2); [|exact Hp2].
    apply groupCell_fold_keeps. discriminate. }
  rewrite (clearStage_painted cfg (set_data st d3) Hp3).
  destruct (sortKeys (k0 :: ks)) as [|f l] eqn:Esort.
  { exfalso. assert (H : k0 ∈ sortKeys (k0 :: ks)) by (apply sortKeys_elem; left).
    rewrite Esort in H. by apply elem_of_nil in H. }
  assert (Hf : f ∈ gridKeys cfg).
  { apply Hs. apply sortKeys_elem. rewrite Esort. left. }
  rewrite (rectForKey_grid cfg f Hf).
  destruct (Hp3 f Hf) as (y & Hy & _).
  rewrite (selectCell_painted cfg (set_staged (set_data st d3) []) f y Hp3 Hf Hy).
  rewrite (steady_refresh cfg).
  - cbn [data set_data set_staged]. destruct (roomById (cell_roomId y) d3); reflexivity.
  - destruct (roomById (cell_roomId y) d3); exact Hp3.
  - intros k' Hk'. destruct (roomById (cell_roomId y) d3); cbn in Hk'; congruence.
Qed.

Lemma createRoom_effect cfg st :
  steady cfg st -> staged st <> [] -> isContiguous (staged st) = true ->
  (forall k x, k ∈ staged st -> cells (data st) !! k = Some x ->
               truthyRoom (cell_roomId x) = None) ->
  let id := "R" ++ string_of_Z (nextRoomId (data st)) in
  let rm := {| room_id := id; room_name := "Room " ++ id; room_kind := "room";
               room_c := "#3c6270"; room_n := ""; room_icon := "";
               room_cells := sortKeys (staged st) |} in
  let st' := fst (createRoomFromStage cfg st) in
  snd (createRoomFromStage cfg st) = Silent /\
  rooms (data st') = <[id := rm]> (rooms (data st)) /\
  nextRoomId (data st') = nextRoomId (data st) + 1 /\
  (forall k, cells (data st') !! k =
             if decide (k ∈ staged st)
             then with_roomId (RoomId id) <$> cells (data st) !! k
             else cells (data st) !! k) /\
  sortKeys (staged st) ≡ₚ staged st /\
  Sorted (fun a b => String.leb a b = true) (sortKeys (staged st)) /\
  staged st' = [] /\ editTarget st' = TargetRoom /\
  selectedCellKey st' = head (sortKeys (staged st)) /\
  selectedRect st' = head (sortKeys (staged st)) /\
  fst (getCurrentRoom st') = Some (id, rm) /\
  (wellFormed (data st) -> rooms (data st) !! id = None).
Proof.
  intros Hst Hne Hc Hun. pose proof Hst as (Hp & Hnd & Hs & Hsel & Hk).
  cbv zeta. rewrite (createRoom_steady cfg st Hst Hne Hc Hun). cbn [fst snd].
  set (id := "R" ++ string_of_Z (nextRoomId (data st))).
  set (rm := {| room_id := id; room_name := "Room " ++ id; room_kind := "room";
                room_c := "#3c6270"; room_n := ""; room_icon := "";
                room_cells := sortKeys (staged st) |}).
  set (d2 := {| cells := cells (data st); rooms := <[id := rm]> (rooms (data st));
                nextRoomId := nextRoomId (data st) + 1 |}).
  assert (Hv : RoomId id <> RoomUndefined) by discriminate.
  assert (Hcan : forall k, k ∈ sortKeys (staged st) -> exists p, k = cellKey p).
  { intros k Hin. pose proof (proj1 (sortKeys_elem _ _) Hin) as Hin'.
    destruct (gridKeys_cellKey cfg k (Hs k Hin')) as (p & -> & _). eauto. }
  destruct (groupCell_fold cfg (RoomId id) (sortKeys (staged st)) d2 Hv Hcan) as (G1 & G2 & _).
  pose proof (groupCell_fold_cells cfg (RoomId id) (sortKeys (staged st)) d2 Hv Hcan) as G3.
  fold (assignRoom cfg id) in G1, G2, G3.
  set (d3 := fold_left (assignRoom cfg id) (sortKeys (staged st)) d2) in *.
  cbn [data editTarget selectedCellKey selectedRect staged].
  assert (Hcells : forall k, cells d3 !! k =
                     if decide (k ∈ staged st)
                     then with_roomId (RoomId id) <$> cells (data st) !! k
                     else cells (data st) !! k).
  { intros k. rewrite G3. destruct (decide (k ∈ staged st)) as [Hin|Hin].
    - rewrite decide_True by (now apply sortKeys_elem).
      destruct (Hp k (Hs k Hin)) as (x & Hx & Hr). rewrite Hx. cbn. f_equal. f_equal.
      unfold readCell. cbn [cells d2]. now rewrite Hx.
    - rewrite decide_False by (now rewrite sortKeys_elem). reflexivity. }
  split; [reflexivity|]. split; [exact G1|]. split; [exact G2|]. split; [exact Hcells|].
  split; [apply sortKeys_perm|]. split; [apply sortKeys_sorted|].
  split; [reflexivity|]. split; [reflexivity|]. split; [reflexivity|].
  split; [reflexivity|]. split.
  - destruct (sortKeys (staged st)) as [|f l] eqn:Esort.
    { exfalso. destruct (staged st) as [|k0 ks] eqn:Es; [done|].
      assert (H : k0 ∈ sortKeys (k0 :: ks)) by (apply sortKeys_elem; left).
      rewrite Esort in H. by apply elem_of_nil in H. }
    assert (Hin : f ∈ staged st) by (apply sortKeys_elem; rewrite Esort; left).
    destruct (Hp f (Hs f Hin)) as (x & Hx & Hr).
    assert (Hp3 : painted cfg d3).
    { apply (keepsRecords_painted cfg d2); [|intros k Hk'; exact (Hp k Hk')].
      apply groupCell_fold_keeps. discriminate. }
    match goal with |- fst (getCurrentRoom ?s) = _ =>
      rewrite (getCurrentRoom_painted cfg s f (with_roomId (RoomId id) x) id rm) end;
      try reflexivity; try exact Hp3.
    + now apply Hs.
    + cbn [data]. rewrite Hcells, decide_True by exact Hin. now rewrite Hx.
    + discriminate.
    + cbn [data]. rewrite G1. cbn [rooms d2]. apply lookup_insert_eq.
  - intros Hwf. apply (wf_fresh _ Hwf). lia.
Qed.

(** X8. When the stage is not empty, contiguous and holds no cell of a
    room, [createRoomFromStage] files one new room under the id [R<n>],
    [n] the counter, with its default name, kind and colour and with the
    staged keys in sorted order as members; the counter grows by one;
    exactly the staged cells get the new room id, and no other record
    changes; the stage is emptied, the first member is selected and the
    edit target is the new room. In a well-formed store the id is not
    in use, so that no room is replaced. *)
Theorem createRoom_success cfg st :
  steady cfg st -> staged st <> [] -> isContiguous (staged st) = true ->
  (forall k x, k ∈ staged st -> cells (data st) !! k = Some x ->
               truthyRoom (cell_roomId x) = None) ->
  let id := "R" ++ string_of_Z (nextRoomId (data st)) in
  let rm := {| room_id := id; room_name := "Room " ++ id; room_kind := "room";
               room_c := "#3c6270"; room_n := ""; room_icon := "";
               room_cells := sortKeys (staged st) |} in
  let st' := fst (createRoomFromStage cfg st) in
  snd (createRoomFromStage cfg st) = Silent /\
  rooms (data st') = <[id := rm]> (rooms (data st)) /\
  nextRoomId (data st') = nextRoomId (data st) + 1 /\
  (forall k, cells (data st') !! k =
             if decide (k ∈ staged st)
             then with_roomId (RoomId id) <$> cells (data st) !! k
             else cells (data st) !! k) /\
  sortKeys (staged st) ≡ₚ staged st /\
  Sorted (fun a b => String.leb a b = true) (sortKeys (staged st)) /\
  staged st' = [] /\ editTarget st' = TargetRoom /\
  selectedCellKey st' = head (sortKeys (staged st)) /\
  selectedRect st' = head (sortKeys (staged st)) /\
  fst (getCurrentRoom st') = Some (id, rm) /\
  (wellFormed (data st) -> rooms (data st) !! id = None).
Proof. exact (createRoom_effect cfg st). Qed.

Lemma pairStage_steady : steady smallConfig pairStage.
Proof. apply run_steady, createDungeonTracker_steady. Qed.

Lemma pairStage_ungrouped k x :
  k ∈ staged pairStage -> cells (data pairStage) !! k = Some x ->
  truthyRoom (cell_roomId x) = None.
Proof.
  intros Hin. vm_compute in Hin.
  repeat (apply elem_of_cons in Hin as [->|Hin];
          [vm_compute; intros [= <-]; reflexivity|]).
  by apply elem_of_nil in Hin.
Qed.

Lemma createRoom_success_witness :
  snd (createRoomFromStage smallConfig pairStage) = Silent /\
  nextRoomId (data (fst (createRoomFromStage smallConfig pairStage)))
    = nextRoomId (data pairStage) + 1.
Proof.
  destruct (createRoom_success smallConfig pairStage) as (H1 & _ & H3 & _).
  - exact pairStage_steady.
  - discriminate.
  - vm_compute. reflexivity.
  - exact pairStage_ungrouped.
  - split; [exact H1|exact H3].
Defined.

(** ** Creating a room and dissolving it again *)

Lemma store_eq (a b : store) :
  cells a = cells b -> rooms a = rooms b -> nextRoomId a = nextRoomId b -> a = b.
Proof. destruct a, b; cbn; congruence. Qed.

Lemma ungrouped_null d x k :
  wellFormed d -> cells d !! k = Some x -> repairCell x = x ->
  truthyRoom (cell_roomId x) = None -> cell_roomId x = RoomNull.
Proof.
  intros Hwf Hx Hr Ht. apply repairCell_fixed in Hr as [_ Hu].
  destruct (cell_roomId x) as [| |j] eqn:E; [done|done|].
  cbn in Ht. destruct (truthy j) eqn:Ej; [discriminate|].
  destruct j; [|discriminate].
  destruct (wf_refs _ Hwf k x "" Hx E) as (rm & Hrm & _).
  rewrite (wf_ids _ Hwf) in Hrm. discriminate.
Qed.

Lemma create_dissolve_exact cfg st :
  steady cfg st -> wellFormed (data st) ->
  staged st <> [] -> isContiguous (staged st) = true ->
  (forall k x, k ∈ staged st -> cells (data st) !! k = Some x ->
               truthyRoom (cell_roomId x) = None) ->
  onDissolveClick cfg true (fst (createRoomFromStage cfg st)) =
  {| data := {| cells := cells (data st); rooms := rooms (data st);
                nextRoomId := nextRoomId (data st) + 1 |};
     editTarget := TargetCell;
     selectedCellKey := head (sortKeys (staged st));
     selectedRect := head (sortKeys (staged st));
     staged := [] |}.
Proof.
  intros Hst Hwf Hne Hc Hun.
  destruct (createRoom_effect cfg st Hst Hne Hc Hun)
    as (_ & R1 & R2 & R3 & _ & _ & R4 & R5 & R6 & R7 & R8 & R9).
  pose proof (step_steady cfg CreateRoom st Hst) as (Hp' & _ & _ & _ & Hk').
  cbn [step] in Hp', Hk'. pose proof Hst as (Hp & Hnd & Hs & Hsel & Hk).
  set (st' := fst (createRoomFromStage cfg st)) in *.
  set (id := "R" ++ string_of_Z (nextRoomId (data st))) in *.
  set (rm := {| room_id := id; room_name := "Room " ++ id; room_kind := "room";
                room_c := "#3c6270"; room_n := ""; room_icon := "";
                room_cells := sortKeys (staged st) |}) in *.
  unfold onDissolveClick.
  pose proof (steady_getCurrentRoom cfg st' Hp' Hk') as Hsnd.
  destruct (getCurrentRoom st') as [cur st1]. cbn [fst snd] in R8, Hsnd. subst cur st1.
  cbn [room_id rm].
  assert (Hrm : roomById (RoomId id) (data st') = Some rm).
  { apply roomById_Some. split; [reflexivity|]. rewrite R1. apply lookup_insert_eq. }
  assert (Hcan : forall k, k ∈ room_cells rm -> exists p, k = cellKey p).
  { intros k Hin. cbn [room_cells rm] in Hin. pose proof (proj1 (sortKeys_elem _ _) Hin) as Hin'.
    destruct (gridKeys_cellKey cfg k (Hs k Hin')) as (p & -> & _). eauto. }
  unfold dissolveRoom. rewrite Hrm.
  assert (Hv : RoomNull <> RoomUndefined) by discriminate.
  destruct (groupCell_fold cfg RoomNull (room_cells rm) (data st') Hv Hcan) as (G1 & G2 & _).
  pose proof (groupCell_fold_cells cfg RoomNull (room_cells rm) (data st') Hv Hcan) as G3.
  pose proof (groupCell_fold_keeps cfg RoomNull (room_cells rm) (data st') Hv) as G4.
  fold (releaseCell cfg) in G1, G2, G3, G4.
  set (d1 := fold_left (releaseCell cfg) (room_cells rm) (data st')) in *.
  rewrite (steady_refresh cfg).
  2:{ cbn [data set_editTarget set_data]. apply painted_set_rooms.
      now apply (keepsRecords_painted cfg (data st')). }
  2:{ exact Hk'. }
  unfold set_editTarget, set_data.
  cbn [data editTarget selectedCellKey selectedRect staged].
  rewrite R4, R6, R7. f_equal.
  apply store_eq; cbn [cells rooms nextRoomId set_rooms].
  - apply map_eq. intros m. rewrite G3. cbn [room_cells rm].
    destruct (decide (m ∈ sortKeys (staged st))) as [Hin|Hin].
    + pose proof (proj1 (sortKeys_elem _ _) Hin) as Hin'.
      destruct (Hp m (Hs m Hin')) as (x & Hx & Hr).
      unfold readCell. rewrite R3, decide_True, Hx by exact Hin'. cbn [fmap option_fmap option_map].
      rewrite repairCell_with_roomId, Hr by discriminate.
      rewrite <- (ungrouped_null (data st) x m Hwf Hx Hr (Hun m x Hin' Hx)).
      now destruct x.
    + rewrite R3, decide_False; [reflexivity|]. now rewrite <- sortKeys_elem.
  - rewrite G1, R1. apply delete_insert_id. now apply R9.
  - now rewrite G2, R2.
Qed.

(** X9. Creating a room from the stage and dissolving it right away gives
    back the cells and the rooms as they were, in a well-formed store:
    every record is the one from before, the new room is gone and no
    other room has changed. What remains is the counter, one higher (the
    id is not handed out again), the emptied stage, and the selection of
    the first staged cell in cell edit mode. *)
Theorem create_then_dissolve cfg st :
  steady cfg st -> wellFormed (data st) ->
  staged st <> [] -> isContiguous (staged st) = true ->
  (forall k x, k ∈ staged st -> cells (data st) !! k = Some x ->
               truthyRoom (cell_roomId x) = None) ->
  onDissolveClick cfg true (fst (createRoomFromStage cfg st)) =
  {| data := {| cells := cells (data st); rooms := rooms (data st);
                nextRoomId := nextRoomId (data st) + 1 |};
     editTarget := TargetCell;
     selectedCellKey := head (sortKeys (staged st));
     selectedRect := head (sortKeys (staged st));
     staged := [] |}.
Proof. exact (create_dissolve_exact cfg st). Qed.

Lemma pairStage_wellFormed : wellFormed (data pairStage).
Proof.
  apply (run_wellFormed smallConfig).
  - repeat (apply Forall_cons; split); try apply Forall_nil_2;
      (split; intros ? d E; discriminate E).
  - apply createDungeonTracker_wellFormed. discriminate.
Qed.

Lemma create_then_dissolve_witness :
  data (onDissolveClick smallConfig true (fst (createRoomFromStage smallConfig pairStage)))
  = {| cells := cells (data pairStage); rooms := rooms (data pairStage);
       nextRoomId := nextRoomId (data pairStage) + 1 |}.
Proof.
  rewrite (create_then_dissolve smallConfig pairStage).
  - reflexivity.
  - exact pairStage_steady.
  - exact pairStage_wellFormed.
  - discriminate.
  - vm_compute. reflexivity.
  - exact pairStage_ungrouped.
Defined.

(** ** Looking for a grouped cell *)

(** X10. On a painted grid [anyInRoom] changes nothing and returns the
    room id of the first listed cell that has one, or nothing when no
    listed cell has a room id. *)
Theorem anyInRoom_first cfg keys d :
  painted cfg d -> (forall k, k ∈ keys -> k ∈ gridKeys cfg) ->
  anyInRoom keys d =
  (head (omap (fun k => x ← cells d !! k; truthyRoom (cell_roomId x)) keys), d).
Proof.
  intros Hp. induction keys as [|k ks IH]; intros Hs; [reflexivity|].
  cbn [anyInRoom omap list_omap].
  assert (Hk : k ∈ gridKeys cfg) by (apply Hs; left).
  destruct (ensureCellAt_painted cfg d k Hp Hk) as (x & Hx & _ & ->).
  rewrite Hx. cbn [mbind option_bind].
  destruct (truthyRoom (cell_roomId x)); [reflexivity|].
  apply IH. intros k' Hk'. apply Hs. now right.
Qed.

Lemma anyInRoom_first_witness :
  anyInRoom ["1,1"; "0,0"; "2,2"] (data roomEditState) = (Some "R1", data roomEditState).
Proof.
  rewrite (anyInRoom_first smallConfig).
  - vm_compute. reflexivity.
  - exact roomEditState_painted.
  - intros k Hk.
    repeat (apply elem_of_cons in Hk as [->|Hk]; [vm_compute; set_solver|]).
    by apply elem_of_nil in Hk.
Defined.

(** ** The create button *)

(** X11. [renderStageStatus] leaves the create button enabled exactly when
    the stage is not empty and contiguous. With the button disabled
    [createRoomFromStage] would change nothing; and the Enter key, which
    looks at the button, never gets the alert about tiles that are not
    contiguous when the flag of the button is the one [renderStageStatus]
    gives for the current stage (it runs after every change of the
    stage). *)
Theorem create_button_gate cfg st :
  (renderStageStatus st = false <-> staged st <> [] /\ isContiguous (staged st) = true) /\
  (renderStageStatus st = true -> fst (createRoomFromStage cfg st) = st) /\
  snd (onEnter cfg (renderStageStatus st) st) <> AlertNotContiguous.
Proof.
  assert (H : renderStageStatus st = false <->
              staged st <> [] /\ isContiguous (staged st) = true).
  { unfold renderStageStatus. destruct (staged st) as [|k ks]; cbn.
    - split; [discriminate|]. now intros [? _].
    - destruct (isContiguous (k :: ks)); cbn; split; try done.
      + intros [_ ?]. discriminate. }
  split; [exact H|]. split.
  - intros Hd. unfold createRoomFromStage.
    destruct (staged st) as [|k ks] eqn:Es; [reflexivity|].
    destruct (isContiguous (k :: ks)) eqn:Ec; [|reflexivity].
    assert (renderStageStatus st = false) by (apply H; now split). congruence.
  - unfold onEnter. destruct (renderStageStatus st) eqn:Ed; [discriminate|].
    destruct (proj1 H eq_refl) as [Hne Hc]. unfold createRoomFromStage.
    destruct (staged st) as [|k ks]; [done|]. rewrite Hc. cbn [negb].
    destruct (anyInRoom (k :: ks) (data st)) as [[?|] ?]; discriminate.
Qed.

(** ** Editing the selected cell *)

(** X12. After a click on a cell of the painted grid that belongs to no
    room, the edit target is the cell, and [applyColor], [applyIcon] and
    [applyNotes] write the value into the record of that cell and change
    nothing else in the store. *)
Theorem edit_ungrouped_cell cfg st k x v :
  painted cfg (data st) -> k ∈ gridKeys cfg ->
  cells (data st) !! k = Some x -> truthyRoom (cell_roomId x) = None ->
  let st1 := step cfg (Click k) st in
  st1 = set_editTarget (set_selection st (Some k) (Some k)) TargetCell /\
  data (applyColor cfg v st1)
    = set_cells (data st) (<[k := with_c (Some v) x]> (cells (data st))) /\
  data (applyIcon v st1)
    = set_cells (data st) (<[k := with_icon v x]> (cells (data st))) /\
  data (applyNotes v st1)
    = set_cells (data st) (<[k := with_n v x]> (cells (data st))).
Proof.
  intros Hp Hg Hx Hun. cbv zeta. cbn [step]. rewrite (rectForKey_grid cfg k Hg).
  rewrite (selectCell_painted cfg st k x Hp Hg Hx).
  unfold roomById. rewrite Hun.
  set (st1 := set_editTarget (set_selection st (Some k) (Some k)) TargetCell).
  split; [reflexivity|].
  assert (Hc : getCurrentCell st1 = (Some x, st1) /\ repairCell x = x /\ normalKey k = k).
  { now apply (getCurrentCell_painted cfg st1 k x). }
  destruct Hc as (Hc & Hrep & Hnk).
  assert (Ht : truthy k = true).
  { destruct (gridKeys_cellKey cfg k Hg) as (p & -> & _). apply cellKey_truthy. }
  unfold applyColor, applyIcon, applyNotes.
  cbn [selectedCellKey selectedRect st1 set_editTarget set_selection].
  fold st1. rewrite Ht, Hc, or_empty. cbn [negb editTarget st1 set_editTarget].
  split; [|split].
  - pose proof (writeCurrentCell_painted cfg k (with_c (Some v)) x st1 Hg) as W.
    cbv zeta in W. destruct (parseKey k) as [c r].
    destruct W as [W _]; [|now rewrite W].
    apply repairCell_fixed. now apply repairCell_fixed in Hrep.
  - pose proof (writeCurrentCell_painted cfg k (with_icon v) x st1 Hg) as W.
    cbv zeta in W. destruct (parseKey k) as [c r].
    destruct W as [_ W]; [|now rewrite W].
    apply repairCell_fixed. apply repairCell_fixed in Hrep as [_ ?]. now split.
  - pose proof (writeCurrentCell_painted cfg k (with_n v) x st1 Hg) as W.
    cbv zeta in W. destruct (parseKey k) as [c r].
    destruct W as [_ W]; [|now rewrite W].
    apply repairCell_fixed. now apply repairCell_fixed in Hrep.
Qed.

Lemma edit_ungrouped_cell_witness :
  let st1 := step smallConfig (Click "1,1") roomEditState in
  option_map cell_n (cells (data (applyNotes "trap" st1)) !! "1,1") = Some "trap".
Proof.
  cbv zeta.
  destruct (edit_ungrouped_cell smallConfig roomEditState "1,1" freshCell "trap")
    as (_ & _ & _ & H).
  - exact roomEditState_painted.
  - vm_compute. set_solver.
  - vm_compute. reflexivity.
  - reflexivity.
  - rewrite H. cbn [data set_cells cells]. now rewrite lookup_insert_eq.
Defined.

(** X13. [clearSelectedCell] on a selected cell of the painted grid: when
    the cell has a room id it alerts and changes nothing; otherwise it
    resets colour, icon and notes of that one record to their defaults. *)
Theorem clearSelectedCell_spec cfg st k rect x :
  painted cfg (data st) ->
  selectedCellKey st = Some k -> selectedRect st = Some rect -> k ∈ gridKeys cfg ->
  cells (data st) !! k = Some x ->
  (truthyRoom (cell_roomId x) <> None -> clearSelectedCell st = (st, AlertCellGrouped)) /\
  (truthyRoom (cell_roomId x) = None ->
     clearSelectedCell st =
     (set_data st (set_cells (data st)
        (<[k := {| cell_c := None; cell_n := ""; cell_icon := Some "";
                   cell_roomId := cell_roomId x |}]> (cells (data st)))), Silent)).
Proof.
  intros Hp Hk Hrect Hg Hx.
  destruct (getCurrentCell_painted cfg st k x Hp Hk Hg Hx) as (Hc & Hrep & Hnk).
  assert (Ht : truthy k = true).
  { destruct (gridKeys_cellKey cfg k Hg) as (p & -> & _). apply cellKey_truthy. }
  unfold clearSelectedCell. rewrite Hk, Hrect, Ht, Hc. cbn [negb].
  split; intros Hr.
  - destruct (truthyRoom (cell_roomId x)); [reflexivity|done].
  - rewrite Hr.
    pose proof (writeCurrentCell_painted cfg k
                  (fun y => with_n "" (with_icon "" (with_c None y))) x st Hg) as W.
    cbv zeta in W. destruct (parseKey k) as [c r].
    destruct W as [W _]; [|now rewrite W].
    apply repairCell_fixed. apply repairCell_fixed in Hrep as [_ ?]. now split.
Qed.

Lemma clearSelectedCell_spec_witness :
  clearSelectedCell roomEditState = (roomEditState, AlertCellGrouped).
Proof.
  destruct (clearSelectedCell_spec smallConfig roomEditState "0,0" "0,0" originCell) as [H _].
  - exact roomEditState_painted.
  - reflexivity.
  - reflexivity.
  - exact origin_in_grid.
  - vm_compute. reflexivity.
  - apply H. discriminate.
Defined.

(** X14. [applyRoomKind] writes the kind of the current room, and the
    kind [room] when it is given the empty string (the old kind is not
    kept, unlike the name); it changes no other field, no other room and
    no reading of a cell, and does nothing when the selected cell has no
    room. *)
Theorem applyRoomKind_spec kind st :
  rooms (data (applyRoomKind kind st)) =
    match fst (getCurrentRoom st) with
    | Some (id, rm) =>
        <[id := room_with_kind (if decide (kind = "") then "room" else kind) rm]>
          (rooms (data st))
    | None => rooms (data st)
    end /\
  (forall k, readCell (data (applyRoomKind kind st)) k = readCell (data st) k) /\
  nextRoomId (data (applyRoomKind kind st)) = nextRoomId (data st).
Proof.
  unfold applyRoomKind.
  pose proof (getCurrentRoom_same st) as ((S1 & S2 & S3) & _).
  destruct (getCurrentRoom st) as [[[id rm]|] st1]; cbn [fst snd] in *; [|done].
  unfold updateRoom. cbn [data set_data set_rooms rooms cells nextRoomId].
  split; [|split; [exact S1|exact S3]].
  rewrite S2. destruct kind; reflexivity.
Qed.

(** ** Replacing the store *)

Lemma afterReplace_exact cfg st :
  afterReplace cfg st =
  {| data := rebuildAll cfg (data st); editTarget := editTarget st;
     selectedCellKey := None; selectedRect := None; staged := [] |}.
Proof.
  unfold afterReplace.
  rewrite (clearStage_painted cfg) by apply rebuildAll_painted.
  rewrite (steady_refresh cfg); [reflexivity|apply rebuildAll_painted|discriminate].
Qed.

(** X15. A confirmed [doWipe] puts the tracker back into the state
    [createDungeonTracker] starts in with empty storage, except that the
    edit target stays what it was; a declined one changes nothing. *)
Theorem doWipe_resets cfg st :
  doWipe cfg true st = set_editTarget (initTracker cfg) (editTarget st) /\
  doWipe cfg false st = st.
Proof.
  split; [|reflexivity]. unfold doWipe. rewrite afterReplace_exact.
  unfold set_editTarget, initTracker. rewrite createDungeonTracker_data. reflexivity.
Qed.


(** X17. The listener of the file input: after a file that [doImport]
    turns down for a missing [cells] or [rooms] it shows the alert of
    the refusal and then the alert of a finished import all the same,
    with the tracker unchanged; after a file that is not JSON, or
    without a file, it shows nothing; after an accepted file it shows
    the alert of a finished import alone. *)
Theorem import_listener_alerts cfg st :
  (forall obj, lacksMapping obj ->
     onImportFileChange cfg (Some (Parsed obj)) st = (st, ["Invalid file."; "Imported."])) /\
  onImportFileChange cfg (Some NotJSON) st = (st, []) /\
  onImportFileChange cfg None st = (st, []) /\
  (forall file d, importedStore file = Some d ->
     snd (onImportFileChange cfg (Some file) st) = ["Imported."]).
Proof.
  split; [|split; [reflexivity|split; [reflexivity|]]].
  - intros obj H. unfold onImportFileChange, doImport. unfold lacksMapping in H.
    destruct (obj ≫= snap_data) as [sd|]; [|reflexivity].
    destruct H as [H|H]; rewrite H; [reflexivity|]. now destruct (snap_cells sd).
  - intros file d H. unfold onImportFileChange.
    pose proof (importedStore_doImport cfg file st) as E. rewrite H in E. now rewrite E.
Qed.

Lemma import_listener_alerts_witness :
  onImportFileChange smallConfig (Some (Parsed roomlessFile)) roomEditState
  = (roomEditState, ["Invalid file."; "Imported."]).
Proof.
  destruct (import_listener_alerts smallConfig roomEditState) as [H _].
  apply H. cbn. now right.
Defined.

(** ** The public state *)

(** X18. [loadState] of what [getState] returns gives back the tracker on
    a painted grid (and in general the store repainted). [loadState] of
    a state with [cells] and [rooms] installs them with the state's
    counter, or 1 without [meta], repaints the grid, and leaves edit
    target, selection and stage alone; [getState] then returns the
    installed store. Any other state changes nothing. *)
Theorem loadState_getState cfg st :
  data (loadState cfg (Some (getPublicState st)) st) = rebuildAll cfg (data st) /\
  (painted cfg (data st) -> loadState cfg (Some (getPublicState st)) st = st) /\
  (forall cs rs m,
     let st' := loadState cfg (Some {| snap_cells := Some cs; snap_rooms := Some rs;
                                       snap_meta := m |}) st in
     st' = set_data st (rebuildAll cfg {| cells := cs; rooms := rs;
                                          nextRoomId := default 1 m |}) /\
     snap_rooms (getPublicState st') = Some rs /\
     snap_meta (getPublicState st') = Some (default 1 m) /\
     exists cs', snap_cells (getPublicState st') = Some cs' /\
       forall k, cs' !! k =
                 if decide (k ∈ gridKeys cfg)
                 then Some (repairCell (default freshCell (cs !! k)))
                 else cs !! k) /\
  (forall sd, snap_cells sd = None \/ snap_rooms sd = None ->
     loadState cfg (Some sd) st = st) /\
  loadState cfg None st = st.
Proof.
  split; [|split; [|split; [|split; [|reflexivity]]]].
  - unfold loadState, getPublicState. cbn. now rewrite store_eta.
  - intros Hp. unfold loadState, getPublicState. cbn.
    rewrite store_eta, (rebuildAll_unchanged cfg _ Hp). apply set_data_id.
  - intros cs rs m. cbv zeta.
    assert (E : loadState cfg (Some {| snap_cells := Some cs; snap_rooms := Some rs;
                                       snap_meta := m |}) st
                = set_data st (rebuildAll cfg {| cells := cs; rooms := rs;
                                                 nextRoomId := default 1 m |})).
    { unfold loadState. cbn. now destruct m. }
    rewrite E. split; [reflexivity|].
    unfold getPublicState. cbn [snap_rooms snap_meta snap_cells data set_data].
    destruct (rebuildAll_sameReading cfg {| cells := cs; rooms := rs;
                                            nextRoomId := default 1 m |}) as (_ & S2 & S3).
    rewrite S2, S3. split; [reflexivity|]. split; [reflexivity|].
    eexists. split; [reflexivity|]. intros k. rewrite rebuildAll_lookup.
    destruct (decide (k ∈ gridKeys cfg)); [|reflexivity].
    unfold readCell. cbn [cells]. now destruct (cs !! k).
  - intros sd H. unfold loadState. destruct H as [H|H]; rewrite H; [reflexivity|].
    now destruct (snap_cells sd).
Qed.

Lemma loadState_getState_witness :
  loadState smallConfig (Some (getPublicState roomEditState)) roomEditState = roomEditState.
Proof.
  destruct (loadState_getState smallConfig roomEditState) as (_ & H & _).
  apply H. exact roomEditState_painted.
Defined.

(** ** Escape and the room list *)

(** X19. On a painted grid with a stage of grid keys, Escape (and the
    public [clearStage]) empties the stage and touches nothing in the
    store; Escape also sets the edit target to the cell and keeps the
    selection, whether or not the selected cell belongs to a room. *)
Theorem onEscape_spec cfg st :
  steady cfg st ->
  onEscape cfg st = set_editTarget (set_staged st []) TargetCell /\
  clearStage cfg st = set_staged st [].
Proof.
  intros (Hp & _ & _ & _ & Hk). split; [|now apply clearStage_painted].
  unfold onEscape. rewrite (clearStage_painted cfg st Hp).
  cbn [editTarget set_staged]. destruct (editTarget st) eqn:Et.
  - unfold set_editTarget, set_staged. cbn. now rewrite Et.
  - set (s2 := set_editTarget (set_staged st []) TargetCell).
    pose proof (steady_getCurrentCell cfg s2 Hp Hk) as G.
    destruct (getCurrentCell s2) as [x st3]. cbn [snd] in G. subst st3.
    apply (steady_refresh cfg s2 Hp Hk).
Qed.

Lemma onEscape_spec_witness :
  onEscape smallConfig pairStage = set_editTarget (set_staged pairStage []) TargetCell.
Proof. apply (onEscape_spec smallConfig pairStage). exact pairStage_steady. Defined.

(** X20. A click on a room of the room list, in a well-formed store on a
    painted grid: when the first member of the room has a rect, that cell
    is selected, the edit target is the room, nothing else changes, and
    the room the panel then edits is the one clicked. When the first
    member has no rect (a room imported from a larger grid), the
    selection is kept and only the edit target changes. *)
Theorem pickRoom_selects cfg st id rm k ks :
  steady cfg st -> wellFormed (data st) ->
  rooms (data st) !! id = Some rm -> room_cells rm = k :: ks ->
  (k ∈ gridKeys cfg ->
     onRoomItemClick cfg id st =
       {| data := data st; editTarget := TargetRoom; selectedCellKey := Some k;
          selectedRect := Some k; staged := staged st |} /\
     fst (getCurrentRoom (onRoomItemClick cfg id st)) = Some (id, rm)) /\
  (k ∉ gridKeys cfg -> onRoomItemClick cfg id st = set_editTarget st TargetRoom).
Proof.
  intros (Hp & _ & _ & _ & Hk) Hwf Hrm Hcells. unfold onRoomItemClick. rewrite Hrm, Hcells.
  split; intros Hg.
  - rewrite (rectForKey_grid cfg k Hg).
    destruct (wf_members _ Hwf id rm k Hrm) as (_ & x & Hx & Hid); [rewrite Hcells; left|].
    rewrite (selectCell_painted cfg st k x Hp Hg Hx).
    assert (Hne : id <> "").
    { intros ->. rewrite (wf_ids _ Hwf) in Hrm. discriminate. }
    rewrite (steady_refresh cfg).
    + split; [reflexivity|].
      match goal with |- fst (getCurrentRoom ?s) = _ =>
        now rewrite (getCurrentRoom_painted cfg s k x id rm) end.
    + exact Hp.
    + cbn. now intros ? [= <-].
  - unfold rectForKey. rewrite bool_decide_eq_false_2 by exact Hg.
    now apply (steady_refresh cfg).
Qed.

Lemma roomEditState_steady : steady smallConfig roomEditState.
Proof. apply run_steady, createDungeonTracker_steady. Qed.

Lemma roomEditState_wellFormed : wellFormed (data roomEditState).
Proof.
  apply (run_wellFormed smallConfig).
  - repeat (apply Forall_cons; split); try apply Forall_nil_2;
      (split; intros ? d E; discriminate E).
  - apply createDungeonTracker_wellFormed. discriminate.
Qed.

Lemma pickRoom_selects_witness :
  fst (getCurrentRoom (onRoomItemClick smallConfig "R1" cellEditState))
  = Some ("R1", originRoom).
Proof.
  destruct (pickRoom_selects smallConfig cellEditState "R1" originRoom "0,0" []) as [H _].
  - apply run_steady, createDungeonTracker_steady.
  - apply (run_wellFormed smallConfig).
    + repeat (apply Forall_cons; split); try apply Forall_nil_2;
        (split; intros ? d E; discriminate E).
    + apply createDungeonTracker_wellFormed. discriminate.
  - vm_compute. reflexivity.
  - reflexivity.
  - apply H. exact origin_in_grid.
Defined.

(** ** More on the contiguity check *)

Lemma isContiguous_connected (coords : list (Z * Z)) :
  isContiguous (map cellKey coords) = true <->
  forall a b, a ∈ coords -> b ∈ coords -> connectedIn (list_to_set coords) a b.
Proof.
  destruct (isContiguous_reaches (map cellKey coords)) as [_ H].
  rewrite H, allReached_iff. split; intros Hc a b Ha Hb; apply Hc;
    first [now apply elem_of_list_to_set | now apply elem_of_list_to_set in Ha
          | now apply elem_of_list_to_set in Hb].
Qed.

Lemma connectedIn_mono (S S' : gset (Z * Z)) a b :
  S ⊆ S' -> connectedIn S a b -> connectedIn S' a b.
Proof.
  intros Hsub. induction 1 as [a Ha|a b c Ha Hb Hab _ IH].
  - apply connected_here. now apply Hsub.
  - apply (connected_step S' a b c); auto.
Qed.

Lemma connectedIn_set_trans (S : gset (Z * Z)) a b c :
  connectedIn S a b -> connectedIn S b c -> connectedIn S a c.
Proof.
  induction 1 as [a Ha|a b' c' Ha Hb Hab _ IH]; intros Hbc; [exact Hbc|].
  apply (connected_step S a b' c); auto.
Qed.

Lemma connectedIn_set_target (S : gset (Z * Z)) a b : connectedIn S a b -> b ∈ S.
Proof. induction 1; auto. Qed.

Lemma connectedIn_set_sym (S : gset (Z * Z)) a b : connectedIn S a b -> connectedIn S b a.
Proof.
  induction 1 as [a Ha|a b c Ha Hb Hab H IH]; [now apply connected_here|].
  apply (connectedIn_set_trans S c b a IH).
  apply (connected_step S b a a); auto using adjacent4_sym. now apply connected_here.
Qed.

(** X21. The answer of [isContiguous] depends on the set of the listed
    cells only: neither the order in which they were staged nor a
    repeated key changes it. *)
Theorem isContiguous_order (l l' : list (Z * Z)) :
  (forall a, a ∈ l <-> a ∈ l') ->
  isContiguous (map cellKey l) = isContiguous (map cellKey l').
Proof.
  intros Hll.
  assert (E : (list_to_set l : gset (Z * Z)) = list_to_set l').
  { apply set_eq. intros a. rewrite !elem_of_list_to_set. apply Hll. }
  assert (H : isContiguous (map cellKey l) = true <-> isContiguous (map cellKey l') = true).
  { rewrite !isContiguous_connected, E. split; intros Hc a b Ha Hb; apply Hc;
      now apply Hll. }
  destruct (isContiguous (map cellKey l)), (isContiguous (map cellKey l')); try reflexivity.
  - symmetry. now apply H.
  - now apply H.
Qed.

Lemma isContiguous_order_witness :
  isContiguous (map cellKey [(0, 0); (1, 0); (1, 1)])
  = isContiguous (map cellKey [(1, 1); (0, 0); (1, 0); (0, 0)]).
Proof.
  apply isContiguous_order. intros a.
  rewrite !elem_of_cons, !elem_of_nil. tauto.
Defined.

Lemma isContiguous_pair (a b : Z * Z) :
  a <> b -> (isContiguous [cellKey a; cellKey b] = true <-> adjacent4 a b).
Proof.
  intros Hne. change [cellKey a; cellKey b] with (map cellKey [a; b]).
  rewrite isContiguous_connected. split.
  - intros Hc. assert (H : connectedIn (list_to_set [a; b]) a b).
    { apply Hc; [left|right; left]. }
    inversion H as [|? x ? _ Hx Hax _]; subst; [done|].
    apply elem_of_list_to_set in Hx.
    apply elem_of_cons in Hx as [->|Hx].
    + destruct Hax as [[_ ?]|[_ ?]]; lia.
    + apply list_elem_of_singleton in Hx. now subst.
  - intros Hab.
    assert (Ha : a ∈ (list_to_set [a; b] : gset (Z * Z))) by (apply elem_of_list_to_set; left).
    assert (Hb : b ∈ (list_to_set [a; b] : gset (Z * Z))).
    { apply elem_of_list_to_set. right. left. }
    assert (H : connectedIn (list_to_set [a; b]) a b).
    { apply (connected_step _ a b b); auto. now apply connected_here. }
    intros u v Hu Hv.
    apply elem_of_cons in Hu as [->|Hu]; [|apply list_elem_of_singleton in Hu as ->];
      (apply elem_of_cons in Hv as [->|Hv]; [|apply list_elem_of_singleton in Hv as ->]);
      first [now apply connected_here | exact H | now apply connectedIn_set_sym].
Qed.

Lemma isContiguous_grow (l : list (Z * Z)) (a b : Z * Z) :
  isContiguous (map cellKey l) = true -> a ∈ l -> adjacent4 a b ->
  isContiguous (map cellKey (l ++ [b])) = true.
Proof.
  rewrite !isContiguous_connected. intros Hc Ha Hab.
  set (S' := list_to_set (l ++ [b]) : gset (Z * Z)).
  assert (Hsub : (list_to_set l : gset (Z * Z)) ⊆ S').
  { intros x Hx. apply elem_of_list_to_set. apply elem_of_app. left.
    now apply elem_of_list_to_set in Hx. }
  assert (HaS : a ∈ S') by (apply elem_of_list_to_set, elem_of_app; now left).
  assert (HbS : b ∈ S').
  { apply elem_of_list_to_set, elem_of_app. right. now apply list_elem_of_singleton. }
  assert (Hto : forall u, u ∈ (l ++ [b])%list -> connectedIn S' u a).
  { intros u Hu. apply elem_of_app in Hu as [Hu|Hu].
    - apply (connectedIn_mono _ _ _ _ Hsub). now apply Hc.
    - apply list_elem_of_singleton in Hu as ->.
      apply (connected_step S' b a a); auto using adjacent4_sym. now apply connected_here. }
  intros u v Hu Hv. apply (connectedIn_set_trans S' u a v); [now apply Hto|].
  apply connectedIn_set_sym. now apply Hto.
Qed.

(** X22. Edge adjacency is what [isContiguous] goes by: two different
    cells are contiguous exactly when they share an edge (same row and
    neighbouring columns, or same column and neighbouring rows), and a
    contiguous list of cells stays contiguous when a cell that shares an
    edge with one of them is added. *)
Theorem isContiguous_adjacent :
  (forall a b : Z * Z,
     a <> b -> (isContiguous [cellKey a; cellKey b] = true <-> adjacent4 a b)) /\
  (forall (l : list (Z * Z)) (a b : Z * Z),
     isContiguous (map cellKey l) = true -> a ∈ l -> adjacent4 a b ->
     isContiguous (map cellKey (l ++ [b])) = true).
Proof. split; [exact isContiguous_pair|exact isContiguous_grow]. Qed.

Lemma isContiguous_adjacent_witness :
  isContiguous [cellKey (0, 0); cellKey (0, 1)] = true /\
  isContiguous [cellKey (0, 0); cellKey (1, 1)] = false /\
  isContiguous (map cellKey ([(0, 0); (1, 0)] ++ [(1, 1)])) = true.
Proof.
  destruct isContiguous_adjacent as [H1 H2]. split; [|split].
  - apply H1; [discriminate|]. right. split; reflexivity.
  - destruct (isContiguous [cellKey (0, 0); cellKey (1, 1)]) eqn:E; [|reflexivity].
    apply H1 in E; [|discriminate]. destruct E as [[? ?]|[? ?]]; discriminate.
  - apply (H2 [(0, 0); (1, 0)] (1, 0) (1, 1)).
    + vm_compute. reflexivity.
    + right. left.
    + right. split; reflexivity.
Defined.

(** ** Text of the room list *)

Lemma list_ascii_app (s1 s2 : string) :
  list_ascii_of_string (s1 ++ s2) = (list_ascii_of_string s1 ++ list_ascii_of_string s2)%list.
Proof.
  induction s1 as [|a s1 IH]; [reflexivity|].
  change (String a s1 ++ s2) with (String a (s1 ++ s2)).
  cbn [list_ascii_of_string app]. now rewrite IH.
Qed.

Lemma escapeChar_safe (a ch : ascii) :
  In ch (list_ascii_of_string (escapeChar a)) ->
  ch <> "<"%char /\ ch <> ">"%char /\ ch <> "034"%char /\ ch <> "'"%char.
Proof.
  unfold escapeChar.
  destruct (Ascii.eqb_spec a "&"); [|destruct (Ascii.eqb_spec a "<");
    [|destruct (Ascii.eqb_spec a ">"); [|destruct (Ascii.eqb_spec a "034");
      [|destruct (Ascii.eqb_spec a "'")]]]];
    cbn; intros H;
    repeat (destruct H as [<-|H]; [repeat split; congruence|]); contradiction.
Qed.

Lemma escapeChar_inj (a b : ascii) (s t : string) :
  escapeChar a ++ s = escapeChar b ++ t -> a = b /\ s = t.
Proof.
  unfold escapeChar.
  destruct (Ascii.eqb_spec a "&"); [|destruct (Ascii.eqb_spec a "<");
    [|destruct (Ascii.eqb_spec a ">"); [|destruct (Ascii.eqb_spec a "034");
      [|destruct (Ascii.eqb_spec a "'")]]]];
    (destruct (Ascii.eqb_spec b "&"); [|destruct (Ascii.eqb_spec b "<");
      [|destruct (Ascii.eqb_spec b ">"); [|destruct (Ascii.eqb_spec b "034");
        [|destruct (Ascii.eqb_spec b "'")]]]]);
    cbv [String.append]; intros H; try discriminate H; injection H; intros; subst;
    try congruence; split; reflexivity.
Qed.

(** X23. The text [escapeHtml] returns holds no angle bracket, no double
    quote and no apostrophe, whatever the name or kind of the room; and
    two different texts are never escaped to the same text. *)
Theorem escapeHtml_safe (s : string) :
  (forall ch, In ch (list_ascii_of_string (escapeHtml s)) ->
     ch <> "<"%char /\ ch <> ">"%char /\ ch <> "034"%char /\ ch <> "'"%char) /\
  (forall s', escapeHtml s = escapeHtml s' -> s = s').
Proof.
  split.
  - induction s as [|a s IH]; cbn [escapeHtml]; intros ch H; [destruct H|].
    rewrite list_ascii_app in H. apply in_app_or in H as [H|H].
    + now apply (escapeChar_safe a).
    + now apply IH.
  - induction s as [|a s IH]; intros [|b s'] H; cbn [escapeHtml] in H.
    + reflexivity.
    + exfalso. unfold escapeChar in H.
      repeat destruct (Ascii.eqb _ _); cbv [String.append] in H; discriminate H.
    + exfalso. unfold escapeChar in H.
      repeat destruct (Ascii.eqb _ _); cbv [String.append] in H; discriminate H.
    + apply escapeChar_inj in H as [-> H]. f_equal. now apply IH.
Qed.

(** ** What is painted *)

Lemma paint_ext c r d d' :
  cells d = cells d' -> rooms d = rooms d' -> paint c r d = paint c r d'.
Proof.
  intros Ec Er. unfold paint, ensureCell, roomById. cbn [fst]. now rewrite Ec, Er.
Qed.

Lemma paintAt_ext k d d' :
  cells d = cells d' -> rooms d = rooms d' -> paintAt k d = paintAt k d'.
Proof. intros Ec Er. unfold paintAt. destruct (parseKey k). now apply paint_ext. Qed.

Lemma paintAt_grouped cfg d k x id rm :
  painted cfg d -> k ∈ gridKeys cfg -> cells d !! k = Some x ->
  cell_roomId x = RoomId id -> id <> "" -> rooms d !! id = Some rm -> room_c rm <> "" ->
  fill (paintAt k d) = room_c rm /\ fillOpacity (paintAt k d) = "0.90".
Proof.
  intros Hp Hg Hx Hid Hne Hrm Hc.
  destruct (painted_read cfg d k x Hp Hg Hx) as (_ & Hr & _).
  destruct (gridKeys_cellKey cfg k Hg) as (p & -> & _).
  unfold paintAt. rewrite parseKey_cellKey. unfold paint.
  rewrite (ensureCell_unchanged _ _ d x Hx Hr). cbn [fst].
  unfold roomById. rewrite Hid. cbn [truthyRoom].
  rewrite (truthy_nonempty id Hne), Hrm, (truthy_nonempty _ Hc).
  cbv beta iota zeta. rewrite (truthy_nonempty _ Hc). now split.
Qed.

Lemma applyColor_room_mode cfg st k rect x id rm v :
  painted cfg (data st) ->
  selectedCellKey st = Some k -> selectedRect st = Some rect -> k ∈ gridKeys cfg ->
  cells (data st) !! k = Some x -> cell_roomId x = RoomId id -> id <> "" ->
  rooms (data st) !! id = Some rm -> editTarget st = TargetRoom ->
  data (applyColor cfg v st)
    = set_rooms (data st) (<[id := room_with_c v rm]> (rooms (data st))).
Proof.
  intros Hp Hk Hrect Hg Hx Hid Hne Hrm Ht'.
  destruct (getCurrentCell_painted cfg st k x Hp Hk Hg Hx) as (Hc & Hrep & Hnk).
  pose proof (getCurrentRoom_painted cfg st k x id rm Hp Hk Hg Hx Hid Hne Hrm) as Hr.
  assert (Ht : truthy k = true).
  { destruct (gridKeys_cellKey cfg k Hg) as (p & -> & _). apply cellKey_truthy. }
  unfold applyColor. rewrite Hk, Hrect, Ht, Hc. cbn [negb]. rewrite Ht', Hr.
  unfold updateRoom. cbn [data set_data].
  apply repaintKeys_painted. now apply painted_set_rooms.
Qed.

(** X24. The colour of the room is what its cells are painted with. Once
    [createRoomFromStage] has made a room of the stage, [setVisual]
    fills every member with the colour new rooms get, whatever colour
    the cell has of its own; after [applyColor] with a colour, every
    member is filled with that colour; and once the room is dissolved
    again every member is painted as it was before the room was made. *)
Theorem room_colour_shows cfg st k :
  steady cfg st -> wellFormed (data st) ->
  staged st <> [] -> isContiguous (staged st) = true ->
  (forall k x, k ∈ staged st -> cells (data st) !! k = Some x ->
               truthyRoom (cell_roomId x) = None) ->
  k ∈ staged st ->
  let st1 := fst (createRoomFromStage cfg st) in
  fill (paintAt k (data st1)) = "#3c6270" /\
  fillOpacity (paintAt k (data st1)) = "0.90" /\
  (forall v, v <> "" -> fill (paintAt k (data (applyColor cfg v st1))) = v) /\
  paintAt k (data (onDissolveClick cfg true st1)) = paintAt k (data st).
Proof.
  intros Hst Hwf Hne Hc Hun Hin. cbv zeta.
  pose proof (create_dissolve_exact cfg st Hst Hwf Hne Hc Hun) as Hd.
  destruct (createRoom_effect cfg st Hst Hne Hc Hun)
    as (_ & R1 & _ & R3 & _ & _ & _ & R5 & R6 & R7 & _ & _).
  pose proof (step_steady cfg CreateRoom st Hst) as (Hp' & _ & _ & _ & Hk').
  cbn [step] in Hp', Hk'. pose proof Hst as (Hp & _ & Hs & _ & _).
  set (st1 := fst (createRoomFromStage cfg st)) in *.
  set (id := "R" ++ string_of_Z (nextRoomId (data st))) in *.
  set (rm := {| room_id := id; room_name := "Room " ++ id; room_kind := "room";
                room_c := "#3c6270"; room_n := ""; room_icon := "";
                room_cells := sortKeys (staged st) |}) in *.
  assert (Hg : k ∈ gridKeys cfg) by now apply Hs.
  destruct (Hp k Hg) as (x & Hx & Hr).
  assert (Hx1 : cells (data st1) !! k = Some (with_roomId (RoomId id) x)).
  { rewrite R3, decide_True by exact Hin. now rewrite Hx. }
  assert (Hid : id <> "") by discriminate.
  assert (Hrm1 : rooms (data st1) !! id = Some rm) by (rewrite R1; apply lookup_insert_eq).
  destruct (paintAt_grouped cfg (data st1) k _ id rm Hp' Hg Hx1 eq_refl Hid Hrm1) as [F1 F2];
    [discriminate|].
  split; [exact F1|]. split; [exact F2|]. split.
  - intros v Hv.
    destruct (sortKeys (staged st)) as [|f l] eqn:Esort.
    { exfalso. assert (H : k ∈ sortKeys (staged st)) by now apply sortKeys_elem.
      rewrite Esort in H. by apply elem_of_nil in H. }
    assert (Hf : f ∈ staged st) by (apply sortKeys_elem; rewrite Esort; left).
    destruct (Hp f (Hs f Hf)) as (y & Hy & _).
    assert (Hy1 : cells (data st1) !! f = Some (with_roomId (RoomId id) y)).
    { rewrite R3, decide_True by exact Hf. now rewrite Hy. }
    assert (E : data (applyColor cfg v st1)
                = set_rooms (data st1) (<[id := room_with_c v rm]> (rooms (data st1)))).
    { apply (applyColor_room_mode cfg st1 f f (with_roomId (RoomId id) y) id rm v);
        auto. }
    rewrite E.
    assert (Hp2 : painted cfg (set_rooms (data st1)
                                 (<[id := room_with_c v rm]> (rooms (data st1)))))
      by now apply painted_set_rooms.
    destruct (paintAt_grouped cfg _ k (with_roomId (RoomId id) x) id (room_with_c v rm)
                Hp2 Hg Hx1 eq_refl Hid) as [G _].
    { cbn [rooms set_rooms]. apply lookup_insert_eq. }
    { exact Hv. }
    exact G.
  - rewrite Hd. now apply paintAt_ext.
Qed.

Lemma room_colour_shows_witness :
  fill (paintAt "1,0" (data (fst (createRoomFromStage smallConfig pairStage)))) = "#3c6270".
Proof.
  destruct (room_colour_shows smallConfig pairStage "1,0") as [H _].
  - exact pairStage_steady.
  - exact pairStage_wellFormed.
  - discriminate.
  - vm_compute. reflexivity.
  - exact pairStage_ungrouped.
  - vm_compute. set_solver.
  - exact H.
Defined.

(** * Viewport *)

Section ViewportFacts.
Local Open Scope R_scope.
Variable cfg : config.

Lemma ceil_ge x : x <= ceil x.
Proof.
  unfold ceil. rewrite opp_IZR. destruct (base_Int_part (- x)) as [H _]. lra.
Qed.

Lemma grid_w_nonneg : validConfig cfg -> 0 <= grid_w cfg.
Proof.
  intros (Hc & _ & Hs & Hg & Hp). unfold grid_w.
  eapply Rle_trans; [|apply ceil_ge].
  apply IZR_le in Hc. nra.
Qed.

Lemma grid_h_nonneg : validConfig cfg -> 0 <= grid_h cfg.
Proof.
  intros (_ & Hr & Hs & Hg & Hp). unfold grid_h.
  eapply Rle_trans; [|apply ceil_ge].
  apply IZR_le in Hr. nra.
Qed.

Lemma clamp_cases n a b :
  (a <= b -> a <= clamp n a b <= b) /\ (b < a -> clamp n a b = a).
Proof.
  unfold clamp, Rmax, Rmin.
  destruct (Rle_dec b n), (Rle_dec a b); try destruct (Rle_dec a n); split; intros; lra.
Qed.

Lemma clamp_within n a b : a <= n <= b -> clamp n a b = n.
Proof.
  unfold clamp, Rmax, Rmin. intros H.
  destruct (Rle_dec b n); [destruct (Rle_dec a b)|destruct (Rle_dec a n)]; lra.
Qed.

Lemma clamp_idempotent n a b : clamp (clamp n a b) a b = clamp n a b.
Proof.
  destruct (Rle_dec a b) as [H|H].
  - apply clamp_within, clamp_cases, H.
  - destruct (clamp_cases n a b) as [_ E]. rewrite E by lra.
    destruct (clamp_cases a a b) as [_ E']. apply E'. lra.
Qed.

Lemma clampView_inBounds v :
  0 <= grid_w cfg -> 0 <= grid_h cfg -> viewInBounds cfg (clampView cfg v).
Proof.
  intros Hw Hh. unfold viewInBounds, clampView. cbn [vb_x vb_y vb_w vb_h].
  assert (Bw : vbMaxW cfg <= vbMinW cfg) by (unfold vbMaxW, vbMinW, maxZoom; lra).
  assert (Bh : vbMaxH cfg <= vbMinH cfg) by (unfold vbMaxH, vbMinH, maxZoom; lra).
  destruct (clamp_cases (vb_w v) (vbMaxW cfg) (vbMinW cfg)) as [Cw _]. specialize (Cw Bw).
  destruct (clamp_cases (vb_h v) (vbMaxH cfg) (vbMinH cfg)) as [Ch _]. specialize (Ch Bh).
  split; [exact Cw|]. split; [exact Ch|]. split.
  - apply clamp_cases. unfold vbMinW in *. lra.
  - apply clamp_cases. unfold vbMinH in *. lra.
Qed.

Lemma initialView_inBounds :
  0 <= grid_w cfg -> 0 <= grid_h cfg -> viewInBounds cfg (initialView cfg).
Proof.
  intros Hw Hh. unfold viewInBounds, initialView, vbMaxW, vbMinW, vbMaxH, vbMinH, maxZoom.
  cbn [vb_x vb_y vb_w vb_h]. lra.
Qed.

Lemma pointers_set_length id p l :
  pointers_has id l = true -> length (pointers_set id p l) = length l.
Proof.
  induction l as [|[i q] l IH]; cbn; [discriminate|].
  destruct (Z.eqb i id); cbn; [reflexivity|]. intros H. now rewrite IH.
Qed.

Lemma map_snd_length (ps : list (Z * point)) : length (map snd ps) = length ps.
Proof. apply length_map. Qed.



Lemma onPointerDown_view e rect s : view (onPointerDown e rect s) = view s.
Proof. unfold onPointerDown. now destruct (isMouse e). Qed.




(** ** Claims on the viewport *)

(** C9. The clamp step is idempotent: clamping an already clamped window
    changes nothing, whatever the window and the grid. *)
Theorem clampView_idempotent (v : viewBox) : clampView cfg (clampView cfg v) = clampView cfg v.
Proof.
  unfold clampView. cbn [vb_x vb_y vb_w vb_h].
  rewrite !(clamp_idempotent (vb_w v)), !(clamp_idempotent (vb_h v)).
  now rewrite !clamp_idempotent.
Qed.

Lemma onPointerMove_inBounds e rect t s :
  validConfig cfg -> gestureMatches s ->
  exists s', onPointerMove cfg e rect t s = Some s' /\
             gestureMatches s' /\
             (view s' = view s \/ viewInBounds cfg (view s')) /\
             (viewInBounds cfg (view s) -> viewInBounds cfg (view s')).
Proof.
  intros V G. pose proof (grid_w_nonneg V) as Hw. pose proof (grid_h_nonneg V) as Hh.
  unfold onPointerMove.
  destruct (pointers_has (pointerId e) (pointers s)) eqn:Eh; cbn [negb];
    [|exists s; split; [reflexivity|split; [exact G|split; [now left|auto]]]].
  set (cur := {| pt_x := clientX e; pt_y := clientY e |}).
  set (ps := pointers_set (pointerId e) cur (pointers s)).
  pose proof (pointers_set_length (pointerId e) cur (pointers s) Eh) as L. fold ps in L.
  pose proof (map_snd_length ps) as M.
  assert (G' : forall g v b, gesture s = Some g ->
                 gestureMatches {| view := v; pointers := ps; gesture := Some g;
                                   blockClicksUntil := b |}).
  { intros g v b Eg H. cbn [pointers gesture] in *. rewrite <- Eg. apply G. lia. }
  destruct (gesture s) as [g|] eqn:Eg.
  2:{ eexists. split; [reflexivity|]. split; [|split; [now left|auto]].
      intros H. cbn [pointers] in H. destruct G as (? & ? & ? & ? & G); [lia|congruence]. }
  destruct (map snd ps) as [|p0 [|p1 [|p2 rest]]] eqn:Ep; cbn [length] in M.
  - destruct g; eexists; (split; [reflexivity|]); (split; [now apply G'|]);
      cbn [view]; (split; [now left|auto]).
  - destruct g; eexists; (split; [reflexivity|]); (split; [now apply G'|]);
      cbn [view].
    + split; [right|intros _]; apply clampView_inBounds; auto.
    + split; [now left|auto].
  - destruct g.
    + exfalso. destruct G as (? & ? & ? & ? & G); [lia|congruence].
    + eexists. split; [reflexivity|]. split; [now apply G'|]. cbn [view].
      split; [right|intros _]; apply clampView_inBounds; auto.
  - destruct g; eexists; (split; [reflexivity|]); (split; [now apply G'|]);
      cbn [view]; (split; [now left|auto]).
Qed.


(** C8. For a valid configuration, a pointer move on a viewport whose
    gesture snapshot matches its pointers always yields a viewport; its
    window is either the one before the move or, when the move panned or
    pinched, a window within the clamp bounds: width between the smallest
    window [grid_w / 8] and the full [grid_w], likewise for the height,
    and origin between 0 and [grid_w - w], [grid_h - h]. A window within
    the bounds stays within them. *)
Theorem viewport_bounds e rect t s :
  validConfig cfg -> gestureMatches s ->
  exists s', onPointerMove cfg e rect t s = Some s' /\
             gestureMatches s' /\
             (view s' = view s \/ viewInBounds cfg (view s')) /\
             (viewInBounds cfg (view s) -> viewInBounds cfg (view s')).
Proof. apply onPointerMove_inBounds. Qed.

End ViewportFacts.

Lemma defaultConfig_valid : validConfig defaultConfig.
Proof. unfold validConfig, defaultConfig. cbn. repeat split; (lia || lra). Qed.

(** C8 at the default grid, for a one-finger drag from the initial view. *)
Lemma viewport_bounds_witness :
  exists s', onPointerMove defaultConfig touchMove screen 0 pannedViewport = Some s' /\
             viewInBounds defaultConfig (view s').
Proof.
  destruct (viewport_bounds defaultConfig touchMove screen 0 pannedViewport)
    as (s' & E & _ & _ & B).
  - exact defaultConfig_valid.
  - intros H. cbn in H. lia.
  - exists s'. split; [exact E|]. apply B. unfold pannedViewport.
    rewrite onPointerDown_view.
    apply initialView_inBounds;
      [apply grid_w_nonneg|apply grid_h_nonneg]; exact defaultConfig_valid.
Defined.

(** * Further properties of the geometry and of the viewport *)

Section ViewportMore.
Local Open Scope R_scope.
Variable cfg : config.

(** X25. For a valid configuration, the square of every cell of the grid
    lies inside the bounds [computeBounds] returns, at least [PAD] away
    from each border, and the squares of two cells of a row (or of a
    column) are at least [GAP] apart. *)
Theorem cells_within_bounds (c r : Z) :
  validConfig cfg -> (0 <= c < COLS cfg)%Z -> (0 <= r < ROWS cfg)%Z ->
  let p := topLeft cfg (IZR c) (IZR r) in
  PAD cfg <= pt_x p /\ pt_x p + SIZE cfg <= grid_w cfg - PAD cfg /\
  PAD cfg <= pt_y p /\ pt_y p + SIZE cfg <= grid_h cfg - PAD cfg /\
  (forall c', (c < c')%Z ->
     pt_x p + SIZE cfg + GAP cfg <= pt_x (topLeft cfg (IZR c') (IZR r))) /\
  (forall r', (r < r')%Z ->
     pt_y p + SIZE cfg + GAP cfg <= pt_y (topLeft cfg (IZR c) (IZR r'))).
Proof.
  intros (_ & _ & Hs & Hg & Hp) [Hc0 Hc1] [Hr0 Hr1]. cbv zeta.
  unfold topLeft, STEP. cbn [pt_x pt_y].
  pose proof (ceil_ge (PAD cfg * 2 + IZR (COLS cfg) * SIZE cfg
                       + (IZR (COLS cfg) - 1) * GAP cfg)) as Cw.
  pose proof (ceil_ge (PAD cfg * 2 + IZR (ROWS cfg) * SIZE cfg
                       + (IZR (ROWS cfg) - 1) * GAP cfg)) as Ch.
  fold (grid_w cfg) in Cw. fold (grid_h cfg) in Ch.
  apply IZR_le in Hc0, Hr0.
  assert (Hc2 : IZR c <= IZR (COLS cfg) - 1) by (rewrite <- minus_IZR; apply IZR_le; lia).
  assert (Hr2 : IZR r <= IZR (ROWS cfg) - 1) by (rewrite <- minus_IZR; apply IZR_le; lia).
  repeat split.
  - nra.
  - nra.
  - nra.
  - nra.
  - intros c' Hc'. assert (IZR c + 1 <= IZR c') by (rewrite <- plus_IZR; apply IZR_le; lia).
    nra.
  - intros r' Hr'. assert (IZR r + 1 <= IZR r') by (rewrite <- plus_IZR; apply IZR_le; lia).
    nra.
Qed.

Lemma clampView_within (v : viewBox) : viewInBounds cfg v -> clampView cfg v = v.
Proof.
  intros (Bw & Bh & Bx & By). unfold clampView.
  rewrite (clamp_within (vb_w v)) by exact Bw.
  rewrite (clamp_within (vb_h v)) by exact Bh.
  rewrite (clamp_within (vb_x v)) by exact Bx.
  rewrite (clamp_within (vb_y v)) by exact By.
  now destruct v.
Qed.

(** X26. For a valid configuration, [clampView] leaves a window unchanged
    exactly when the window is within the bounds. *)
Theorem clampView_fixed (v : viewBox) :
  validConfig cfg -> (clampView cfg v = v <-> viewInBounds cfg v).
Proof.
  intros V. pose proof (grid_w_nonneg cfg V) as Hw. pose proof (grid_h_nonneg cfg V) as Hh.
  split.
  - intros <-. now apply clampView_inBounds.
  - apply clampView_within.
Qed.






(** X29. Clicks after a gesture. A move with two fingers down blocks
    the clicks on cells for the 400 ms that follow it, and a pan move
    more than 6 px away from where the pan began blocks them for 300 ms:
    a blocked click selects and stages nothing. A pan move that stays
    within 6 px does not touch the block, so that a tap still clicks. *)
Theorem clicks_after_gesture e rect t s s' now shiftKey p st :
  onPointerMove cfg e rect t s = Some s' ->
  pointers_has (pointerId e) (pointers s) = true ->
  (length (pointers s) = 2%nat -> gesture s <> None -> now < t + 400 ->
     blockClicksUntil s' = t + 400 /\
     onCellClick cfg now shiftKey p (blockClicksUntil s') st = st) /\
  (forall sv sp, length (pointers s) = 1%nat -> gesture s = Some (Pan sv sp) ->
     (6 < hypot (clientX e - pt_x sp) (clientY e - pt_y sp) -> now < t + 300 ->
        blockClicksUntil s' = t + 300 /\
        onCellClick cfg now shiftKey p (blockClicksUntil s') st = st) /\
     (hypot (clientX e - pt_x sp) (clientY e - pt_y sp) <= 6 ->
        blockClicksUntil s' = blockClicksUntil s)).
Proof.
  intros E Eh. unfold onPointerMove in E. rewrite Eh in E. cbn [negb] in E.
  pose proof (pointers_set_length (pointerId e) {| pt_x := clientX e; pt_y := clientY e |}
                (pointers s) Eh) as L'.
  rewrite <- (map_snd_length (pointers_set _ _ _)) in L'.
  split.
  - intros L Hg Hnow. rewrite L in L'.
    destruct (gesture s) as [g|]; [|done].
    destruct (map snd (pointers_set _ _ _)) as [|p0 [|p1 [|p2 rest]]]; cbn [length] in L';
      try lia.
    destruct g; [discriminate E|]. injection E as <-. cbn [blockClicksUntil].
    split; [reflexivity|]. unfold onCellClick. now destruct (Rlt_dec now (t + 400)).
  - intros sv sp L Hg. rewrite L in L'. rewrite Hg in E.
    destruct (map snd (pointers_set _ _ _)) as [|p0 [|p1 rest]]; cbn [length] in L'; try lia.
    injection E as <-. cbn [blockClicksUntil pt_x pt_y]. split.
    + intros Hfar Hnow.
      destruct (Rlt_dec 6 (hypot (clientX e - pt_x sp) (clientY e - pt_y sp))); [|lra].
      split; [reflexivity|]. unfold onCellClick. now destruct (Rlt_dec now (t + 300)).
    + intros Hnear.
      destruct (Rlt_dec 6 (hypot (clientX e - pt_x sp) (clientY e - pt_y sp))); [lra|].
      reflexivity.
Qed.


End ViewportMore.


Lemma cells_within_bounds_witness :
  (pt_x (topLeft defaultConfig 49 0) + SIZE defaultConfig
   <= grid_w defaultConfig - PAD defaultConfig)%R.
Proof.
  destruct (cells_within_bounds defaultConfig 49 0) as (_ & H & _).
  - exact defaultConfig_valid.
  - cbn. lia.
  - cbn. lia.
  - exact H.
Defined.

Lemma clampView_fixed_witness :
  clampView defaultConfig (initialView defaultConfig) = initialView defaultConfig.
Proof.
  apply (clampView_fixed defaultConfig); [exact defaultConfig_valid|].
  apply initialView_inBounds;
    [apply grid_w_nonneg|apply grid_h_nonneg]; exact defaultConfig_valid.
Defined.



Lemma clicks_after_gesture_witness :
  exists s', onPointerMove defaultConfig touchMove screen 0 pannedViewport = Some s' /\
             onCellClick defaultConfig 100 false (0, 0)%Z (blockClicksUntil s')
                         (initTracker defaultConfig)
             = initTracker defaultConfig.
Proof.
  destruct (onPointerMove_inBounds defaultConfig touchMove screen 0 pannedViewport)
    as (s' & E & _).
  - exact defaultConfig_valid.
  - intros H. cbn in H. lia.
  - exists s'. split; [exact E|].
    destruct (clicks_after_gesture defaultConfig touchMove screen 0 pannedViewport s'
                100 false (0, 0)%Z (initTracker defaultConfig) E eq_refl) as [_ H].
    destruct (H (initialView defaultConfig) {| pt_x := 100; pt_y := 100 |} eq_refl eq_refl)
      as [H1 _].
    apply H1.
    + cbn [clientX clientY touchMove pt_x pt_y]. unfold hypot.
      rewrite <- (sqrt_square 6) at 1 by lra. apply sqrt_lt_1_alt. lra.
    + lra.
Defined.

Section PinchAtRest.
Local Open Scope R_scope.



End PinchAtRest.
